(** * Winter framework-next AJAX request: lifecycle and partial updates

    A shallow embedding of [modules/system/assets/js/framework-next/ajax/Request.js]
    (class [Request]) together with the properties of its request lifecycle.

    Definitions:
    - [Js]       : the JavaScript values the class manipulates and the
                   primitive operations it applies to them;
    - [Regex]    : a small regular-expression matcher, used for the handler
                   name check of [checkRequest];
    - [Request]  : the class itself, as state-passing functions over a DOM
                   and a trace of effects;
    - [Demo]     : a concrete document, hook bus and server;
    - [Spec]     : the handler-name format in the specification's words;
    - [Observe]  : what the theorems read off a run.

    Theorems:
    - [RegexFacts], [JsFacts] : the matcher and the object operations;
    - [RequestFacts]          : the request lifecycle;
    - [Examples]              : the same at concrete requests. *)

From Stdlib Require Import String Ascii List ZArith Bool Lia FinFun.
From Stdlib Require Import DecimalString DecimalNat DecimalFacts.
Import ListNotations.
Local Open Scope list_scope.
Local Open Scope string_scope.
Set Warnings "-register-all".

(* ===================================================================== *)
(** ** JavaScript values *)
(* ===================================================================== *)

Module Js.

(** Values reachable by the class: JSON data coming back from the server,
    the members of the [options] bag, callbacks (identified by a handle and
    run by the environment) and DOM elements (identified by a node id).
    Numbers are integers; strings are sequences of code units.  The fields
    of an object are kept in [Object.entries] order. *)
Inductive value : Type :=
| VUndefined
| VNull
| VBool (b : bool)
| VNum (n : Z)
| VStr (s : string)
| VArr (items : list value)
| VObj (fields : list (string * value))
| VFunc (f : nat)
| VElem (e : nat).

(** ToBoolean. *)
Definition truthy (v : value) : bool :=
  match v with
  | VUndefined | VNull => false
  | VBool b => b
  | VNum n => negb (n =? 0)%Z
  | VStr s => negb (s =? "")
  | VArr _ | VObj _ | VFunc _ | VElem _ => true
  end.

(** The [typeof] operator. *)
Definition typeof (v : value) : string :=
  match v with
  | VUndefined => "undefined"
  | VNull | VArr _ | VObj _ | VElem _ => "object"
  | VBool _ => "boolean"
  | VNum _ => "number"
  | VStr _ => "string"
  | VFunc _ => "function"
  end.

(** [v === false], [v === true] and [v === undefined]. *)
Definition is_false (v : value) : bool :=
  match v with VBool false => true | _ => false end.

Definition is_true (v : value) : bool :=
  match v with VBool true => true | _ => false end.

Definition is_undefined (v : value) : bool :=
  match v with VUndefined => true | _ => false end.

(** [null] and [undefined]: reading a property of these throws. *)
Definition nullish (v : value) : bool :=
  match v with VUndefined | VNull => true | _ => false end.

(** [a || b] on values. *)
Definition or_else (a b : value) : value := if truthy a then a else b.

(** [s.substr(start, len)] and [s.substr(start)]. *)
Definition substr (start len : nat) (s : string) : string :=
  substring start len s.

Definition substr_from (start : nat) (s : string) : string :=
  substring start (String.length s - start) s.

(** [hay.includes(needle)]. *)
Definition includes (needle hay : string) : bool :=
  match index 0 needle hay with Some _ => true | None => false end.

(** The property key of an array index. *)
Definition index_key (i : nat) : string :=
  NilZero.string_of_uint (Nat.to_uint i).

Definition indexed {A : Type} (l : list A) : list (string * A) :=
  combine (map index_key (seq 0 (List.length l))) l.

(** The code units of a string, each as a one-unit string. *)
Fixpoint units (s : string) : list value :=
  match s with
  | EmptyString => []
  | String c rest => VStr (String c EmptyString) :: units rest
  end.

(** [Object.entries(v)]: [None] stands for the [TypeError] raised on
    [null] and [undefined].  A string enumerates its code units under
    their indices, an array its items. *)
Definition entries (v : value) : option (list (string * value)) :=
  match v with
  | VUndefined | VNull => None
  | VObj fields => Some fields
  | VArr items => Some (indexed items)
  | VStr s => Some (indexed (units s))
  | VBool _ | VNum _ | VFunc _ | VElem _ => Some []
  end.

(** [Object.keys(v)]. *)
Definition keys (v : value) : option (list string) :=
  option_map (map fst) (entries v).

(** Own-property lookup in a field list. *)
Fixpoint lookup (k : string) (fields : list (string * value)) : option value :=
  match fields with
  | [] => None
  | (k', v) :: rest => if k' =? k then Some v else lookup k rest
  end.

(** A key an assignment can create: every key but [__proto__], which on an
    object that does not own it reaches the setter of [Object.prototype]
    and creates no own property. *)
Definition creatable (k : string) : bool := negb (k =? "__proto__").

(** [obj[k] = v] on an ordinary object: overwrite an own field in place,
    or add the key as the last field when it can be created. *)
Fixpoint set_field (k : string) (v : value) (fields : list (string * value))
  : list (string * value) :=
  match fields with
  | [] => if creatable k then [(k, v)] else []
  | (k', v') :: rest =>
      if k' =? k then (k, v) :: rest else (k', v') :: set_field k v rest
  end.

Definition set_fields (target src : list (string * value)) : list (string * value) :=
  fold_left (fun acc kv => set_field (fst kv) (snd kv) acc) src target.

(** [Object.assign({}, a, b)]: the enumerable own fields of [a], then those
    of [b], later ones winning.  [null] and [undefined] sources are
    skipped, and a source key [__proto__] is assigned through the setter:
    it gives the target no own field (what it does to the properties the
    target inherits is left to the environment's [inherited]). *)
Definition assign2 (a b : value) : list (string * value) :=
  let fields_of v := match entries v with Some fs => fs | None => [] end in
  set_fields (set_fields [] (fields_of a)) (fields_of b).

(** Own data property [v[k]] of a value, when it has one: the fields of an
    object; the indices and [length] of strings and arrays. *)
Definition own_property (v : value) (k : string) : option value :=
  match v with
  | VObj fields => lookup k fields
  | VStr s =>
      if k =? "length" then Some (VNum (Z.of_nat (String.length s)))
      else lookup k (indexed (units s))
  | VArr items =>
      if k =? "length" then Some (VNum (Z.of_nat (List.length items)))
      else lookup k (indexed items)
  | _ => None
  end.

(** The double quote, as a one-unit string. *)
Definition dquote : string := String (ascii_of_nat 34) EmptyString.

(** [list.join(sep)] on strings. *)
Fixpoint join (sep : string) (l : list string) : string :=
  match l with
  | [] => ""
  | [x] => x
  | x :: rest => x ++ sep ++ join sep rest
  end.

End Js.

(* ===================================================================== *)
(** ** Regular expressions *)
(* ===================================================================== *)

Module Regex.

(** The fragment needed for [/^(?:\w+\:{2})?on*/]: literals, the class
    [\w], sequencing, alternation and iteration.  [Any] is one arbitrary
    code unit and serves for the unanchored end of a pattern. *)
Inductive re : Type :=
| Void
| Eps
| Lit (c : ascii)
| Word
| Any
| Seq (r1 r2 : re)
| Alt (r1 r2 : re)
| Star (r : re).

(** [\w] is [[A-Za-z0-9_]]. *)
Definition is_word (c : ascii) : bool :=
  let n := nat_of_ascii c in
  (((48 <=? n) && (n <=? 57)) || ((65 <=? n) && (n <=? 90))
   || (n =? 95) || ((97 <=? n) && (n <=? 122)))%nat.

Definition opt (r : re) : re := Alt r Eps.
Definition plus (r : re) : re := Seq r (Star r).

Fixpoint nullable (r : re) : bool :=
  match r with
  | Void | Lit _ | Word | Any => false
  | Eps | Star _ => true
  | Seq r1 r2 => nullable r1 && nullable r2
  | Alt r1 r2 => nullable r1 || nullable r2
  end.

(** What remains of [r] to be matched once the code unit [c] is read. *)
Fixpoint after (c : ascii) (r : re) : re :=
  match r with
  | Void | Eps => Void
  | Lit c' => if Ascii.eqb c' c then Eps else Void
  | Word => if is_word c then Eps else Void
  | Any => Eps
  | Seq r1 r2 =>
      if nullable r1
      then Alt (Seq (after c r1) r2) (after c r2)
      else Seq (after c r1) r2
  | Alt r1 r2 => Alt (after c r1) (after c r2)
  | Star r1 => Seq (after c r1) (Star r1)
  end.

(** [r] matches the whole of [s]. *)
Fixpoint accepts (r : re) (s : string) : bool :=
  match s with
  | EmptyString => nullable r
  | String c rest => accepts (after c r) rest
  end.

(** [/^r/.test(s)]: [r] matches a prefix of [s]. *)
Definition test_prefix (r : re) (s : string) : bool :=
  accepts (Seq r (Star Any)) s.

(** The declarative reading of a pattern. *)
Inductive matches : re -> string -> Prop :=
| M_eps : matches Eps ""
| M_lit c : matches (Lit c) (String c "")
| M_word c : is_word c = true -> matches Word (String c "")
| M_any c : matches Any (String c "")
| M_seq r1 r2 s1 s2 :
    matches r1 s1 -> matches r2 s2 -> matches (Seq r1 r2) (s1 ++ s2)
| M_alt_l r1 r2 s : matches r1 s -> matches (Alt r1 r2) s
| M_alt_r r1 r2 s : matches r2 s -> matches (Alt r1 r2) s
| M_star_nil r : matches (Star r) ""
| M_star_more r s1 s2 :
    matches r s1 -> matches (Star r) s2 -> matches (Star r) (s1 ++ s2).

End Regex.

(* ===================================================================== *)
(** ** The XSRF cookie *)
(* ===================================================================== *)

Module Cookie.
Import Js.

(** The code units [String.prototype.trim] removes, among those below 256:
    tab, line feed, vertical tab, form feed, carriage return, space and
    the no-break space. *)
Definition is_space (c : ascii) : bool :=
  let n := nat_of_ascii c in
  (((9 <=? n) && (n <=? 13)) || (n =? 32) || (n =? 160))%nat.

Fixpoint trim_start (s : string) : string :=
  match s with
  | EmptyString => EmptyString
  | String c rest => if is_space c then trim_start rest else s
  end.

Fixpoint trim_end (s : string) : string :=
  match s with
  | EmptyString => EmptyString
  | String c rest =>
      match trim_end rest with
      | EmptyString => if is_space c then EmptyString else String c EmptyString
      | kept => String c kept
      end
  end.

(** [s.trim()]. *)
Definition trim (s : string) : string := trim_end (trim_start s).

(** [s.split(sep)] for a separator of one code unit. *)
Fixpoint split (sep : ascii) (s : string) : list string :=
  match s with
  | EmptyString => [EmptyString]
  | String c rest =>
      if Ascii.eqb c sep then EmptyString :: split sep rest
      else match split sep rest with
           | piece :: pieces => String c piece :: pieces
           | [] => [String c EmptyString]
           end
  end.

Section Scan.
(** [decodeURIComponent]: [None] is the [URIError] it throws on a
    malformed escape. *)
Variable decodeURIComponent : string -> option string.

(** The [for] loop of the [xsrfToken] getter over the pieces of
    [document.cookie]: the first piece that, trimmed, starts with
    [XSRF-TOKEN=] gives the value and ends the loop. *)
Fixpoint scan (cookies : list string) : option value :=
  match cookies with
  | [] => Some VNull
  | piece :: rest =>
      let cookie := trim piece in
      if substring 0 11 cookie =? "XSRF-TOKEN" ++ "="
      then option_map VStr (decodeURIComponent (substr_from 11 cookie))
      else scan rest
  end.

(** The [xsrfToken] getter as a function of [document.cookie]; [None] is
    the [URIError] of [decodeURIComponent]. *)
Definition xsrfToken (document_cookie : string) : option value :=
  if truthy (VStr document_cookie) && negb (document_cookie =? "")
  then scan (split ";" document_cookie)
  else Some VNull.

End Scan.

(** A string without the code unit [c]. *)
Definition free_of (c : ascii) (s : string) : Prop :=
  ~ In c (list_ascii_of_string s).

End Cookie.

(* ===================================================================== *)
(** ** The Request class *)
(* ===================================================================== *)

Module Request.
Import Js.

(** *** Data *)

(** The [options] bag.  A key that is not given reads as [undefined]; the
    constructor's [options || {}] is [no_options]. *)
Record options : Type := {
  opt_url : value;
  opt_update : value;
  opt_confirm : value;
  opt_redirect : value;
  opt_flash : value;
  opt_files : value;
  opt_data : value;
  opt_browserValidate : value;
  opt_form : value;
  opt_loading : value;
  opt_beforeUpdate : value;
  opt_handleConfirmMessage : value;
  opt_handleRedirectResponse : value;
  opt_handleErrorMessage : value;
  opt_handleFlashMessages : value;
  opt_handleValidationErrors : value
}.

Definition no_options : options :=
  {| opt_url := VUndefined; opt_update := VUndefined; opt_confirm := VUndefined;
     opt_redirect := VUndefined; opt_flash := VUndefined; opt_files := VUndefined;
     opt_data := VUndefined; opt_browserValidate := VUndefined;
     opt_form := VUndefined; opt_loading := VUndefined;
     opt_beforeUpdate := VUndefined; opt_handleConfirmMessage := VUndefined;
     opt_handleRedirectResponse := VUndefined;
     opt_handleErrorMessage := VUndefined;
     opt_handleFlashMessages := VUndefined;
     opt_handleValidationErrors := VUndefined |}.

(** The bag written as an object literal: [options_of [("flash", VBool true)]]
    is [{flash: true}]. *)
Definition options_of (fields : list (string * value)) : options :=
  let get k := match lookup k fields with Some v => v | None => VUndefined end in
  {| opt_url := get "url"; opt_update := get "update";
     opt_confirm := get "confirm"; opt_redirect := get "redirect";
     opt_flash := get "flash"; opt_files := get "files";
     opt_data := get "data"; opt_browserValidate := get "browserValidate";
     opt_form := get "form"; opt_loading := get "loading";
     opt_beforeUpdate := get "beforeUpdate";
     opt_handleConfirmMessage := get "handleConfirmMessage";
     opt_handleRedirectResponse := get "handleRedirectResponse";
     opt_handleErrorMessage := get "handleErrorMessage";
     opt_handleFlashMessages := get "handleFlashMessages";
     opt_handleValidationErrors := get "handleValidationErrors" |}.

(** The fields the constructor stores on [this]. *)
Record request : Type := {
  element : value;
  handler : value;
  opts : options
}.

(** A JavaScript [Error], as built by [renderError] or raised by the
    engine ([err_name] is the constructor's name). *)
Record error : Type := {
  err_name : string;
  err_message : string;
  err_exception : value;
  err_file : value;
  err_line : value;
  err_trace : value
}.

(** An argument handed to a hook or recorded for a method call. *)
Inductive arg : Type :=
| AThis (r : request)
| AVal (v : value)
| AErr (e : error).

(** The state of a promise once the event loop is idle. *)
Inductive promise (A R : Type) : Type :=
| Fulfilled (a : A)
| Rejected (r : R)
| Pending.
Arguments Fulfilled {A R} a.
Arguments Rejected {A R} r.
Arguments Pending {A R}.

(** The [body] handed to [fetch].  [Request.js] only ever builds a
    [FormData] (sent as multipart form data); [UrlEncoded] is the other
    body kind [fetch] accepts for key/value pairs. *)
Inductive body : Type :=
| FormData (fields : list (string * value))
| UrlEncoded (pairs : list (string * value)).

Definition is_multipart (b : body) : bool :=
  match b with FormData _ => true | UrlEncoded _ => false end.

Record fetch_request : Type := {
  fr_url : value;
  fr_method : string;
  fr_headers : list (string * value);
  fr_body : body;
  fr_redirect : string;
  fr_mode : string
}.

(** What the class reads of a [fetch] response: [rs_json] and [rs_text]
    are the outcomes of [response.json()] and [response.text()], a left
    value being the reason of a rejection rendered as text. *)
Record response : Type := {
  rs_status : Z;
  rs_content_type : option string;
  rs_json : string + value;
  rs_text : string + string
}.

Inductive fetch_result : Type :=
| NetworkError (reason : string)
| Responded (r : response)
| NoAnswer.

(** The three merge modes of a partial update. *)
Inductive mode : Type := Replace | Append | Prepend.

(** What a run leaves behind, in order: the calls of the methods of the
    promise chain ([doConfirm], [doAjax], [processUpdate], [doUpdate] and
    the [process...] dispatchers) and the effects on the outside.  An
    [innerHTML] assignment is recorded with the partial it is made for. *)
Inductive event : Type :=
| ECall (method : string) (args : list arg)
| ECallback (option_name : string) (args : list value)
| EGlobalEvent (name : string) (args : list arg)
| EGlobalPromiseEvent (name : string) (args : list arg)
| EReportValidity (form : value)
| EConfirm (message : value)
| EAlert (message : value)
| EConsoleLog (v : value)
| EConsoleWarn (text : string)
| EFetch (req : fetch_request)
| ESetInnerHTML (partial : string) (el : nat) (html : string)
| EAnimationFrame
| EListenPopstate
| ELocationAssign (url : value).

(** *** The environment

    Everything the class consumes from outside [Request.js]: the document,
    the sanitizer, the hook bus of the [Winter] container, the callbacks
    stored in [options], the browser primitives and the network.  Hooks and
    callbacks are observed through the value they return. *)
Class Env : Type := {
  Dom : Type;
  (** [document.querySelectorAll(selector)]; [None] is the [SyntaxError]
      raised on an invalid selector. *)
  querySelectorAll : Dom -> string -> option (list nat);
  innerHTML : Dom -> nat -> string;
  set_innerHTML : Dom -> nat -> string -> Dom;
  (** [this.winter.sanitizer().sanitize(content)]. *)
  sanitize : value -> string;
  (** [options.<cb>.apply(this, args)] for the callback handle [f]. *)
  callback : nat -> request -> list value -> value;
  (** [this.winter.globalEvent(name, ...args)]: [false] means cancelled. *)
  globalEvent : string -> list arg -> bool;
  (** [this.winter.globalPromiseEvent(name, ...args)]. *)
  globalPromiseEvent : string -> list arg -> promise value unit;
  (** [this.winter.listensToEvent(name).length]. *)
  listensToEvent : string -> nat;
  (** [confirm(message)]. *)
  window_confirm : value -> bool;
  (** [element.closest('form')]: an element or [null]. *)
  closest_form : nat -> value;
  (** [form.checkValidity()]. *)
  checkValidity : value -> bool;
  fetch : fetch_request -> fetch_result;
  (** [window.location.href]. *)
  location_href : string;
  (** [document.cookie]. *)
  document_cookie : string;
  (** [decodeURIComponent]: [None] is the [URIError] it throws on a
      malformed escape sequence, with the message [uri_error_message]. *)
  decodeURIComponent : string -> option string;
  uri_error_message : string;
  (** [typeof FormData]. *)
  typeof_FormData : string;
  (** What [v[k]] yields through the prototype chain when [k] is not an
      own property of [v]. *)
  inherited : value -> string -> value;
  (** ToString. *)
  to_string : value -> string
}.

Section Model.
Context {E : Env}.

(** The document together with the trace of what has happened so far. *)
Record world : Type := {
  dom : Dom;
  trace : list event
}.

(** A computation that reads and extends the world. *)
Definition M (A : Type) : Type := world -> A * world.

Definition ret {A : Type} (a : A) : M A := fun w => (a, w).

Definition bind {A B : Type} (c : M A) (k : A -> M B) : M B :=
  fun w => let (a, w') := c w in k a w'.

Definition emit (ev : event) : M unit :=
  fun w => (tt, {| dom := dom w; trace := trace w ++ [ev] |}).

Definition write_html (partial : string) (el : nat) (html : string) : M unit :=
  fun w => (tt, {| dom := set_innerHTML (dom w) el html;
                   trace := trace w ++ [ESetInnerHTML partial el html] |}).

Definition read_dom : M Dom := fun w => (dom w, w).

End Model.

Notation "x <- c ;; k" := (bind c (fun x => k))
  (at level 61, c at next level, right associativity).
Notation "c ;; k" := (bind c (fun _ => k))
  (at level 61, right associativity).

Section Methods.
Context {E : Env}.

(** *** Helpers *)

(** [v[k]]: [None] is the [TypeError] raised on [null] and [undefined]. *)
Definition get_prop (v : value) (k : string) : option value :=
  match v with
  | VUndefined | VNull => None
  | _ => Some (match own_property v k with
               | Some x => x
               | None => inherited v k
               end)
  end.

(** [v.k] where [v] is known not to be nullish. *)
Definition field (v : value) (k : string) : value :=
  match get_prop v k with Some x => x | None => VUndefined end.

(** [new Error(message)] and the errors of the engine. *)
Definition new_error (name message : string) : error :=
  {| err_name := name; err_message := message; err_exception := VUndefined;
     err_file := VUndefined; err_line := VUndefined; err_trace := VUndefined |}.

Definition type_error (what : string) : error := new_error "TypeError" what.

(** The message [new Error(message)] stores. *)
Definition error_message (message : value) : string :=
  match message with
  | VUndefined => ""
  | VStr s => s
  | other => to_string other
  end.

Definition renderError (message exception file line trace : value) : error :=
  {| err_name := "Error";
     err_message := error_message message;
     err_exception := or_else exception VNull;
     err_file := or_else file VNull;
     err_line := or_else line VNull;
     err_trace := or_else trace (VArr []) |}.

Definition renderError1 (message : string) : error :=
  renderError (VStr message) VUndefined VUndefined VUndefined VUndefined.

(** *** checkRequest *)

(** [/^(?:\w+\:{2})?on*/]. *)
Definition handler_pattern : Regex.re :=
  Regex.Seq
    (Regex.opt (Regex.Seq (Regex.plus Regex.Word)
                          (Regex.Seq (Regex.Lit ":") (Regex.Lit ":"))))
    (Regex.Seq (Regex.Lit "o") (Regex.Star (Regex.Lit "n"))).

Definition instanceof_Element (v : value) : bool :=
  match v with VElem _ => true | _ => false end.

(** The error [checkRequest] throws, if any.  Reading [match] on a [null]
    handler throws; any other handler that is neither [undefined] nor a
    string has no [match] method to call. *)
Definition checkRequest (r : request) : option error :=
  if negb (is_undefined (element r)) && negb (instanceof_Element (element r))
  then Some (new_error "Error" "The element provided must be an Element instance")
  else if is_undefined (handler r)
  then Some (new_error "Error" "The AJAX handler name is not specified.")
  else match handler r with
       | VStr name =>
           if negb (Regex.test_prefix handler_pattern name)
           then Some (new_error "Error"
             ("Invalid AJAX handler name. The correct handler name format is: "
              ++ dquote ++ "onEvent" ++ dquote ++ "."))
           else None
       | VNull =>
           Some (type_error "Cannot read properties of null (reading 'match')")
       | _ => Some (type_error "this.handler.match is not a function")
       end.

(** *** Getters *)

Definition form (r : request) : value :=
  if truthy (opt_form (opts r)) then opt_form (opts r)
  else if negb (truthy (element r)) then VNull
  else match element r with
       | VElem e => closest_form e
       | _ => VNull
       end.

Definition loading (r : request) : value := or_else (opt_loading (opts r)) (VBool false).

Definition url (r : request) : value := or_else (opt_url (opts r)) (VStr location_href).

Definition redirect (r : request) : value :=
  if truthy (opt_redirect (opts r)) && truthy (field (opt_redirect (opts r)) "length")
  then opt_redirect (opts r)
  else VNull.

Definition flash (r : request) : value := or_else (opt_flash (opts r)) (VBool false).

Definition confirm (r : request) : value := or_else (opt_confirm (opts r)) (VBool false).

(** The [files] getter.  Its inner test compares the string [typeof FormData]
    with the value [undefined]. *)
Definition files (r : request) : M bool :=
  if is_true (opt_files (opts r)) then
    if is_undefined (VStr typeof_FormData) then
      emit (EConsoleWarn "This browser does not support file uploads");;
      ret false
    else ret true
  else ret false.

(** The [xsrfToken] getter on the document's cookie string: [None] is the
    [URIError] thrown by [decodeURIComponent]. *)
Definition xsrfToken : option value :=
  Cookie.xsrfToken decodeURIComponent document_cookie.

Definition uri_error : error := new_error "URIError" uri_error_message.

Definition extractPartials (update : value) : string :=
  match keys update with
  | Some ks => join "&" ks
  | None => ""
  end.

(** The [headers] getter.  It reads the [xsrfToken] getter (twice, with
    the same outcome) and throws what that getter throws. *)
Definition headers (r : request) : error + list (string * value) :=
  let headers : list (string * value) :=
    ([ ("X-Requested-With", VStr "XMLHttpRequest");
       ("X-WINTER-REQUEST-HANDLER", handler r);
       ("X-WINTER-REQUEST-PARTIALS",
        VStr (extractPartials (or_else (opt_update (opts r)) (VArr [])))) ]
     ++ (if truthy (flash r) then [("X-WINTER-REQUEST-FLASH", VNum 1)] else []))%list in
  match xsrfToken with
  | None => inl uri_error
  | Some token =>
      inr (headers ++ (if truthy token then [("X-XSRF-TOKEN", token)] else []))%list
  end.

(** The [data] getter: the request body.  [None] is the [TypeError] of
    [Object.keys(null)]. *)
Definition data (r : request) : M (option body) :=
  let data := if typeof (opt_data (opts r)) =? "object"
              then opt_data (opts r) else VObj [] in
  emit (EConsoleLog data);;
  match keys data, entries data with
  | Some ks, Some fields =>
      if (0 <? List.length ks)%nat
      then ret (Some (FormData (fold_left (fun fd kv => (fd ++ [kv])%list) fields [])))
      else ret (Some (FormData []))
  | _, _ => ret None
  end.

(** *** doClientValidation *)

Definition doClientValidation (r : request) : M bool :=
  if is_true (opt_browserValidate (opts r)) && truthy (form r) then
    if negb (checkValidity (form r)) then
      emit (EReportValidity (form r));;
      ret false
    else ret true
  else ret true.

(** *** doAjax *)

Definition response_ok (rs : response) : bool :=
  ((200 <=? rs_status rs) && (rs_status rs <=? 299))%Z.

Definition is_json (rs : response) : bool :=
  match rs_content_type rs with
  | Some content_type => includes "/json" content_type
  | None => false
  end.

(** The handler of [fetch(...).then]: how a response settles the promise
    of [doAjax].  An exception inside a nested [then] handler leaves that
    promise pending. *)
Definition settle_response (rs : response) : promise value error :=
  if negb (response_ok rs) && negb (rs_status rs =? 406)%Z then
    if is_json rs then
      match rs_json rs with
      | inr responseData =>
          match get_prop responseData "message" with
          | Some message =>
              Rejected (renderError message
                          (field responseData "exception")
                          (field responseData "file")
                          (field responseData "line")
                          (field responseData "trace"))
          | None => Pending
          end
      | inl error =>
          Rejected (renderError1 ("Unable to parse JSON response: " ++ error))
      end
    else
      match rs_text rs with
      | inr responseText => Rejected (renderError1 responseText)
      | inl error =>
          Rejected (renderError1 ("Unable to process response: " ++ error))
      end
  else
    if is_json rs then
      match rs_json rs with
      | inr responseData =>
          Fulfilled (VObj (assign2 responseData
            (VObj [ ("X_WINTER_SUCCESS", VBool (negb (rs_status rs =? 406)%Z));
                    ("X_WINTER_RESPONSE_CODE", VNum (rs_status rs)) ])))
      | inl error =>
          Rejected (renderError1 ("Unable to parse JSON response: " ++ error))
      end
    else
      match rs_text rs with
      | inr responseData => Fulfilled (VStr responseData)
      | inl error =>
          Rejected (renderError1 ("Unable to process response: " ++ error))
      end.

(** [doAjax()].  The arguments of [fetch] are evaluated in the order they
    are written: the URL, the headers, the body; what a getter throws
    inside the executor rejects the promise, and [fetch] is not called. *)
Definition doAjax (r : request) : M (promise value error) :=
  emit (ECall "doAjax" []);;
  let the_url := url r in
  match headers r with
  | inl thrown_error => ret (Rejected thrown_error)
  | inr the_headers =>
      body <- data r;;
      match body with
      | None => ret (Rejected (type_error "Cannot convert undefined or null to object"))
      | Some b =>
          let req := {| fr_url := the_url; fr_method := "POST";
                        fr_headers := the_headers; fr_body := b;
                        fr_redirect := "follow"; fr_mode := "same-origin" |} in
          emit (EFetch req);;
          match fetch req with
          | NetworkError responseError =>
              ret (Rejected (renderError1
                ("Unable to retrieve a response from the server: " ++ responseError)))
          | Responded rs => ret (settle_response rs)
          | NoAnswer => ret Pending
          end
      end
  end.

(** *** doUpdate *)

(** The selector and mode of one partial; [None] when evaluating them
    throws ([options.update] is nullish, or the selector found there is
    not a string and has no [substr]). *)
Definition resolve_selector (r : request) (partial : string) : option (mode * string) :=
  match get_prop (opt_update (opts r)) partial with
  | None => None
  | Some mapped =>
      match (if truthy mapped then mapped else VStr partial) with
      | VStr selector =>
          if substr 0 1 selector =? "@" then Some (Append, substr_from 1 selector)
          else if substr 0 1 selector =? "^" then Some (Prepend, substr_from 1 selector)
          else Some (Replace, selector)
      | _ => None
      end
  end.

(** The [switch (mode)] on one element. *)
Definition merge (m : mode) (current fresh : string) : string :=
  match m with
  | Replace => fresh
  | Append => current ++ fresh
  | Prepend => fresh ++ current
  end.

(** [elements.forEach(...)]. *)
Fixpoint update_elements (partial : string) (m : mode) (content : value)
    (elements : list nat) : M unit :=
  match elements with
  | [] => ret tt
  | el :: rest =>
      d <- read_dom;;
      write_html partial el (merge m (innerHTML d el) (sanitize content));;
      update_elements partial m content rest
  end.

(** One iteration of the loop of [doUpdate], up to its [resolve()]:
    [false] when the iteration throws. *)
Definition update_partial (r : request) (p : string * value) : M bool :=
  match resolve_selector r (fst p) with
  | None => ret false
  | Some (m, selector) =>
      d <- read_dom;;
      match querySelectorAll d selector with
      | None => ret false
      | Some elements =>
          (if (0 <? List.length elements)%nat
           then update_elements (fst p) m (snd p) elements
           else ret tt);;
          ret true
      end
  end.

(** [resolve()] and a throw inside the executor act on a pending promise
    only. *)
Definition resolved (st : promise unit unit) : promise unit unit :=
  match st with Pending => Fulfilled tt | settled => settled end.

Definition thrown (st : promise unit unit) : promise unit unit :=
  match st with Pending => Rejected tt | settled => settled end.

(** The [for ... of Object.entries(partials)] loop; [st] is the state of
    the promise under construction.  A throw ends the loop. *)
Fixpoint doUpdate_loop (r : request) (partials : list (string * value))
    (st : promise unit unit) : M (promise unit unit) :=
  match partials with
  | [] => ret st
  | p :: rest =>
      completed <- update_partial r p;;
      if completed then doUpdate_loop r rest (resolved st)
      else ret (thrown st)
  end.

Definition doUpdate (r : request) (partials : list (string * value))
  : M (promise unit unit) :=
  emit (ECall "doUpdate" [AVal (VObj partials)]);;
  doUpdate_loop r partials Pending.

(** *** processUpdate *)

(** The [partials] object built from the entries of the response, by
    [partials[key] = value]: a key [__proto__] reaches the prototype setter
    and leaves the object without a field of that name. *)
Definition partials_of (fields : list (string * value)) : list (string * value) :=
  fold_left
    (fun partials kv =>
       if negb (substr 0 8 (fst kv) =? "X_WINTER")
       then set_field (fst kv) (snd kv) partials
       else partials)
    fields [].

Definition processUpdate (r : request) (response : value) : M (promise unit unit) :=
  emit (ECall "processUpdate" [AVal response]);;
  vetoed <- match opt_beforeUpdate (opts r) with
            | VFunc f =>
                emit (ECallback "beforeUpdate" [response]);;
                ret (is_false (callback f r [response]))
            | _ => ret false
            end;;
  if vetoed then ret (Rejected tt)
  else
    match entries response with
    | None => ret (Rejected tt)
    | Some fields =>
        let partials := partials_of fields in
        if (List.length (map fst partials) =? 0)%nat then ret (Fulfilled tt)
        else
          emit (EGlobalPromiseEvent "ajaxBeforeUpdate" [AThis r; AVal response]);;
          match globalPromiseEvent "ajaxBeforeUpdate" [AThis r; AVal response] with
          | Fulfilled _ =>
              updated <- doUpdate r partials;;
              match updated with
              | Fulfilled _ => emit EAnimationFrame;; ret (Fulfilled tt)
              | Rejected _ => ret (Rejected tt)
              | Pending => ret Pending
              end
          | Rejected _ => ret (Rejected tt)
          | Pending => ret Pending
          end
    end.

(** *** Outcome dispatch *)

(** [processRedirect(url)]. *)
Definition processRedirect (r : request) (url : value) : M unit :=
  emit (ECall "processRedirect" [AVal url]);;
  vetoed <- match opt_handleRedirectResponse (opts r) with
            | VFunc f =>
                emit (ECallback "handleRedirectResponse" [url]);;
                ret (is_false (callback f r [url]))
            | _ => ret false
            end;;
  if vetoed then ret tt
  else
    emit (EGlobalEvent "ajaxRedirect" [AVal url]);;
    if negb (globalEvent "ajaxRedirect" [AVal url]) then ret tt
    else
      emit EListenPopstate;;
      emit (ELocationAssign url).

(** [processErrorMessage(message)]. *)
Definition processErrorMessage (r : request) (message : value) : M unit :=
  emit (ECall "processErrorMessage" [AVal message]);;
  vetoed <- match opt_handleErrorMessage (opts r) with
            | VFunc f =>
                emit (ECallback "handleErrorMessage" [message]);;
                ret (is_false (callback f r [message]))
            | _ => ret false
            end;;
  if vetoed then ret tt
  else
    emit (EGlobalEvent "ajaxErrorMessage" [AVal message]);;
    if negb (globalEvent "ajaxErrorMessage" [AVal message]) then ret tt
    else emit (EAlert message).

(** [processFlashMessages(messages)]. *)
Definition processFlashMessages (r : request) (messages : value) : M unit :=
  emit (ECall "processFlashMessages" [AVal messages]);;
  vetoed <- match opt_handleFlashMessages (opts r) with
            | VFunc f =>
                emit (ECallback "handleFlashMessages" [messages]);;
                ret (is_false (callback f r [messages]))
            | _ => ret false
            end;;
  if vetoed then ret tt
  else
    emit (EGlobalEvent "ajaxFlashMessages" [AVal messages]);;
    if negb (globalEvent "ajaxFlashMessages" [AVal messages]) then ret tt
    else ret tt.

(** [processValidationErrors(fields)]. *)
Definition processValidationErrors (r : request) (fields : value) : M unit :=
  emit (ECall "processValidationErrors" [AVal fields]);;
  vetoed <- match opt_handleValidationErrors (opts r) with
            | VFunc f =>
                emit (ECallback "handleValidationErrors" [form r; fields]);;
                ret (is_false (callback f r [form r; fields]))
            | _ => ret false
            end;;
  if vetoed then ret tt
  else
    emit (EGlobalEvent "ajaxValidationErrors" [AVal (form r); AVal fields]);;
    if negb (globalEvent "ajaxValidationErrors" [AVal (form r); AVal fields])
    then ret tt
    else ret tt.

(** Modelled from the spec: [processAssets] is called by [processResponse]
    but is not a method of [Request.js]; the spec only says that an asset
    list on the payload makes the dispatcher "dispatch asset loading".  It
    is recorded as a call. *)
Definition processAssets (r : request) (assets : value) : M unit :=
  emit (ECall "processAssets" [AVal assets]).

(** [processResponse(response)]: the success dispatch.  On a nullish
    [response] the first property read throws. *)
Definition processResponse (r : request) (response : value) : M unit :=
  emit (ECall "processResponse" [AVal response]);;
  if nullish response then ret tt
  else if truthy (field response "X_WINTER_REDIRECT") || truthy (redirect r) then
    processRedirect r (or_else (field response "X_WINTER_REDIRECT") (redirect r))
  else
    (if truthy (flash r) && truthy (field response "X_WINTER_FLASH_MESSAGES")
     then processFlashMessages r (field response "X_WINTER_FLASH_MESSAGES")
     else ret tt);;
    (if truthy (field response "X_WINTER_ASSETS")
     then processAssets r (field response "X_WINTER_ASSETS")
     else ret tt).

(** [processError(error)]: the error dispatch, on an [Error] instance
    (left) or on a response object (right).  On a nullish response the
    first property read throws. *)
Definition processError (r : request) (error : error + value) : M unit :=
  emit (ECall "processError"
          [match error with inl e => AErr e | inr v => AVal v end]);;
  match error with
  | inl e => processErrorMessage r (VStr (err_message e))
  | inr response =>
      if nullish response then ret tt
      else
        (if truthy (field response "X_WINTER_ERROR_FIELDS")
         then processValidationErrors r (field response "X_WINTER_ERROR_FIELDS")
         else ret tt);;
        (if truthy (field response "X_WINTER_ERROR_MESSAGE")
         then processErrorMessage r (field response "X_WINTER_ERROR_MESSAGE")
         else ret tt)
  end.

(** *** doConfirm *)

Definition doConfirm (r : request) : M (promise bool unit) :=
  emit (ECall "doConfirm" []);;
  match opt_handleConfirmMessage (opts r) with
  | VFunc f =>
      emit (ECallback "handleConfirmMessage" [confirm r]);;
      if is_false (callback f r [confirm r])
      then ret (Fulfilled false)
      else ret (Fulfilled true)
  | _ =>
      if (listensToEvent "ajaxConfirmMessage" =? 0)%nat then
        emit (EConfirm (confirm r));;
        ret (Fulfilled (window_confirm (confirm r)))
      else
        emit (EGlobalPromiseEvent "ajaxConfirmMessage" [AThis r; AVal (confirm r)]);;
        match globalPromiseEvent "ajaxConfirmMessage" [AThis r; AVal (confirm r)] with
        | Fulfilled fulfilled => ret (Fulfilled (truthy fulfilled))
        | Rejected _ => ret (Fulfilled false)
        | Pending => ret Pending
        end
  end.

(** *** The constructor *)

(** The fulfilment handler of [doAjax().then]: the update phase, then the
    dispatch phase if the update promise is fulfilled.  (A nullish
    [response] never gets that far: [Object.entries] throws on it.) *)
Definition on_response (r : request) (response : value) : M unit :=
  updated <- processUpdate r response;;
  match updated with
  | Fulfilled _ =>
      if nullish response then ret tt
      else if is_false (field response "X_WINTER_SUCCESS")
      then processError r (inr response)
      else processResponse r response
  | _ => ret tt
  end.

(** [this.doAjax().then(...)], written twice in the constructor. *)
Definition send (r : request) : M unit :=
  outcome <- doAjax r;;
  match outcome with
  | Fulfilled response => on_response r response
  | Rejected error => processError r (inl error)
  | Pending => ret tt
  end.

(** The constructor from the confirmation test onwards. *)
Definition confirm_and_send (r : request) : M unit :=
  if truthy (confirm r) then
    answer <- doConfirm r;;
    match answer with
    | Fulfilled confirmed => if confirmed then send r else ret tt
    | _ => ret tt
    end
  else send r.

(** How a constructor call ends. *)
Inductive completion : Type :=
| Threw (e : error) (w : world)
| Returned (w : world).

Definition constructor (r : request) (w : world) : completion :=
  match checkRequest r with
  | Some e => Threw e w
  | None =>
      Returned (snd ((
        emit (EGlobalEvent "ajaxSetup" [AThis r]);;
        if negb (globalEvent "ajaxSetup" [AThis r]) then ret tt
        else
          valid <- doClientValidation r;;
          if negb valid then ret tt
          else confirm_and_send r) w))
  end.

End Methods.

End Request.

(* ===================================================================== *)
(** ** A concrete environment *)
(* ===================================================================== *)

Module Demo.
Import Js Request.

(** A flat document: every node has an id, the selector that matches it
    and its inner HTML.  The empty selector and selectors starting with a
    digit are invalid. *)
Definition flat_dom : Type := list (nat * (string * string)).

Definition valid_selector (selector : string) : bool :=
  match selector with
  | EmptyString => false
  | String c _ =>
      negb ((48 <=? nat_of_ascii c) && (nat_of_ascii c <=? 57))%nat
  end.

Definition select (d : flat_dom) (selector : string) : option (list nat) :=
  if valid_selector selector
  then Some (map fst (filter (fun node => fst (snd node) =? selector) d))
  else None.

Fixpoint inner (d : flat_dom) (el : nat) : string :=
  match d with
  | [] => ""
  | (id, (_, html)) :: rest => if (id =? el)%nat then html else inner rest el
  end.

Definition set_inner (d : flat_dom) (el : nat) (html : string) : flat_dom :=
  map (fun node => if (fst node =? el)%nat
                   then (fst node, (fst (snd node), html)) else node) d.

(** The callbacks of the examples: handle [0] answers [false], handle [1]
    answers [true], every other handle returns nothing. *)
Definition answers (f : nat) : value :=
  match f with
  | 0 => VBool false
  | 1 => VBool true
  | _ => VUndefined
  end.

(** An environment in which the hook [vetoed] (if any) cancels, no
    aggregated hook objects, [listeners] modules listen to each event and
    the server answers [reply]. *)
Definition env (vetoed : string) (listeners : nat) (reply : fetch_result) : Env :=
  {| Dom := flat_dom;
     querySelectorAll := select;
     innerHTML := inner;
     set_innerHTML := set_inner;
     sanitize := fun content => match content with VStr s => s | _ => "" end;
     callback := fun f _ _ => answers f;
     globalEvent := fun name _ => negb (name =? vetoed);
     globalPromiseEvent := fun _ _ => Fulfilled (VBool true);
     listensToEvent := fun _ => listeners;
     window_confirm := fun _ => true;
     closest_form := fun _ => VNull;
     checkValidity := fun _ => true;
     fetch := fun _ => reply;
     location_href := "https://example.test/page";
     document_cookie := "";
     decodeURIComponent := fun s => Some s;
     uri_error_message := "URI malformed";
     typeof_FormData := "function";
     inherited := fun _ _ => VUndefined;
     to_string := fun _ => "" |}.

(** A page with one [#result] container and one [<foo>] element. *)
Definition page : flat_dom :=
  [ (1, ("#result", "old")); (2, ("foo", "")) ].

Definition at_trace (E : Env) (d : Dom) (t : list event) : world :=
  {| dom := d; trace := t |}.

Definition start (E : Env) (d : Dom) : world := at_trace E d [].

(** The server replies of the examples. *)
Definition json_reply (status : Z) (payload : list (string * value)) : fetch_result :=
  Responded {| rs_status := status;
               rs_content_type := Some "application/json";
               rs_json := inr (VObj payload);
               rs_text := inl "body already read" |}.

Definition text_reply (status : Z) (text : string) : fetch_result :=
  Responded {| rs_status := status;
               rs_content_type := Some "text/html; charset=UTF-8";
               rs_json := inl "SyntaxError: Unexpected token <";
               rs_text := inr text |}.

Definition validation_failure : fetch_result :=
  json_reply 406
    [ ("foo", VStr "<p>hi</p>");
      ("X_WINTER_ERROR_FIELDS", VObj [("name", VArr [VStr "required"])]) ].

Definition redirect_reply : fetch_result :=
  json_reply 200 [ ("X_WINTER_REDIRECT", VStr "/done") ].

Definition on_save (o : list (string * value)) : request :=
  {| element := VUndefined; handler := VStr "onSave"; opts := options_of o |}.

(** A browser in which no hook cancels and nobody listens; the same with
    a server that answers the validation failure of the specification;
    one where a module listens and the server answers an empty page; and
    one where a module cancels every redirect. *)
Definition browser : Env := env "" 0 NoAnswer.
Definition failing : Env := env "" 0 validation_failure.
Definition listened : Env := env "" 1 (text_reply 200 "").
Definition guarded : Env := env "ajaxRedirect" 1 NoAnswer.
Definition plain_page : Env := env "" 0 (text_reply 200 "").

(** [plain_page] with the cookie string [cookie], in a browser whose
    [decodeURIComponent] refuses every string that holds a percent sign. *)
Definition with_cookie (cookie : string) : Env :=
  {| Dom := flat_dom;
     querySelectorAll := select;
     innerHTML := inner;
     set_innerHTML := set_inner;
     sanitize := fun content => match content with VStr s => s | _ => "" end;
     callback := fun f _ _ => answers f;
     globalEvent := fun _ _ => true;
     globalPromiseEvent := fun _ _ => Fulfilled (VBool true);
     listensToEvent := fun _ => 0;
     window_confirm := fun _ => true;
     closest_form := fun _ => VNull;
     checkValidity := fun _ => true;
     fetch := fun _ => text_reply 200 "";
     location_href := "https://example.test/page";
     document_cookie := cookie;
     decodeURIComponent := fun s => if includes "%" s then None else Some s;
     uri_error_message := "URI malformed";
     typeof_FormData := "function";
     inherited := fun _ _ => VUndefined;
     to_string := fun _ => "" |}.

Definition stale : Env := with_cookie "XSRF-TOKEN=%E0%A4%A".

(** The payload [doAjax] resolves with for [validation_failure]. *)
Definition failure_payload : value :=
  VObj [ ("foo", VStr "<p>hi</p>");
         ("X_WINTER_ERROR_FIELDS", VObj [("name", VArr [VStr "required"])]);
         ("X_WINTER_SUCCESS", VBool false);
         ("X_WINTER_RESPONSE_CODE", VNum 406) ].

Definition failure_response : response :=
  {| rs_status := 406;
     rs_content_type := Some "application/json";
     rs_json := inr (VObj [ ("foo", VStr "<p>hi</p>");
                            ("X_WINTER_ERROR_FIELDS",
                             VObj [("name", VArr [VStr "required"])]) ]);
     rs_text := inl "body already read" |}.

Definition into_result : request :=
  on_save [("update", VObj [("foo", VStr "#result")])].

End Demo.

(* ===================================================================== *)
(** ** The wording of the specification *)
(* ===================================================================== *)

Module Spec.

(** The handler-name format [[namespace::]on<Name>] as the specification
    words it: the letters [on] followed by a name, optionally preceded by
    a namespace (a non-empty run of word characters) and [::]. *)
Definition word (s : string) : Prop :=
  s <> "" /\ Forall (fun c => Regex.is_word c = true) (list_ascii_of_string s).

Definition handler_format (s : string) : Prop :=
  (exists name, s = "on" ++ name)
  \/ (exists namespace name, word namespace /\ s = namespace ++ "::on" ++ name).

End Spec.

(* ===================================================================== *)
(** ** What is observed of a run *)
(* ===================================================================== *)

Module Observe.
Import Js Request.

Section Observations.
Context {E : Env}.

(** [adds P c]: whatever the world, [c] only appends events, and all of
    them satisfy [P]. *)
Definition adds {A : Type} (P : event -> Prop) (c : M A) : Prop :=
  forall w, exists t, trace (snd (c w)) = (trace w ++ t)%list /\ Forall P t.

(** The world a constructor call leaves behind. *)
Definition world_of (c : completion) : world :=
  match c with Threw _ w | Returned w => w end.

(** The error thrown for a target that is not an element. *)
Definition element_error : error :=
  new_error "Error" "The element provided must be an Element instance".

(** An entry whose key does not start with the side-channel marker. *)
Definition plain (kv : string * value) : bool :=
  negb (substr 0 8 (fst kv) =? "X_WINTER").

(** An entry that becomes a partial: its key is plain and an assignment
    can create it. *)
Definition partial_entry (kv : string * value) : bool :=
  plain kv && creatable (fst kv).

(** The events of the [innerHTML] assignments [ws] made for [partial]. *)
Definition writes (partial : string) (ws : list (nat * string)) : list event :=
  map (fun a => ESetInnerHTML partial (fst a) (snd a)) ws.

(** The document after the assignments [ws], made in turn. *)
Definition replay (d : Dom) (ws : list (nat * string)) : Dom :=
  fold_left (fun d' a => set_innerHTML d' (fst a) (snd a)) ws d.

(** Each assignment of [ws], made in turn from the document [d], gives its
    element what the element holds at that moment merged with [fresh]. *)
Fixpoint merged (m : mode) (fresh : string) (d : Dom) (ws : list (nat * string))
  : Prop :=
  match ws with
  | [] => True
  | a :: rest =>
      snd a = merge m (innerHTML d (fst a)) fresh
      /\ merged m fresh (set_innerHTML d (fst a) (snd a)) rest
  end.


(** What [processUpdate] may add to the trace. *)
Definition update_event (response : value) (ev : event) : Prop :=
  match ev with
  | ECall method _ => method = "processUpdate" \/ method = "doUpdate"
  | ECallback name _ => name = "beforeUpdate"
  | EGlobalPromiseEvent name _ => name = "ajaxBeforeUpdate"
  | ESetInnerHTML partial _ _ =>
      substr 0 8 partial <> "X_WINTER"
      /\ exists fields, entries response = Some fields
                        /\ In partial (map fst (partials_of fields))
  | EAnimationFrame => True
  | _ => False
  end.

(** What the error dispatch and the success dispatch may add to the trace. *)
Definition error_event (ev : event) : Prop :=
  match ev with
  | ECall method _ =>
      method = "processError" \/ method = "processValidationErrors"
      \/ method = "processErrorMessage"
  | ECallback name _ => name = "handleValidationErrors" \/ name = "handleErrorMessage"
  | EGlobalEvent name _ => name = "ajaxValidationErrors" \/ name = "ajaxErrorMessage"
  | EAlert _ => True
  | _ => False
  end.

Definition success_event (ev : event) : Prop :=
  match ev with
  | ECall method _ =>
      method = "processResponse" \/ method = "processRedirect"
      \/ method = "processFlashMessages" \/ method = "processAssets"
  | ECallback name _ => name = "handleRedirectResponse" \/ name = "handleFlashMessages"
  | EGlobalEvent name _ => name = "ajaxRedirect" \/ name = "ajaxFlashMessages"
  | EListenPopstate | ELocationAssign _ => True
  | _ => False
  end.

(** The URLs handed to [window.location.assign], in order. *)
Definition navigations (t : list event) : list value :=
  flat_map (fun ev => match ev with ELocationAssign url => [url] | _ => [] end) t.

(** Anything that belongs to flash-message or asset handling. *)
Definition flash_or_asset (ev : event) : bool :=
  match ev with
  | ECall method _ => (method =? "processFlashMessages") || (method =? "processAssets")
  | ECallback name _ => name =? "handleFlashMessages"
  | EGlobalEvent name _ => name =? "ajaxFlashMessages"
  | _ => false
  end.

(** The redirect is cancelled by the callback or by the global hook. *)
Definition redirect_vetoed (r : request) (url : value) : bool :=
  match opt_handleRedirectResponse (opts r) with
  | VFunc f => is_false (callback f r [url])
  | _ => false
  end
  || negb (globalEvent "ajaxRedirect" [AVal url]).

Definition is_fetch (ev : event) : bool :=
  match ev with EFetch _ => true | _ => false end.

(** The number of network calls in a trace. *)
Definition fetches (t : list event) : nat := List.length (filter is_fetch t).

(** The browser's [confirm] and the global confirmation hook. *)
Definition confirm_machinery (ev : event) : bool :=
  match ev with
  | EConfirm _ => true
  | EGlobalPromiseEvent name _ => name =? "ajaxConfirmMessage"
  | _ => false
  end.

(** The arguments of [fetch] can be evaluated: the XSRF cookie can be
    decoded and [options.data] is not [null]. *)
Definition can_send (r : request) : bool :=
  match xsrfToken, opt_data (opts r) with
  | Some _, VNull => false
  | Some _, _ => true
  | None, _ => false
  end.

(** Neither a network call nor part of the confirmation machinery. *)
Definition quiet (ev : event) : Prop :=
  is_fetch ev = false /\ confirm_machinery ev = false.

(** An update or a validation report took place. *)
Definition update_or_report (ev : event) : bool :=
  match ev with
  | ECall method _ => (method =? "doUpdate") || (method =? "processValidationErrors")
  | ESetInnerHTML _ _ _ => true
  | _ => false
  end.

(** The request [r] with [options.files] set to [v]. *)
Definition set_files (r : request) (v : value) : request :=
  {| element := element r; handler := handler r;
     opts := {| opt_url := opt_url (opts r); opt_update := opt_update (opts r);
                opt_confirm := opt_confirm (opts r);
                opt_redirect := opt_redirect (opts r);
                opt_flash := opt_flash (opts r); opt_files := v;
                opt_data := opt_data (opts r);
                opt_browserValidate := opt_browserValidate (opts r);
                opt_form := opt_form (opts r); opt_loading := opt_loading (opts r);
                opt_beforeUpdate := opt_beforeUpdate (opts r);
                opt_handleConfirmMessage := opt_handleConfirmMessage (opts r);
                opt_handleRedirectResponse := opt_handleRedirectResponse (opts r);
                opt_handleErrorMessage := opt_handleErrorMessage (opts r);
                opt_handleFlashMessages := opt_handleFlashMessages (opts r);
                opt_handleValidationErrors := opt_handleValidationErrors (opts r) |} |}.

End Observations.

End Observe.

(* ===================================================================== *)
(** ** A document with independent elements *)
(* ===================================================================== *)

Module Store.
Import Js Request.

(** A document in which every node id has its own inner HTML; [select]
    says which nodes a selector matches, [hook] is what every aggregated
    hook settles with and [listeners] modules listen to each event.  The
    network is down and no form is valid. *)
Definition env (select : string -> option (list nat)) (hook : promise value unit)
    (listeners : nat) : Env :=
  {| Dom := nat -> string;
     querySelectorAll := fun _ selector => select selector;
     innerHTML := fun d el => d el;
     set_innerHTML := fun d el html => fun x => if (x =? el)%nat then html else d x;
     sanitize := fun content => match content with VStr s => s | _ => "" end;
     callback := fun f _ _ => Demo.answers f;
     globalEvent := fun _ _ => true;
     globalPromiseEvent := fun _ _ => hook;
     listensToEvent := fun _ => listeners;
     window_confirm := fun _ => true;
     closest_form := fun _ => VNull;
     checkValidity := fun _ => false;
     fetch := fun _ => NetworkError "TypeError: Failed to fetch";
     location_href := "https://example.test/page";
     document_cookie := "";
     decodeURIComponent := fun s => Some s;
     uri_error_message := "URI malformed";
     typeof_FormData := "undefined";
     inherited := fun _ _ => VUndefined;
     to_string := fun _ => "" |}.

(** Nodes 1 and 2 are list items, node 3 is the [#log]. *)
Definition items (selector : string) : option (list nat) :=
  if selector =? "li" then Some [1; 2]
  else if selector =? "#log" then Some [3]
  else if selector =? "" then None
  else Some [].

(** A shop whose hooks resolve with [false] and where nobody listens, and
    one where a module listens and its hooks reject. *)
Definition shop : Env := env items (Fulfilled (VBool false)) 0.
Definition strict : Env := env items (Rejected tt) 1.

(** A site whose server answers every request with [reply]. *)
Definition site (reply : response) : Env := Demo.env "" 0 (Responded reply).

(** A browser in which a module cancels [ajaxSetup]. *)
Definition closed : Env := Demo.env "ajaxSetup" 0 NoAnswer.

Definition shelf : nat -> string :=
  fun el => match el with 1 => "A" | 2 => "B" | 3 => "log:" | _ => "" end.

Definition open_shop : world (E := shop) := Demo.start shop shelf.
Definition open_strict : world (E := strict) := Demo.start strict shelf.

(** A request that appends the partial [entry] to the [#log]. *)
Definition log_entry : request :=
  Demo.on_save [("update", VObj [("entry", VStr "@#log")])].

(** A server crash whose JSON body is [null], one with a text body, and a
    payload with one partial. *)
Definition crash : response :=
  {| rs_status := 500;
     rs_content_type := Some "application/json";
     rs_json := inr VNull;
     rs_text := inl "body already read" |}.

Definition outage : response :=
  {| rs_status := 503;
     rs_content_type := Some "text/plain";
     rs_json := inl "SyntaxError: Unexpected token S";
     rs_text := inr "Service unavailable" |}.

(** A JSON body that owns a key [__proto__]. *)
Definition polluted : response :=
  {| rs_status := 200;
     rs_content_type := Some "application/json";
     rs_json := inr (VObj [ ("__proto__", VObj [("X_WINTER_REDIRECT", VStr "/away")]);
                            ("entry", VStr "sold") ]);
     rs_text := inl "body already read" |}.

(** A request that replaces every list item by the partial [entry]. *)
Definition relabel : request :=
  Demo.on_save [("update", VObj [("entry", VStr "li")])].

Definition entry_payload : value :=
  VObj [("entry", VStr "sold"); ("X_WINTER_SUCCESS", VBool true)].

(** A payload that reports a field and a message. *)
Definition complaint : value :=
  VObj [ ("X_WINTER_ERROR_FIELDS", VObj [("name", VArr [VStr "required"])]);
         ("X_WINTER_ERROR_MESSAGE", VStr "Check the form");
         ("X_WINTER_SUCCESS", VBool false) ].

(** [decodeURIComponent] on strings without escapes. *)
Definition as_is (s : string) : option string := Some s.

End Store.

(* ===================================================================== *)
(** ** More observations *)
(* ===================================================================== *)

Module Probe.
Import Js Request Observe.

Section Probes.
Context {E : Env}.

(** The [beforeUpdate] callback, when there is one, answers [false]. *)
Definition before_vetoes (r : request) (response : value) : bool :=
  match opt_beforeUpdate (opts r) with
  | VFunc f => is_false (callback f r [response])
  | _ => false
  end.

(** What [processUpdate] records before it looks at the partials. *)
Definition before_events (r : request) (response : value) : list event :=
  ECall "processUpdate" [AVal response]
  :: match opt_beforeUpdate (opts r) with
     | VFunc _ => [ECallback "beforeUpdate" [response]]
     | _ => []
     end.

(** [logs P c]: [c] leaves the document as it is and only appends events,
    all of which satisfy [P]. *)
Definition logs {A : Type} (P : event -> Prop) (c : M A) : Prop :=
  forall w, exists t,
    snd (c w) = {| dom := dom w; trace := (trace w ++ t)%list |} /\ Forall P t.

(** The messages handed to [alert], in order. *)
Definition alerts (t : list event) : list value :=
  flat_map (fun ev => match ev with EAlert message => [message] | _ => [] end) t.

(** The error message is suppressed by the callback or by the hook. *)
Definition message_vetoed (r : request) (message : value) : bool :=
  match opt_handleErrorMessage (opts r) with
  | VFunc f => is_false (callback f r [message])
  | _ => false
  end
  || negb (globalEvent "ajaxErrorMessage" [AVal message]).

(** The method [method] is called somewhere in the trace. *)
Definition called (method : string) (t : list event) : bool :=
  existsb (fun ev => match ev with ECall m _ => m =? method | _ => false end) t.

(** One of the three ways a confirmation is obtained. *)
Definition is_confirmation (ev : event) : bool :=
  match ev with
  | ECallback name _ => name =? "handleConfirmMessage"
  | EConfirm _ => true
  | EGlobalPromiseEvent name _ => name =? "ajaxConfirmMessage"
  | _ => false
  end.

(** Not a network call and nothing to do with asking for confirmation. *)
Definition discreet (ev : event) : Prop :=
  quiet ev /\ is_confirmation ev = false
  /\ forall args, ev <> ECall "doConfirm" args.

(** An [innerHTML] assignment. *)
Definition is_write (ev : event) : bool :=
  match ev with ESetInnerHTML _ _ _ => true | _ => false end.


(** The handler names the pattern of [checkRequest] lets through: an [o]
    first, or a run of word characters, [::] and an [o]. *)
Definition accepted_handler (name : string) : Prop :=
  (exists rest, name = "o" ++ rest)
  \/ (exists namespace rest, Spec.word namespace /\ name = namespace ++ "::o" ++ rest).

End Probes.

End Probe.

(* ===================================================================== *)
(** ** Facts about the matcher *)
(* ===================================================================== *)

Module RegexFacts.
Import Regex.

Lemma append_empty (s1 s2 : string) : s1 ++ s2 = "" -> s1 = "" /\ s2 = "".
Proof.
  destruct s1; simpl; intros H; [auto | discriminate].
Qed.

Lemma nullable_matches (r : re) : nullable r = true <-> matches r "".
Proof.
  split.
  - induction r; simpl; intros H; try discriminate.
    + constructor.
    + apply andb_true_iff in H as [H1 H2].
      change "" with ("" ++ ""). constructor; auto.
    + apply orb_true_iff in H as [H | H].
      * apply M_alt_l; auto.
      * apply M_alt_r; auto.
    + constructor.
  - intros H. remember "" as s eqn:Hs.
    induction H; simpl; try discriminate; auto.
    + apply append_empty in Hs as [-> ->].
      rewrite IHmatches1, IHmatches2; auto.
    + rewrite IHmatches; auto.
    + rewrite IHmatches, orb_true_r; auto.
Qed.

Lemma after_sound (c : ascii) (r : re) :
  forall s, matches (after c r) s -> matches r (String c s).
Proof.
  induction r; simpl; intros s H.
  - inversion H.
  - inversion H.
  - destruct (Ascii.eqb c0 c) eqn:Hc; inversion H; subst.
    apply Ascii.eqb_eq in Hc; subst. constructor.
  - destruct (is_word c) eqn:Hc; inversion H; subst. constructor; auto.
  - inversion H; subst. constructor.
  - destruct (nullable r1) eqn:Hn.
    + inversion H as [ | | | | | ? ? ? Hl | ? ? ? Hr | | ]; subst.
      * inversion Hl; subst.
        change (String c (s1 ++ s2)) with (String c s1 ++ s2).
        constructor; auto.
      * change (String c s) with ("" ++ String c s).
        constructor; auto. apply nullable_matches; auto.
    + inversion H; subst.
      change (String c (s1 ++ s2)) with (String c s1 ++ s2).
      constructor; auto.
  - inversion H; subst.
    + apply M_alt_l; auto.
    + apply M_alt_r; auto.
  - inversion H; subst.
    change (String c (s1 ++ s2)) with (String c s1 ++ s2).
    constructor; auto.
Qed.

Lemma after_complete (c : ascii) (r : re) (s : string) :
  matches r (String c s) -> matches (after c r) s.
Proof.
  intros H. remember (String c s) as cs eqn:Hcs.
  revert s Hcs.
  induction H; intros t Hcs; simpl; try discriminate.
  - injection Hcs as -> <-. rewrite Ascii.eqb_refl. constructor.
  - injection Hcs as -> <-. rewrite H. constructor.
  - injection Hcs as -> <-. constructor.
  - destruct s1 as [ | a s1'].
    + simpl in Hcs. subst s2.
      apply nullable_matches in H. rewrite H.
      apply M_alt_r. auto.
    + simpl in Hcs. injection Hcs as -> <-.
      destruct (nullable r1).
      * apply M_alt_l. constructor; auto.
      * constructor; auto.
  - apply M_alt_l; auto.
  - apply M_alt_r; auto.
  - destruct s1 as [ | a s1'].
    + simpl in Hcs. auto.
    + simpl in Hcs. injection Hcs as -> <-.
      constructor; auto.
Qed.

(** The matcher decides the declarative reading. *)
Lemma accepts_matches (s : string) :
  forall r, accepts r s = true <-> matches r s.
Proof.
  induction s as [ | c s IH]; intros r; simpl.
  - apply nullable_matches.
  - rewrite IH. split; [apply after_sound | apply after_complete].
Qed.

Lemma star_any (s : string) : matches (Star Any) s.
Proof.
  induction s as [ | c s IH].
  - constructor.
  - change (String c s) with (String c "" ++ s).
    constructor; [constructor | exact IH].
Qed.

(** A pattern tested at the start of a string matches as soon as it
    matches a prefix. *)
Lemma test_prefix_intro (r : re) (p rest : string) :
  matches r p -> test_prefix r (p ++ rest) = true.
Proof.
  intros H. unfold test_prefix. apply accepts_matches.
  constructor; [exact H | apply star_any].
Qed.

Lemma test_prefix_elim (r : re) (s : string) :
  test_prefix r s = true -> exists p rest, s = p ++ rest /\ matches r p.
Proof.
  unfold test_prefix. intros H. apply accepts_matches in H.
  inversion H; subst. eauto.
Qed.

End RegexFacts.

(* ===================================================================== *)
(** ** Facts about objects and keys *)
(* ===================================================================== *)

Module JsFacts.
Import Js.

Lemma creatable_iff (k : string) : creatable k = true <-> k <> "__proto__".
Proof.
  unfold creatable. rewrite negb_true_iff. apply String.eqb_neq.
Qed.

Lemma lookup_set_field (k k' : string) (v : value) (fields : list (string * value)) :
  creatable k' = true ->
  lookup k (set_field k' v fields) = if k' =? k then Some v else lookup k fields.
Proof.
  intros Hc. induction fields as [ | [k0 v0] rest IH]; simpl.
  - rewrite Hc. reflexivity.
  - destruct (k0 =? k') eqn:H0; simpl.
    + apply String.eqb_eq in H0; subst k0.
      destruct (k' =? k); reflexivity.
    + destruct (k0 =? k) eqn:H1.
      * apply String.eqb_eq in H1; subst k0.
        rewrite String.eqb_sym, H0. reflexivity.
      * exact IH.
Qed.


Lemma lookup_absent (k : string) (fields : list (string * value)) :
  ~ In k (map fst fields) -> lookup k fields = None.
Proof.
  induction fields as [ | [k0 v0] rest IH]; simpl; intros H; [reflexivity | ].
  destruct (k0 =? k) eqn:H0.
  - apply String.eqb_eq in H0. tauto.
  - apply IH. tauto.
Qed.

Lemma set_field_keys (k k' : string) (v : value) (fields : list (string * value)) :
  In k (map fst (set_field k' v fields)) -> k = k' \/ In k (map fst fields).
Proof.
  induction fields as [ | [k0 v0] rest IH]; simpl.
  - destruct (creatable k'); simpl; intuition.
  - destruct (k0 =? k') eqn:H0; simpl.
    + apply String.eqb_eq in H0; subst k0. intuition.
    + intuition.
Qed.

(** A key that cannot be created is never gained by an assignment. *)
Lemma set_field_no_proto (k : string) (v : value) (fields : list (string * value)) :
  ~ In "__proto__" (map fst fields) ->
  ~ In "__proto__" (map fst (set_field k v fields)).
Proof.
  induction fields as [ | [k0 v0] rest IH]; simpl; intros H.
  - destruct (creatable k) eqn:Hc; simpl; [ | tauto].
    apply creatable_iff in Hc. intros [-> | []]. congruence.
  - destruct (k0 =? k) eqn:H0; simpl.
    + apply String.eqb_eq in H0; subst k0. tauto.
    + intros [-> | Hin]; [tauto | ]. apply IH; tauto.
Qed.

Lemma set_field_fresh (k : string) (v : value) (fields : list (string * value)) :
  ~ In k (map fst fields) ->
  set_field k v fields = (fields ++ (if creatable k then [(k, v)] else []))%list.
Proof.
  induction fields as [ | [k0 v0] rest IH]; simpl; intros H.
  - reflexivity.
  - destruct (k0 =? k) eqn:H0.
    + apply String.eqb_eq in H0. tauto.
    + rewrite IH; tauto.
Qed.

(** Copying fields whose keys are distinct and new keeps those that can be
    created, as they are. *)
Lemma set_fields_distinct (src target : list (string * value)) :
  NoDup (map fst src) ->
  (forall k, In k (map fst src) -> ~ In k (map fst target)) ->
  set_fields target src
  = (target ++ filter (fun kv => creatable (fst kv)) src)%list.
Proof.
  unfold set_fields. revert target.
  induction src as [ | [k v] rest IH]; simpl; intros target Hnd Hnew.
  - now rewrite List.app_nil_r.
  - inversion Hnd as [ | ? ? Hk Hrest]; subst.
    rewrite set_field_fresh by (apply Hnew; auto).
    rewrite IH; auto.
    + rewrite <- List.app_assoc. destruct (creatable k); reflexivity.
    + intros k' Hin. rewrite map_app, in_app_iff.
      intros [H | H]; [eapply Hnew; eauto | ].
      destruct (creatable k); simpl in H; [ | tauto].
      destruct H as [<- | []]. tauto.
Qed.




Lemma lookup_creatable (k : string) (fields : list (string * value)) :
  creatable k = true ->
  lookup k (filter (fun kv => creatable (fst kv)) fields) = lookup k fields.
Proof.
  intros Hc. induction fields as [ | [k0 v0] rest IH]; simpl; [reflexivity | ].
  destruct (creatable k0) eqn:H0; simpl.
  - now rewrite IH.
  - destruct (k0 =? k) eqn:Hk; [ | exact IH].
    apply String.eqb_eq in Hk. congruence.
Qed.


Lemma map_fst_indexed {A : Type} (l : list A) :
  map fst (indexed l) = map index_key (seq 0 (List.length l)).
Proof.
  unfold indexed. generalize (length_seq (List.length l) 0).
  generalize (seq 0 (List.length l)). intros ks.
  revert l. induction ks as [ | k ks IH]; intros [ | x l]; simpl; intros H;
    try discriminate; try reflexivity.
  f_equal. apply IH. congruence.
Qed.

Lemma length_indexed {A : Type} (l : list A) :
  List.length (indexed l) = List.length l.
Proof.
  rewrite <- (length_map fst), map_fst_indexed, length_map. apply length_seq.
Qed.

Lemma to_uint_nonnil (i : nat) : Nat.to_uint i <> Decimal.Nil.
Proof.
  rewrite <- (Unsigned.of_to i), Unsigned.to_of. apply unorm_nonnil.
Qed.

Lemma index_key_inj (i j : nat) : index_key i = index_key j -> i = j.
Proof.
  unfold index_key. intros H.
  apply (f_equal NilZero.uint_of_string) in H.
  rewrite !NilZero.usu in H by apply to_uint_nonnil.
  apply Unsigned.to_uint_inj. congruence.
Qed.

(** An index never reads as a side-channel key. *)
Lemma index_key_plain (i : nat) : substr 0 8 (index_key i) <> "X_WINTER".
Proof.
  unfold index_key, substr.
  destruct (Nat.to_uint i); simpl; discriminate.
Qed.

(** An index is a key like any other. *)
Lemma index_key_creatable (i : nat) : creatable (index_key i) = true.
Proof.
  unfold creatable, index_key.
  destruct (Nat.to_uint i); reflexivity.
Qed.

Lemma indexed_keys_distinct {A : Type} (l : list A) : NoDup (map fst (indexed l)).
Proof.
  rewrite map_fst_indexed.
  apply Injective_map_NoDup; [exact index_key_inj | apply seq_NoDup].
Qed.

Lemma length_units (s : string) : List.length (units s) = String.length s.
Proof.
  induction s; simpl; congruence.
Qed.

End JsFacts.

(* ===================================================================== *)
(** ** Properties of the request lifecycle *)
(* ===================================================================== *)

Module RequestFacts.
Import Js Request Observe Probe.

Section Construction.
Context {E : Env}.

Lemma plus_word_matches (s : string) :
  Spec.word s -> Regex.matches (Regex.plus Regex.Word) s.
Proof.
  intros [Hne Hall]. destruct s as [ | c s]; [congruence | clear Hne].
  simpl in Hall. inversion Hall as [ | ? ? Hc Hrest]; subst.
  change (String c s) with (String c "" ++ s).
  constructor; [constructor; exact Hc | ].
  clear Hall Hc. induction s as [ | d s IH].
  - constructor.
  - simpl in Hrest. inversion Hrest; subst.
    change (String d s) with (String d "" ++ s).
    constructor; [constructor | ]; auto.
Qed.

Lemma on_matches : Regex.matches handler_pattern "on".
Proof.
  unfold handler_pattern.
  change "on" with ("" ++ ("o" ++ "n")).
  constructor.
  - apply Regex.M_alt_r. constructor.
  - constructor; [constructor | ].
    change "n" with ("n" ++ "").
    constructor; constructor.
Qed.

Lemma o_matches : Regex.matches handler_pattern "o".
Proof.
  unfold handler_pattern.
  change "o" with ("" ++ ("o" ++ "")).
  constructor.
  - apply Regex.M_alt_r. constructor.
  - constructor; constructor.
Qed.

Lemma append_assoc (a b c : string) : (a ++ b) ++ c = a ++ (b ++ c).
Proof.
  induction a as [ | x a IH]; simpl; [reflexivity | now rewrite IH].
Qed.

Lemma namespaced_on_matches (namespace : string) :
  Spec.word namespace -> Regex.matches handler_pattern (namespace ++ "::on").
Proof.
  intros Hw. unfold handler_pattern.
  change "::on" with ("::" ++ "on").
  rewrite <- append_assoc.
  constructor.
  - apply Regex.M_alt_l. constructor.
    + apply plus_word_matches; exact Hw.
    + change "::" with (":" ++ ":"). constructor; constructor.
  - change "on" with ("o" ++ "n"). constructor; [constructor | ].
    change "n" with ("n" ++ ""). constructor; constructor.
Qed.

(** Every handler name of the specified format passes [checkRequest],
    with no target element or with a real one. *)
Lemma checkRequest_accepts_format (el : value) (name : string) (o : options) :
  el = VUndefined \/ (exists e, el = VElem e) ->
  Spec.handler_format name ->
  checkRequest {| element := el; handler := VStr name; opts := o |} = None.
Proof.
  intros Hel H. unfold checkRequest. cbn [element handler is_undefined].
  assert (Hg : negb (is_undefined el) && negb (instanceof_Element el) = false)
    by (destruct Hel as [-> | [e ->]]; reflexivity).
  rewrite Hg.
  assert (Hm : Regex.test_prefix handler_pattern name = true).
  { destruct H as [[rest ->] | (ns & rest & Hw & ->)].
    - apply RegexFacts.test_prefix_intro. exact on_matches.
    - change (ns ++ "::on" ++ rest) with (ns ++ ("::on" ++ rest)).
      rewrite <- append_assoc.
      apply RegexFacts.test_prefix_intro, namespaced_on_matches, Hw. }
  rewrite Hm. reflexivity.
Qed.

Lemma oops_is_malformed : ~ Spec.handler_format "oops".
Proof.
  intros [[name H] | (ns & name & [Hne _] & H)].
  - discriminate.
  - do 4 (destruct ns as [ | ? ns];
          [simpl in H; try discriminate; congruence | ];
          simpl in H; injection H as <- H).
    destruct ns; discriminate.
Qed.

(** C3 (what the code does at the failing inputs): [checkRequest] accepts
    every handler name that starts with the letter [o], such as [oops],
    although [oops] is not of the format [[namespace::]on<Name>]: the
    pattern [on*] asks for an [o] followed by any number of [n]. *)
Theorem checkRequest_accepts_any_o_prefix (rest : string) (o : options) :
  checkRequest {| element := VUndefined; handler := VStr ("o" ++ rest); opts := o |}
  = None
  /\ ~ Spec.handler_format "oops".
Proof.
  split; [ | exact oops_is_malformed].
  unfold checkRequest.
  cbn [element handler is_undefined instanceof_Element negb andb].
  rewrite (RegexFacts.test_prefix_intro handler_pattern "o" rest o_matches).
  reflexivity.
Qed.

(** C10: a target element that is neither [undefined] nor an [Element]
    ([null] included) makes the constructor throw before anything is
    broadcast, asked or sent: the world is untouched.  With [undefined]
    the element check never throws. *)
Theorem constructor_rejects_non_element (el h : value) (o : options) (w : world) :
  el <> VUndefined ->
  (forall e, el <> VElem e) ->
  constructor {| element := el; handler := h; opts := o |} w
  = Threw element_error w
  /\ checkRequest {| element := VUndefined; handler := h; opts := o |}
     <> Some element_error.
Proof.
  intros Hu He. split.
  - unfold constructor, checkRequest. cbn [element handler].
    destruct el; try reflexivity; [congruence | ].
    exfalso. eapply He; reflexivity.
  - unfold checkRequest. cbn [element handler is_undefined instanceof_Element negb andb].
    destruct h; cbn; try discriminate.
    destruct (Regex.test_prefix handler_pattern s); cbn; discriminate.
Qed.

(** A request that passes [checkRequest], the [ajaxSetup] hook and the
    client-side validation reaches the confirmation test. *)
Lemma constructor_reaches_confirmation (r : request) (w : world) :
  checkRequest r = None ->
  globalEvent "ajaxSetup" [AThis r] = true ->
  let announced :=
    {| dom := dom w;
       trace := (trace w ++ [EGlobalEvent "ajaxSetup" [AThis r]])%list |} in
  fst (doClientValidation r announced) = true ->
  constructor r w
  = Returned (snd (confirm_and_send r (snd (doClientValidation r announced)))).
Proof.
  intros Hc Hs announced Hv. unfold constructor. rewrite Hc.
  unfold bind at 1. unfold emit at 1. rewrite Hs. cbn [negb].
  fold announced. unfold bind.
  destruct (doClientValidation r announced) as [valid w1].
  simpl in Hv. subst valid. reflexivity.
Qed.

End Construction.

(** *** Traces *)

Section Traces.
Context {E : Env}.

Lemma adds_ret {A : Type} (P : event -> Prop) (a : A) : adds P (ret a).
Proof.
  intros w. exists []. simpl. rewrite List.app_nil_r. auto.
Qed.

Lemma adds_emit (P : event -> Prop) (ev : event) : P ev -> adds P (emit ev).
Proof.
  intros H w. exists [ev]. simpl. auto.
Qed.

Lemma adds_read_dom (P : event -> Prop) : adds P read_dom.
Proof.
  intros w. exists []. simpl. rewrite List.app_nil_r. auto.
Qed.

Lemma adds_write_html (P : event -> Prop) (partial : string) (el : nat) (html : string) :
  P (ESetInnerHTML partial el html) -> adds P (write_html partial el html).
Proof.
  intros H w. exists [ESetInnerHTML partial el html]. simpl. auto.
Qed.

Lemma adds_bind {A B : Type} (P : event -> Prop) (c : M A) (k : A -> M B) :
  adds P c -> (forall a, adds P (k a)) -> adds P (bind c k).
Proof.
  intros Hc Hk w. unfold bind.
  destruct (Hc w) as (t1 & H1 & F1).
  destruct (c w) as [a w1]. simpl in H1.
  destruct (Hk a w1) as (t2 & H2 & F2).
  exists (t1 ++ t2)%list. split.
  - rewrite H2, H1. now rewrite List.app_assoc.
  - apply Forall_app; auto.
Qed.

Lemma adds_weaken {A : Type} (P Q : event -> Prop) (c : M A) :
  (forall ev, P ev -> Q ev) -> adds P c -> adds Q c.
Proof.
  intros HPQ Hc w. destruct (Hc w) as (t & H & F).
  exists t. split; [exact H | ]. eapply Forall_impl; eauto.
Qed.

(** An event that [c] leaves in the trace and that [P] excludes was there
    before. *)
Lemma adds_In {A : Type} (P : event -> Prop) (c : M A) (w : world) (ev : event) :
  adds P c -> ~ P ev -> In ev (trace (snd (c w))) -> In ev (trace w).
Proof.
  intros Hc Hn Hin. destruct (Hc w) as (t & H & F).
  rewrite H in Hin. apply in_app_or in Hin as [Hin | Hin]; [exact Hin | ].
  rewrite Forall_forall in F. exfalso. apply Hn, F, Hin.
Qed.

Lemma bind_assoc {A B C : Type} (c : M A) (k : A -> M B) (k' : B -> M C) (w : world) :
  bind (bind c k) k' w = bind c (fun a => bind (k a) k') w.
Proof.
  unfold bind. destruct (c w). reflexivity.
Qed.

End Traces.

(** Goals [adds P c] are taken apart along the structure of [c]; what is
    left are the methods and the events themselves. *)
Ltac adds_step :=
  match goal with
  | |- adds _ (ret _) => apply adds_ret
  | |- adds _ read_dom => apply adds_read_dom
  | |- adds _ (emit _) => apply adds_emit
  | |- adds _ (bind _ _) => apply adds_bind; [ | intros ? ]
  | |- adds _ (match ?x with _ => _ end) => destruct x
  end.

Ltac adds_auto := repeat adds_step.

(** *** The update phase *)

Section Update.
Context {E : Env}.

Lemma partials_fold_keys (fields acc : list (string * value)) (k : string) :
  In k (map fst
    (fold_left (fun partials kv =>
                  if negb (substr 0 8 (fst kv) =? "X_WINTER")
                  then set_field (fst kv) (snd kv) partials else partials)
               fields acc)) ->
  In k (map fst acc) \/ substr 0 8 k <> "X_WINTER".
Proof.
  revert acc. induction fields as [ | [k0 v0] rest IH]; simpl; intros acc H.
  - auto.
  - apply IH in H as [H | H]; [ | auto].
    destruct (substr 0 8 k0 =? "X_WINTER") eqn:Hp; simpl in H; [auto | ].
    apply JsFacts.set_field_keys in H as [-> | H]; [ | auto].
    right. now apply String.eqb_neq.
Qed.

(** No key of the partial set starts with the side-channel marker. *)
Lemma partials_of_keys_plain (fields : list (string * value)) (k : string) :
  In k (map fst (partials_of fields)) -> substr 0 8 k <> "X_WINTER".
Proof.
  intros H. apply partials_fold_keys in H as [[] | H]. exact H.
Qed.

Lemma partials_fold_distinct (fields acc : list (string * value)) :
  NoDup (map fst fields) ->
  (forall k, In k (map fst fields) -> ~ In k (map fst acc)) ->
  fold_left (fun partials kv =>
               if negb (substr 0 8 (fst kv) =? "X_WINTER")
               then set_field (fst kv) (snd kv) partials else partials)
            fields acc
  = (acc ++ filter partial_entry fields)%list.
Proof.
  revert acc. induction fields as [ | [k v] rest IH]; simpl; intros acc Hnd Hnew.
  - now rewrite List.app_nil_r.
  - inversion Hnd as [ | ? ? Hk Hrest]; subst.
    unfold partial_entry at 1, plain at 1. simpl.
    destruct (substr 0 8 k =? "X_WINTER"); simpl.
    + apply IH; auto.
    + rewrite JsFacts.set_field_fresh by (apply Hnew; auto).
      rewrite IH; auto.
      * rewrite <- List.app_assoc. destruct (creatable k); reflexivity.
      * intros k' Hin. rewrite map_app, in_app_iff.
        intros [H | H]; [eapply Hnew; eauto | ].
        destruct (creatable k); simpl in H; [ | tauto].
        destruct H as [<- | []]. tauto.
Qed.

(** On an object (distinct keys) the partial set is the entries without
    the side-channel keys and without [__proto__], in order. *)
Lemma partials_of_distinct (fields : list (string * value)) :
  NoDup (map fst fields) -> partials_of fields = filter partial_entry fields.
Proof.
  intros H. unfold partials_of. rewrite partials_fold_distinct; auto.
Qed.

Lemma update_elements_adds (P : event -> Prop) (partial : string) (m : mode)
    (content : value) (elements : list nat) :
  (forall el html, P (ESetInnerHTML partial el html)) ->
  adds P (update_elements partial m content elements).
Proof.
  intros HP. induction elements as [ | el rest IH]; simpl.
  - apply adds_ret.
  - apply adds_bind; [apply adds_read_dom | intros d].
    apply adds_bind; [apply adds_write_html, HP | intros _; exact IH].
Qed.

Lemma update_partial_adds (P : event -> Prop) (r : request) (p : string * value) :
  (forall el html, P (ESetInnerHTML (fst p) el html)) ->
  adds P (update_partial r p).
Proof.
  intros HP. unfold update_partial.
  destruct (resolve_selector r (fst p)) as [[m selector] | ]; [ | apply adds_ret].
  apply adds_bind; [apply adds_read_dom | intros d].
  destruct (querySelectorAll d selector) as [elements | ]; [ | apply adds_ret].
  apply adds_bind; [ | intros _; apply adds_ret].
  destruct (0 <? List.length elements)%nat;
    [apply update_elements_adds, HP | apply adds_ret].
Qed.

(** The loop of [doUpdate] writes HTML for its own partials only. *)
Lemma doUpdate_loop_adds (P : event -> Prop) (r : request)
    (partials : list (string * value)) :
  (forall k el html, In k (map fst partials) -> P (ESetInnerHTML k el html)) ->
  forall st, adds P (doUpdate_loop r partials st).
Proof.
  induction partials as [ | p rest IH]; simpl; intros HP st.
  - apply adds_ret.
  - apply adds_bind.
    + apply update_partial_adds. intros; apply HP; auto.
    + intros [ | ]; [apply IH; intros; apply HP; auto | apply adds_ret].
Qed.

Lemma doUpdate_adds (P : event -> Prop) (r : request)
    (partials : list (string * value)) :
  P (ECall "doUpdate" [AVal (VObj partials)]) ->
  (forall k el html, In k (map fst partials) -> P (ESetInnerHTML k el html)) ->
  adds P (doUpdate r partials).
Proof.
  intros Hc HP. unfold doUpdate.
  apply adds_bind; [apply adds_emit, Hc | intros _; apply doUpdate_loop_adds, HP].
Qed.

Lemma processUpdate_adds (r : request) (response : value) :
  adds (update_event response) (processUpdate r response).
Proof.
  unfold processUpdate.
  apply adds_bind; [apply adds_emit; simpl; auto | intros _].
  apply adds_bind.
  { destruct (opt_beforeUpdate (opts r)); try apply adds_ret.
    apply adds_bind; [apply adds_emit; simpl; auto | intros _; apply adds_ret]. }
  intros [ | ]; [apply adds_ret | ].
  destruct (entries response) as [fields | ] eqn:He; [ | apply adds_ret].
  destruct (List.length (map fst (partials_of fields)) =? 0)%nat; [apply adds_ret | ].
  apply adds_bind; [apply adds_emit; simpl; auto | intros _].
  destruct (globalPromiseEvent "ajaxBeforeUpdate" [AThis r; AVal response]);
    try apply adds_ret.
  apply adds_bind.
  - apply doUpdate_adds; simpl; auto.
    intros k el html Hin. split; [eapply partials_of_keys_plain; eauto | eauto].
  - intros [ | | ]; try apply adds_ret.
    apply adds_bind; [apply adds_emit; simpl; auto | intros _; apply adds_ret].
Qed.

(** C8: a key of the payload that starts with [X_WINTER] is never a key of
    the partial set, and [processUpdate] never writes HTML on its behalf:
    an [innerHTML] assignment for that key found in the trace afterwards
    was there before. *)
Theorem side_channel_key_is_never_a_partial
    (r : request) (response : value) (w : world) (k : string) :
  substr 0 8 k = "X_WINTER" ->
  (forall fields, entries response = Some fields ->
                  ~ In k (map fst (partials_of fields)))
  /\ (forall el html,
        In (ESetInnerHTML k el html) (trace (snd (processUpdate r response w))) ->
        In (ESetInnerHTML k el html) (trace w)).
Proof.
  intros Hk. split.
  - intros fields _ Hin. now apply partials_of_keys_plain in Hin.
  - intros el html. apply (adds_In (update_event response)).
    + apply processUpdate_adds.
    + simpl. intros [Hplain _]. auto.
Qed.

Lemma doUpdate_loop_settled (r : request) (partials : list (string * value))
    (st : promise unit unit) (w : world) :
  st <> Pending -> fst (doUpdate_loop r partials st w) = st.
Proof.
  revert st w. induction partials as [ | p rest IH]; simpl; intros st w Hst.
  - reflexivity.
  - unfold bind. destruct (update_partial r p w) as [[ | ] w1].
    + rewrite IH; destruct st; simpl; congruence.
    + destruct st; simpl; congruence.
Qed.

(** Without an [update] map in the options, reading
    [this.options.update[partial]] throws in the first iteration: the
    promise of [doUpdate] is rejected and nothing is written. *)
Lemma doUpdate_needs_update_option
    (r : request) (p : string * value) (rest : list (string * value)) (w : world) :
  opt_update (opts r) = VUndefined ->
  doUpdate r (p :: rest) w
  = (Rejected tt,
     {| dom := dom w;
        trace := (trace w ++ [ECall "doUpdate" [AVal (VObj (p :: rest))]])%list |}).
Proof.
  intros Hu. unfold doUpdate, bind, emit. simpl.
  unfold bind, update_partial, resolve_selector, get_prop. rewrite Hu. reflexivity.
Qed.

(** The three merge modes on one element. *)
Lemma merge_replace_idempotent (current fresh : string) :
  merge Replace (merge Replace current fresh) fresh = merge Replace current fresh.
Proof. reflexivity. Qed.

Lemma merge_append_prepend :
  merge Append "A" "B" = "AB" /\ merge Prepend "A" "B" = "BA".
Proof. split; reflexivity. Qed.

(** C9: a partial whose selector is resolved and matches no element is
    skipped without a throw and without touching the world; the loop goes
    on with the promise resolved; and when that partial comes first,
    [doUpdate] is fulfilled whatever the rest of the set does. *)
Theorem unmatched_selector_is_skipped
    (r : request) (p : string * value) (rest : list (string * value))
    (w : world) (m : mode) (selector : string) :
  resolve_selector r (fst p) = Some (m, selector) ->
  querySelectorAll (dom w) selector = Some [] ->
  update_partial r p w = (true, w)
  /\ (forall st, doUpdate_loop r (p :: rest) st w
                 = doUpdate_loop r rest (resolved st) w)
  /\ fst (doUpdate r (p :: rest) w) = Fulfilled tt.
Proof.
  intros Hs Hq.
  assert (Hp : forall t, update_partial r p {| dom := dom w; trace := t |}
                         = (true, {| dom := dom w; trace := t |})).
  { intros t. unfold update_partial, bind, read_dom, ret. rewrite Hs. simpl.
    rewrite Hq. reflexivity. }
  assert (Hw : update_partial r p w = (true, w)).
  { destruct w as [d t]. apply Hp. }
  split; [exact Hw | split].
  - intros st. simpl. unfold bind. rewrite Hw. reflexivity.
  - unfold doUpdate, bind, emit. simpl. unfold bind. rewrite Hp.
    apply doUpdate_loop_settled. discriminate.
Qed.

(** C4: when [beforeUpdate] answers [false], [processUpdate] is rejected
    having only called the callback, the document is the same, and the
    fulfilment handler stops there: neither [processResponse] nor
    [processError] runs. *)
Theorem beforeUpdate_false_aborts
    (r : request) (response : value) (w : world) (f : nat) :
  opt_beforeUpdate (opts r) = VFunc f ->
  callback f r [response] = VBool false ->
  let aborted :=
    {| dom := dom w;
       trace := (trace w ++ [ECall "processUpdate" [AVal response]]
                         ++ [ECallback "beforeUpdate" [response]])%list |} in
  processUpdate r response w = (Rejected tt, aborted)
  /\ on_response r response w = (tt, aborted).
Proof.
  intros Hf Hc aborted.
  assert (H : processUpdate r response w = (Rejected tt, aborted)).
  { unfold processUpdate, bind, emit, ret. rewrite Hf. simpl. rewrite Hc. simpl.
    unfold aborted. now rewrite <- List.app_assoc. }
  split; [exact H | ].
  unfold on_response, bind. rewrite H. reflexivity.
Qed.

(** [processUpdate] up to the test on the partial set. *)
Lemma processUpdate_prologue (r : request) (response : value) (w : world)
    (k : M (promise unit unit)) :
  before_vetoes r response = false ->
  bind (bind (emit (ECall "processUpdate" [AVal response]))
          (fun _ => match opt_beforeUpdate (opts r) with
                    | VFunc f =>
                        emit (ECallback "beforeUpdate" [response]);;
                        ret (is_false (callback f r [response]))
                    | _ => ret false
                    end))
       (fun vetoed => if vetoed then ret (Rejected tt) else k) w
  = k {| dom := dom w; trace := (trace w ++ before_events r response)%list |}.
Proof.
  unfold before_vetoes, before_events, bind, emit, ret.
  destruct (opt_beforeUpdate (opts r)); cbn [fst snd dom trace];
    try (intros _; reflexivity).
  intros ->. rewrite <- List.app_assoc. reflexivity.
Qed.

Lemma processUpdate_unfold (r : request) (response : value) (w : world) :
  before_vetoes r response = false ->
  processUpdate r response w
  = (match entries response with
     | None => ret (Rejected tt)
     | Some fields =>
         let partials := partials_of fields in
         if (List.length (map fst partials) =? 0)%nat then ret (Fulfilled tt)
         else
           emit (EGlobalPromiseEvent "ajaxBeforeUpdate" [AThis r; AVal response]);;
           match globalPromiseEvent "ajaxBeforeUpdate" [AThis r; AVal response] with
           | Fulfilled _ =>
               updated <- doUpdate r partials;;
               match updated with
               | Fulfilled _ => emit EAnimationFrame;; ret (Fulfilled tt)
               | Rejected _ => ret (Rejected tt)
               | Pending => ret Pending
               end
           | Rejected _ => ret (Rejected tt)
           | Pending => ret Pending
           end
     end) {| dom := dom w; trace := (trace w ++ before_events r response)%list |}.
Proof.
  intros Hb. unfold processUpdate. rewrite <- bind_assoc.
  apply processUpdate_prologue, Hb.
Qed.

Lemma partials_present (fields : list (string * value)) :
  partials_of fields <> [] ->
  (List.length (map fst (partials_of fields)) =? 0)%nat = false.
Proof.
  destruct (partials_of fields); [congruence | reflexivity].
Qed.

(** *** The assignments of one iteration *)

Lemma update_elements_writes (partial : string) (m : mode) (content : value)
    (elements : list nat) (w : world) :
  exists ws,
    update_elements partial m content elements w
    = (tt, {| dom := replay (dom w) ws;
              trace := (trace w ++ writes partial ws)%list |})
    /\ map fst ws = elements
    /\ merged m (sanitize content) (dom w) ws
    /\ (m = Replace -> map snd ws = map (fun _ => sanitize content) elements).
Proof.
  revert w. induction elements as [ | el rest IH]; intros w.
  - exists []. simpl. unfold ret. rewrite List.app_nil_r. destruct w; auto.
  - cbn [update_elements]. unfold bind at 1. unfold read_dom at 1.
    unfold bind at 1. unfold write_html at 1.
    set (html := merge m (innerHTML (dom w) el) (sanitize content)).
    destruct (IH {| dom := set_innerHTML (dom w) el html;
                    trace := (trace w ++ [ESetInnerHTML partial el html])%list |})
      as (ws & Heq & Hels & Hm & Hr).
    exists ((el, html) :: ws). rewrite Heq. cbn [dom trace].
    split; [ | split; [ | split]].
    + simpl. rewrite <- List.app_assoc. reflexivity.
    + simpl. now rewrite Hels.
    + simpl. split; [reflexivity | exact Hm].
    + intros ->. simpl. now rewrite Hr.
Qed.

(** One iteration of [doUpdate] whose selector the document accepts. *)
Lemma update_partial_writes (r : request) (p : string * value) (w : world)
    (m : mode) (selector : string) (elements : list nat) :
  resolve_selector r (fst p) = Some (m, selector) ->
  querySelectorAll (dom w) selector = Some elements ->
  exists ws,
    update_partial r p w
    = (true, {| dom := replay (dom w) ws;
                trace := (trace w ++ writes (fst p) ws)%list |})
    /\ map fst ws = elements
    /\ merged m (sanitize (snd p)) (dom w) ws
    /\ (m = Replace -> map snd ws = map (fun _ => sanitize (snd p)) elements).
Proof.
  intros Hs Hq. unfold update_partial. rewrite Hs.
  unfold bind at 1. unfold read_dom at 1. rewrite Hq.
  destruct elements as [ | el rest].
  - exists []. cbn. unfold bind, ret. rewrite List.app_nil_r.
    destruct w; auto.
  - change (0 <? List.length (el :: rest))%nat with true. cbv iota.
    destruct (update_elements_writes (fst p) m (snd p) (el :: rest) w)
      as (ws & Heq & Hrest).
    exists ws. unfold bind. rewrite Heq. split; [reflexivity | exact Hrest].
Qed.

(** An iteration that throws leaves the world as it found it. *)
Lemma update_partial_throws (r : request) (p : string * value) (w : world) :
  fst (update_partial r p w) = false -> update_partial r p w = (false, w).
Proof.
  intros H. unfold update_partial in *.
  destruct (resolve_selector r (fst p)) as [[m selector] | ]; [ | reflexivity].
  unfold bind, read_dom in *.
  destruct (querySelectorAll (dom w) selector) as [elements | ]; [ | reflexivity].
  match goal with
  | H : fst (let (_, _) := ?c in _) = false |- _ => destruct c
  end.
  discriminate.
Qed.



(** The first entry of a string that is not empty is its first code unit
    under the key [0]. *)
Lemma first_code_unit (c : ascii) (rest : string) :
  exists others,
    indexed (units (String c rest)) = ("0", VStr (String c "")) :: others.
Proof.
  unfold indexed. simpl. eexists. reflexivity.
Qed.

Lemma text_partials (text : string) :
  partials_of (indexed (units text)) = indexed (units text).
Proof.
  rewrite partials_of_distinct by apply JsFacts.indexed_keys_distinct.
  apply forallb_filter_id. apply forallb_forall. intros [k v] Hin.
  assert (Hk : In k (map fst (indexed (units text))))
    by (apply in_map_iff; exists (k, v); auto).
  rewrite JsFacts.map_fst_indexed in Hk.
  apply in_map_iff in Hk as (i & <- & _).
  unfold partial_entry, plain. cbn [fst].
  rewrite JsFacts.index_key_creatable, andb_true_r.
  apply negb_true_iff, String.eqb_neq, JsFacts.index_key_plain.
Qed.

(** C5 (what the code does with a text body): a success-classified
    response without a JSON content type fulfils [doAjax] with its text,
    unparsed, but the update phase then enumerates that string: the
    partial set has one partial per code unit, keyed by its index, and
    [doUpdate] is called with that set; there is no default target, the
    first partial being looked for under the selector [0] unless
    [options.update] maps it; and when the document refuses that selector
    nothing is rendered and nothing is dispatched. *)
Theorem text_body_is_split_by_code_unit
    (r : request) (rs : response) (c : ascii) (rest : string) (w : world) :
  response_ok rs = true \/ rs_status rs = 406%Z ->
  is_json rs = false ->
  rs_text rs = inr (String c rest) ->
  settle_response rs = Fulfilled (VStr (String c rest))
  /\ option_map partials_of (entries (VStr (String c rest)))
     = Some (indexed (units (String c rest)))
  /\ List.length (indexed (units (String c rest))) = String.length (String c rest)
  /\ (before_vetoes r (VStr (String c rest)) = false ->
      (exists v, globalPromiseEvent "ajaxBeforeUpdate"
                   [AThis r; AVal (VStr (String c rest))] = Fulfilled v) ->
      exists t1 t2,
        trace (snd (processUpdate r (VStr (String c rest)) w))
        = (trace w ++ t1
             ++ ECall "doUpdate" [AVal (VObj (indexed (units (String c rest))))]
             :: t2)%list)
  /\ (forall mapped,
        get_prop (opt_update (opts r)) "0" = Some mapped ->
        truthy mapped = false ->
        resolve_selector r "0" = Some (Replace, "0"))
  /\ ((forall m selector d,
         resolve_selector r "0" = Some (m, selector) ->
         querySelectorAll d selector = None) ->
      exists t,
        snd (on_response r (VStr (String c rest)) w)
        = {| dom := dom w; trace := (trace w ++ t)%list |}
        /\ Forall (fun ev => is_write ev = false) t
        /\ called "processResponse" t = false
        /\ called "processError" t = false).
Proof.
  intros Hs Hj Ht.
  assert (He : entries (VStr (String c rest)) = Some (indexed (units (String c rest))))
    by reflexivity.
  assert (Hne : partials_of (indexed (units (String c rest))) <> []).
  { rewrite text_partials. destruct (first_code_unit c rest) as (others & ->).
    discriminate. }
  split; [ | split; [ | split; [ | split; [ | split]]]].
  - unfold settle_response. rewrite Hj, Ht.
    destruct Hs as [H | H]; rewrite H;
      [reflexivity | rewrite Z.eqb_refl, andb_false_r; reflexivity].
  - rewrite He. cbn [option_map]. now rewrite text_partials.
  - now rewrite JsFacts.length_indexed, JsFacts.length_units.
  - intros Hb [v Hv].
    rewrite (processUpdate_unfold r _ w Hb), He. cbv zeta.
    rewrite (partials_present _ Hne), text_partials.
    unfold bind at 1. unfold emit at 1. rewrite Hv.
    unfold bind at 1. unfold doUpdate. unfold bind at 1. unfold emit at 1.
    cbn [dom trace].
    match goal with
    | |- context [doUpdate_loop r ?ps Pending ?w0] =>
        destruct (doUpdate_loop_adds (fun _ => True) r ps (fun _ _ _ _ => I)
                    Pending w0) as (tl & Htl & _);
        destruct (doUpdate_loop r ps Pending w0) as [updated w4]
    end.
    cbn [snd trace] in Htl.
    exists (before_events r (VStr (String c rest))
              ++ [EGlobalPromiseEvent "ajaxBeforeUpdate"
                    [AThis r; AVal (VStr (String c rest))]])%list.
    exists (tl ++ match updated with Fulfilled _ => [EAnimationFrame] | _ => [] end)%list.
    destruct updated as [[] | [] | ]; unfold bind, emit, ret; cbn [snd trace];
      rewrite Htl; repeat (rewrite <- List.app_assoc; simpl);
      rewrite ?List.app_nil_r; reflexivity.
  - intros mapped Hm Hf. unfold resolve_selector. rewrite Hm, Hf. reflexivity.
  - intros Hbad.
    assert (Hthrow : forall w0, update_partial r ("0", VStr (String c "")) w0
                                = (false, w0)).
    { intros w0. unfold update_partial. cbn [fst].
      destruct (resolve_selector r "0") as [[m selector] | ] eqn:Hr; [ | reflexivity].
      unfold bind, read_dom. now rewrite (Hbad m selector (dom w0) eq_refl). }
    assert (Hup : exists u t,
               processUpdate r (VStr (String c rest)) w
               = (u, {| dom := dom w; trace := (trace w ++ t)%list |})
               /\ u <> Fulfilled tt
               /\ Forall (fun ev => is_write ev = false) t
               /\ called "processResponse" t = false
               /\ called "processError" t = false).
    { destruct (before_vetoes r (VStr (String c rest))) eqn:Hb.
      - unfold before_vetoes in Hb. unfold processUpdate, bind, emit, ret.
        destruct (opt_beforeUpdate (opts r)); try discriminate.
        rewrite Hb. cbn [fst snd dom trace].
        exists (Rejected tt),
          [ECall "processUpdate" [AVal (VStr (String c rest))];
           ECallback "beforeUpdate" [VStr (String c rest)]].
        split; [now rewrite <- List.app_assoc | ].
        split; [discriminate | ]. repeat split; repeat constructor.
      - rewrite (processUpdate_unfold r _ w Hb), He. cbv zeta.
        rewrite (partials_present _ Hne), text_partials.
        destruct (first_code_unit c rest) as (others & ->).
        unfold bind at 1. unfold emit at 1. cbn [dom trace].
        set (hook := EGlobalPromiseEvent "ajaxBeforeUpdate"
                       [AThis r; AVal (VStr (String c rest))]).
        assert (Hev : forall t',
                   Forall (fun ev => is_write ev = false) t' ->
                   called "processResponse" t' = false ->
                   called "processError" t' = false ->
                   Forall (fun ev => is_write ev = false)
                     (before_events r (VStr (String c rest)) ++ t')
                   /\ called "processResponse"
                        (before_events r (VStr (String c rest)) ++ t') = false
                   /\ called "processError"
                        (before_events r (VStr (String c rest)) ++ t') = false).
        { intros t' F' C1' C2'. unfold before_events, called in *.
          destruct (opt_beforeUpdate (opts r)); cbn [app existsb];
            rewrite ?C1', ?C2'; repeat split; repeat constructor; auto. }
        destruct (globalPromiseEvent "ajaxBeforeUpdate"
                    [AThis r; AVal (VStr (String c rest))]) as [v | [] | ].
        + unfold bind at 1. unfold doUpdate. unfold bind at 1. unfold emit at 1.
          cbn [doUpdate_loop]. unfold bind at 1. rewrite Hthrow.
          unfold ret, bind. cbn [fst snd dom trace thrown].
          exists (Rejected tt),
            (before_events r (VStr (String c rest))
               ++ [hook; ECall "doUpdate"
                           [AVal (VObj (("0", VStr (String c "")) :: others))]])%list.
          split; [f_equal; f_equal; rewrite <- !List.app_assoc; reflexivity | ].
          split; [discriminate | ].
          apply Hev; repeat constructor.
        + unfold ret. cbn [fst snd].
          exists (Rejected tt), (before_events r (VStr (String c rest)) ++ [hook])%list.
          split; [f_equal; f_equal; rewrite <- !List.app_assoc; reflexivity | ].
          split; [discriminate | ].
          apply Hev; repeat constructor.
        + unfold ret. cbn [fst snd].
          exists Pending, (before_events r (VStr (String c rest)) ++ [hook])%list.
          split; [f_equal; f_equal; rewrite <- !List.app_assoc; reflexivity | ].
          split; [discriminate | ].
          apply Hev; repeat constructor. }
    destruct Hup as (u & t & Hup & Hu & F & C1 & C2).
    exists t. unfold on_response, bind. rewrite Hup.
    destruct u as [[] | [] | ]; [congruence | | ]; cbn [snd]; auto.
Qed.

End Update.

(** *** The dispatch phase *)

Ltac trace_eq :=
  cbn [trace dom snd fst]; rewrite <- ?List.app_assoc; cbn [app]; reflexivity.

Section Dispatch.
Context {E : Env}.

(** What [doAjax] resolves with is an object or a text, never [null] or
    [undefined]. *)
Lemma resolved_payload_is_not_nullish (rs : response) (payload : value) :
  settle_response rs = Fulfilled payload -> nullish payload = false.
Proof.
  unfold settle_response.
  destruct (negb (response_ok rs) && negb (rs_status rs =? 406)%Z).
  - destruct (is_json rs).
    + destruct (rs_json rs) as [ | responseData]; [discriminate | ].
      destruct (get_prop responseData "message"); discriminate.
    + destruct (rs_text rs); discriminate.
  - destruct (is_json rs).
    + destruct (rs_json rs); [discriminate | ]. now intros [= <-].
    + destruct (rs_text rs); [discriminate | ]. now intros [= <-].
Qed.

(** C2: when the payload (an object or a text, as [doAjax] resolves with)
    carries [X_WINTER_REDIRECT], or [options.redirect] supplies one,
    [processResponse] does nothing but process the redirect:
    no flash-message or asset handling happens, the document is untouched,
    and [window.location.assign] is called once with that URL, or not at
    all when [handleRedirectResponse] answers [false] or the [ajaxRedirect]
    hook cancels. *)
Theorem forced_redirect_is_exclusive (r : request) (response : value) (w : world) :
  nullish response = false ->
  truthy (field response "X_WINTER_REDIRECT") = true \/ truthy (redirect r) = true ->
  let url := or_else (field response "X_WINTER_REDIRECT") (redirect r) in
  exists t,
    snd (processResponse r response w)
    = {| dom := dom w; trace := (trace w ++ t)%list |}
    /\ existsb flash_or_asset t = false
    /\ navigations t = if redirect_vetoed r url then [] else [url].
Proof.
  intros Hn H url.
  assert (Hc : truthy (field response "X_WINTER_REDIRECT") || truthy (redirect r) = true)
    by (apply orb_true_iff; exact H).
  unfold processResponse, bind, emit. cbn [fst snd]. rewrite Hn, Hc.
  fold url. unfold processRedirect, redirect_vetoed, bind, emit, ret.
  destruct (opt_handleRedirectResponse (opts r)) as [ | | | | | | | f | ];
    cbn [fst snd orb];
    try (destruct (globalEvent "ajaxRedirect" [AVal url]); cbn [negb];
         eexists; (split; [f_equal; trace_eq | split; reflexivity])).
  destruct (is_false (callback f r [url])); cbn [orb].
  - eexists. split; [f_equal; trace_eq | split; reflexivity].
  - destruct (globalEvent "ajaxRedirect" [AVal url]); cbn [negb];
      eexists; (split; [f_equal; trace_eq | split; reflexivity]).
Qed.

Lemma processErrorMessage_adds (r : request) (message : value) :
  adds error_event (processErrorMessage r message).
Proof.
  unfold processErrorMessage. adds_auto; simpl; auto.
Qed.

Lemma processValidationErrors_adds (r : request) (fields : value) :
  adds error_event (processValidationErrors r fields).
Proof.
  unfold processValidationErrors. adds_auto; simpl; auto.
Qed.

Lemma processError_adds (r : request) (error : error + value) :
  adds error_event (processError r error).
Proof.
  unfold processError.
  apply adds_bind; [apply adds_emit; simpl; auto | intros _].
  destruct error as [e | response]; [apply processErrorMessage_adds | ].
  destruct (nullish response); [apply adds_ret | ].
  apply adds_bind; [ | intros _].
  - destruct (truthy (field response "X_WINTER_ERROR_FIELDS"));
      [apply processValidationErrors_adds | apply adds_ret].
  - destruct (truthy (field response "X_WINTER_ERROR_MESSAGE"));
      [apply processErrorMessage_adds | apply adds_ret].
Qed.

Lemma processResponse_adds (r : request) (response : value) :
  adds success_event (processResponse r response).
Proof.
  unfold processResponse, processRedirect, processFlashMessages, processAssets.
  adds_auto; simpl; auto.
Qed.

(** The fulfilment handler: update events, then one of the two dispatches;
    with the success flag at [false], never the success dispatch. *)
Lemma on_response_adds (r : request) (response : value) :
  adds (fun ev => update_event response ev \/ error_event ev \/ success_event ev)
       (on_response r response).
Proof.
  unfold on_response. apply adds_bind.
  - eapply adds_weaken; [ | apply processUpdate_adds]. auto.
  - intros [ | | ]; try apply adds_ret.
    destruct (nullish response); [apply adds_ret | ].
    destruct (is_false (field response "X_WINTER_SUCCESS")).
    + eapply adds_weaken; [ | apply processError_adds]. auto.
    + eapply adds_weaken; [ | apply processResponse_adds]. auto.
Qed.


(** A computation that starts by emitting [ev] leaves [ev] next in the trace. *)
Lemma emit_first {A : Type} (P : event -> Prop) (ev : event) (k : M A) (w : world) :
  adds P k ->
  exists t, trace (snd (bind (emit ev) (fun _ => k) w)) = (trace w ++ ev :: t)%list.
Proof.
  intros Hk. unfold bind, emit.
  destruct (Hk {| dom := dom w; trace := (trace w ++ [ev])%list |}) as (t & Ht & _).
  exists t. rewrite Ht. simpl. now rewrite <- List.app_assoc.
Qed.


Lemma processUpdate_runs_doUpdate
    (r : request) (response : value) (fields : list (string * value)) (w : world) :
  entries response = Some fields ->
  partials_of fields <> [] ->
  fst (processUpdate r response w) = Fulfilled tt ->
  exists t1 t2,
    trace (snd (processUpdate r response w))
    = (trace w ++ t1 ++ ECall "doUpdate" [AVal (VObj (partials_of fields))] :: t2)%list.
Proof.
  intros He Hne.
  assert (Hlen : (List.length (map fst (partials_of fields)) =? 0)%nat = false).
  { destruct (partials_of fields); [congruence | reflexivity]. }
  remember (processUpdate r response w) as res eqn:Hres. intros Hful.
  unfold processUpdate in Hres. rewrite He, Hlen in Hres.
  unfold bind at 1 in Hres. unfold emit at 1 in Hres.
  set (w1 := {| dom := dom w; trace := _ |}) in Hres.
  set (before := match opt_beforeUpdate (opts r) with VFunc f => _ | _ => ret false end)
    in Hres.
  assert (Hb : adds (fun _ => True) before).
  { unfold before. adds_auto; auto. }
  unfold bind at 1 in Hres.
  destruct (Hb w1) as (tb & Htb & _).
  destruct (before w1) as [vetoed w2]. simpl in Htb.
  destruct vetoed; [subst res; discriminate | ].
  unfold bind at 1 in Hres. unfold emit at 1 in Hres.
  destruct (globalPromiseEvent "ajaxBeforeUpdate" [AThis r; AVal response]);
    try (subst res; discriminate).
  unfold bind at 1 in Hres. unfold doUpdate in Hres.
  unfold bind at 1 in Hres. unfold emit at 1 in Hres.
  cbn [dom trace snd fst] in Hres.
  set (w3 := {| dom := dom w2; trace := (_ ++ [ECall "doUpdate" _])%list |}) in Hres.
  destruct (doUpdate_loop_adds (fun _ => True) r (partials_of fields)
              (fun _ _ _ _ => I) Pending w3) as (tl & Htl & _).
  destruct (doUpdate_loop r (partials_of fields) Pending w3) as [updated w4].
  simpl in Htl.
  destruct updated; try (subst res; discriminate).
  subst res. unfold bind, emit, ret. simpl.
  exists (ECall "processUpdate" [AVal response] :: tb
            ++ [EGlobalPromiseEvent "ajaxBeforeUpdate" [AThis r; AVal response]])%list.
  exists (tl ++ [EAnimationFrame])%list.
  rewrite Htl. unfold w3. cbn [trace]. rewrite Htb. unfold w1. cbn [trace].
  rewrite <- !List.app_assoc. simpl. rewrite <- !List.app_assoc. reflexivity.
Qed.




End Dispatch.

(** *** Confirmation and sending *)

Section Confirmation.
Context {E : Env}.

Lemma quiet_trace (t : list event) :
  Forall quiet t -> fetches t = 0 /\ existsb confirm_machinery t = false.
Proof.
  unfold fetches. induction 1 as [ | ev t [Hf Hc] _ [IH1 IH2]]; simpl; [auto | ].
  rewrite Hf, Hc. auto.
Qed.

Lemma no_machinery_trace (t : list event) :
  Forall (fun ev => confirm_machinery ev = false) t ->
  existsb confirm_machinery t = false.
Proof.
  induction 1 as [ | ev t Hc _ IH]; simpl; [auto | ]. now rewrite Hc.
Qed.

Lemma on_response_quiet (r : request) (response : value) :
  adds quiet (on_response r response).
Proof.
  eapply adds_weaken; [ | apply on_response_adds].
  intros ev H. unfold quiet.
  destruct ev; simpl in *; intuition (subst; auto).
Qed.

Lemma processError_quiet (r : request) (error : error + value) :
  adds quiet (processError r error).
Proof.
  eapply adds_weaken; [ | apply processError_adds].
  intros ev H. unfold quiet.
  destruct ev; simpl in *; intuition (subst; auto).
Qed.

Lemma on_response_discreet (r : request) (response : value) :
  adds discreet (on_response r response).
Proof.
  eapply adds_weaken; [ | apply on_response_adds].
  intros ev H. unfold discreet, quiet.
  destruct ev; simpl in *; repeat split; try reflexivity; try discriminate;
    intuition (subst; try reflexivity; discriminate).
Qed.

Lemma processError_discreet (r : request) (error : error + value) :
  adds discreet (processError r error).
Proof.
  eapply adds_weaken; [ | apply processError_adds].
  intros ev H. unfold discreet, quiet.
  destruct ev; simpl in *; repeat split; try reflexivity; try discriminate;
    intuition (subst; try reflexivity; discriminate).
Qed.

Lemma discreet_trace (t : list event) :
  Forall discreet t ->
  Forall quiet t /\ existsb is_confirmation t = false /\ called "doConfirm" t = false.
Proof.
  unfold called.
  induction 1 as [ | ev t (Hq & Hc & Hd) _ (IH1 & IH2 & IH3)]; simpl; [auto | ].
  rewrite Hc, IH2, IH3. split; [constructor; auto | split; [reflexivity | ]].
  destruct ev; try reflexivity.
  destruct (method =? "doConfirm") eqn:Hm; [ | reflexivity].
  apply String.eqb_eq in Hm. subst. destruct (Hd args eq_refl).
Qed.

(** The body the [data] getter builds. *)
Lemma data_body (r : request) (w : world) :
  opt_data (opts r) <> VNull ->
  exists d fields,
    data r w = (Some (FormData fields),
                {| dom := dom w; trace := (trace w ++ [EConsoleLog d])%list |})
    /\ entries (if typeof (opt_data (opts r)) =? "object"
                then opt_data (opts r) else VObj []) = Some fields.
Proof.
  intros Hnull. unfold data, keys, bind, emit, ret.
  set (d := if typeof (opt_data (opts r)) =? "object" then opt_data (opts r) else VObj []).
  assert (He : exists fields, entries d = Some fields).
  { unfold d. destruct (opt_data (opts r)); simpl; eauto. congruence. }
  destruct He as (fields & He). exists d, fields. rewrite He. cbn [option_map].
  split; [ | reflexivity].
  assert (Hfold : forall l acc : list (string * value),
             fold_left (fun fd kv => (fd ++ [kv])%list) l acc = (acc ++ l)%list).
  { induction l as [ | x l IH]; intros acc; simpl.
    - now rewrite List.app_nil_r.
    - rewrite IH. now rewrite <- List.app_assoc. }
  rewrite Hfold. destruct fields; reflexivity.
Qed.

(** A [null] body: [typeof null] is [object], and [Object.keys(null)]
    throws after the value has been logged. *)
Lemma data_null (r : request) (w : world) :
  opt_data (opts r) = VNull ->
  data r w = (None, {| dom := dom w; trace := (trace w ++ [EConsoleLog VNull])%list |}).
Proof.
  intros Hn. unfold data, bind, emit, ret. rewrite Hn. reflexivity.
Qed.

(** What [send] does up to the point where the handlers of the promise of
    [doAjax] take over: the events recorded, and the handler that runs. *)
Lemma send_outline (r : request) (w : world) :
  exists pre (k : M unit),
    send r w = k {| dom := dom w; trace := (trace w ++ ECall "doAjax" [] :: pre)%list |}
    /\ adds discreet k
    /\ fetches pre = (if can_send r then 1 else 0)
    /\ existsb confirm_machinery pre = false
    /\ existsb is_confirmation pre = false
    /\ called "doConfirm" pre = false.
Proof.
  unfold send, doAjax, headers, can_send.
  rewrite bind_assoc. unfold bind at 1. unfold emit at 1.
  destruct xsrfToken as [token | ].
  - set (hs := (_ ++ (if truthy token then _ else _))%list).
    assert (Hcase : opt_data (opts r) = VNull
                    \/ (opt_data (opts r) <> VNull
                        /\ match opt_data (opts r) with
                           | VNull => false
                           | _ => true
                           end = true)).
    { destruct (opt_data (opts r));
        first [left; reflexivity | right; split; [discriminate | reflexivity]]. }
    destruct Hcase as [Hd | [Hnull Hm]].
    + rewrite Hd. rewrite bind_assoc. unfold bind at 1. rewrite (data_null r _ Hd).
      cbn [dom trace]. unfold bind at 1. unfold ret at 1.
      exists [EConsoleLog VNull],
        (processError r
           (inl (type_error "Cannot convert undefined or null to object"))).
      split; [rewrite <- List.app_assoc; reflexivity | ].
      split; [apply processError_discreet | ]. repeat split; reflexivity.
    + rewrite Hm. rewrite bind_assoc. unfold bind at 1.
      destruct (data_body r
                  {| dom := dom w;
                     trace := (trace w ++ [ECall "doAjax" []])%list |} Hnull)
        as (d & fields & Hdata & _).
      rewrite Hdata. rewrite bind_assoc. unfold bind at 1. unfold emit at 1.
      cbn [dom trace].
      match goal with
      | |- context [fetch ?q] =>
          exists [EConsoleLog d; EFetch q];
          exists (match fetch q with
                  | NetworkError responseError =>
                      processError r (inl (renderError1
                        ("Unable to retrieve a response from the server: "
                           ++ responseError)))
                  | Responded rs =>
                      match settle_response rs with
                      | Fulfilled response => on_response r response
                      | Rejected error => processError r (inl error)
                      | Pending => ret tt
                      end
                  | NoAnswer => ret tt
                  end)
      end.
      split.
      { repeat (rewrite <- List.app_assoc; cbn [app]).
        match goal with
        | |- context [fetch ?q] => destruct (fetch q) as [reason | rs | ]
        end; unfold bind, ret; reflexivity. }
      split.
      { match goal with
        | |- context [fetch ?q] => destruct (fetch q) as [reason | rs | ]
        end;
          [apply processError_discreet
          | destruct (settle_response rs);
            [apply on_response_discreet | apply processError_discreet | apply adds_ret]
          | apply adds_ret]. }
      repeat split; reflexivity.
  - unfold bind at 1. unfold ret at 1.
    exists [], (processError r (inl uri_error)).
    split; [reflexivity | ].
    split; [apply processError_discreet | ]. repeat split; reflexivity.
Qed.

(** Sending starts with [doAjax], never consults the confirmation
    machinery, and issues one network call when the arguments of [fetch]
    can be evaluated, none otherwise. *)
Lemma send_fetches (r : request) (w : world) :
  exists t,
    trace (snd (send r w)) = (trace w ++ ECall "doAjax" [] :: t)%list
    /\ fetches (ECall "doAjax" [] :: t) = (if can_send r then 1 else 0)
    /\ existsb confirm_machinery t = false.
Proof.
  destruct (send_outline r w) as (pre & k & Hs & Hk & Hf & Hm & _).
  destruct (Hk {| dom := dom w; trace := (trace w ++ ECall "doAjax" [] :: pre)%list |})
    as (t & Ht & F).
  apply discreet_trace in F as (F & _ & _).
  apply quiet_trace in F as [F1 F2].
  exists (pre ++ t)%list. rewrite Hs, Ht. cbn [trace].
  split; [rewrite <- List.app_assoc; reflexivity | ].
  unfold fetches in *. cbn [filter is_fetch].
  rewrite filter_app, length_app, existsb_app, F1, Hf, Hm, F2.
  split; [lia | reflexivity].
Qed.

Lemma send_starts_with_doAjax (r : request) (w : world) :
  exists t,
    trace (snd (send r w)) = (trace w ++ ECall "doAjax" [] :: t)%list
    /\ existsb confirm_machinery t = false.
Proof.
  destruct (send_fetches r w) as (t & Ht & _ & Hm). eauto.
Qed.

(** C7 (what the code does): with a prompt and a [handleConfirmMessage]
    callback, [doConfirm] only calls the callback, with the prompt, and
    answers by it; neither [confirm] nor the [ajaxConfirmMessage] hook is
    used anywhere; a literal [false] ends the request there, with nothing
    more in the trace; any other answer runs [doAjax], but the network
    call is then made only when the arguments of [fetch] can be evaluated:
    with [options.data] at [null], or with an XSRF cookie that cannot be
    decoded, an approved request makes no network call at all. *)
Theorem confirm_callback_owns_decision (r : request) (w : world) (f : nat) :
  truthy (opt_confirm (opts r)) = true ->
  opt_handleConfirmMessage (opts r) = VFunc f ->
  let prompt := opt_confirm (opts r) in
  let answer := callback f r [prompt] in
  let asked :=
    {| dom := dom w;
       trace := (trace w ++ [ECall "doConfirm" [];
                             ECallback "handleConfirmMessage" [prompt]])%list |} in
  doConfirm r w = (Fulfilled (negb (is_false answer)), asked)
  /\ confirm_and_send r w = (if is_false answer then (tt, asked) else send r asked)
  /\ exists t,
       trace (snd (confirm_and_send r w)) = (trace asked ++ t)%list
       /\ existsb confirm_machinery t = false
       /\ (is_false answer = true -> t = [])
       /\ (is_false answer = false ->
           (exists t', t = ECall "doAjax" [] :: t')
           /\ fetches t = (if can_send r then 1 else 0)).
Proof.
  intros Hc Hf prompt answer asked. subst prompt.
  assert (Hp : confirm r = opt_confirm (opts r)).
  { unfold confirm, or_else. now rewrite Hc. }
  assert (Hd : doConfirm r w = (Fulfilled (negb (is_false answer)), asked)).
  { unfold doConfirm, bind, emit, ret. rewrite Hf, Hp. fold answer.
    destruct (is_false answer); cbn [negb fst snd]; f_equal; unfold asked;
      f_equal; trace_eq. }
  assert (Hs : confirm_and_send r w
               = (if is_false answer then (tt, asked) else send r asked)).
  { unfold confirm_and_send. rewrite Hp, Hc. unfold bind. rewrite Hd.
    destruct (is_false answer); reflexivity. }
  split; [exact Hd | split; [exact Hs | ]].
  rewrite Hs. destruct (is_false answer) eqn:Ha.
  - exists []. cbn [snd]. rewrite List.app_nil_r.
    repeat split; auto; discriminate.
  - destruct (send_fetches r asked) as (t & Ht & Hn & Hq).
    exists (ECall "doAjax" [] :: t). split; [exact Ht | ].
    split; [exact Hq | ].
    split; [discriminate | ].
    intros _. split; [eauto | exact Hn].
Qed.

(** *** The request body *)

(** C6 (as amended): the body built by the [data] getter is always a
    [FormData], hence multipart: it holds the entries of [options.data]
    when that is an object and nothing otherwise, and it does not depend
    on [options.files]. *)
Theorem body_is_always_form_data (r : request) (w : world) :
  (forall b, fst (data r w) = Some b -> is_multipart b = true)
  /\ (typeof (opt_data (opts r)) <> "object" ->
      fst (data r w) = Some (FormData []))
  /\ (forall fields,
        typeof (opt_data (opts r)) = "object" ->
        entries (opt_data (opts r)) = Some fields ->
        fst (data r w) = Some (FormData fields))
  /\ (forall v, fst (data (set_files r v) w) = fst (data r w)).
Proof.
  split; [ | split; [ | split]].
  - intros b. unfold data, keys, bind, emit, ret.
    match goal with |- context [entries ?d] => destruct (entries d) as [fields | ] end;
      cbn [option_map fst]; [ | discriminate].
    destruct (0 <? List.length (map fst fields))%nat; intros [= <-]; reflexivity.
  - intros Hty. apply String.eqb_neq in Hty.
    unfold data, bind, emit, ret. rewrite Hty. reflexivity.
  - intros fields Hty He.
    assert (Hnull : opt_data (opts r) <> VNull).
    { intros Hn. rewrite Hn in He. discriminate. }
    destruct (data_body r w Hnull) as (d & fields' & Hd & He').
    apply String.eqb_eq in Hty. rewrite Hty in He'.
    rewrite Hd. cbn [fst]. congruence.
  - intros v. reflexivity.
Qed.

End Confirmation.

End RequestFacts.

(* ===================================================================== *)
(** ** The properties at concrete requests *)
(* ===================================================================== *)

Module Examples.
Import Js Request Demo Observe Probe RequestFacts.

(** C10 at [null]. *)
Lemma null_element_is_rejected :
  constructor (E := browser)
    {| element := VNull; handler := VStr "onSave"; opts := no_options |} (start browser page)
  = Threw element_error (start browser page)
  /\ checkRequest
       {| element := VUndefined; handler := VStr "onSave"; opts := no_options |}
     <> Some element_error.
Proof.
  apply (constructor_rejects_non_element (E := browser));
    [discriminate | intros e; discriminate].
Defined.

(** C8 at the redirect key of a payload that also carries a partial. *)
Lemma redirect_key_is_not_rendered :
  substr 0 8 "X_WINTER_REDIRECT" = "X_WINTER"
  /\ ~ In "X_WINTER_REDIRECT"
        (map fst (partials_of [ ("X_WINTER_REDIRECT", VStr "/done");
                                ("foo", VStr "<p>hi</p>") ])).
Proof.
  split; [reflexivity | ].
  apply (proj1 (side_channel_key_is_never_a_partial (E := browser)
                  into_result
                  (VObj [ ("X_WINTER_REDIRECT", VStr "/done");
                          ("foo", VStr "<p>hi</p>") ])
                  (start browser page) "X_WINTER_REDIRECT" eq_refl)).
  reflexivity.
Defined.

(** C9 at a partial whose name matches nothing on the page. *)
Lemma missing_target_is_skipped :
  update_partial (E := browser) (on_save [("update", VObj [])])
    ("sidebar", VStr "<p>hi</p>") (start browser page)
  = (true, start browser page)
  /\ (forall st,
        doUpdate_loop (E := browser) (on_save [("update", VObj [])])
          [("sidebar", VStr "<p>hi</p>"); ("foo", VStr "x")] st (start browser page)
        = doUpdate_loop (E := browser) (on_save [("update", VObj [])])
            [("foo", VStr "x")] (resolved st) (start browser page))
  /\ fst (doUpdate (E := browser) (on_save [("update", VObj [])])
            [("sidebar", VStr "<p>hi</p>"); ("foo", VStr "x")] (start browser page))
     = Fulfilled tt.
Proof.
  apply (unmatched_selector_is_skipped (E := browser)
           (on_save [("update", VObj [])]) ("sidebar", VStr "<p>hi</p>")
           [("foo", VStr "x")] (start browser page) Replace "sidebar");
    reflexivity.
Defined.

(** C4 at a [beforeUpdate] callback that answers [false]. *)
Lemma vetoed_update_stops :
  processUpdate (E := browser) (on_save [("beforeUpdate", VFunc 0)])
    failure_payload (start browser page)
  = (Rejected tt,
     at_trace browser page [ ECall "processUpdate" [AVal failure_payload];
                             ECallback "beforeUpdate" [failure_payload] ])
  /\ on_response (E := browser) (on_save [("beforeUpdate", VFunc 0)])
       failure_payload (start browser page)
     = (tt,
        at_trace browser page [ ECall "processUpdate" [AVal failure_payload];
                                ECallback "beforeUpdate" [failure_payload] ]).
Proof.
  apply (beforeUpdate_false_aborts (E := browser)
           (on_save [("beforeUpdate", VFunc 0)]) failure_payload (start browser page) 0);
    reflexivity.
Defined.

(** C5 at the text [hi], with an empty [update] map: two partials, the
    first looked for under the selector [0], which the page refuses;
    nothing is written and nothing is dispatched. *)
Lemma text_hi_is_two_partials :
  settle_response (E := browser)
    {| rs_status := 200; rs_content_type := Some "text/html";
       rs_json := inl "not JSON"; rs_text := inr "hi" |}
  = Fulfilled (VStr "hi")
  /\ option_map partials_of (entries (VStr "hi")) = Some (indexed (units "hi"))
  /\ List.length (indexed (units "hi")) = String.length "hi"
  /\ (exists t1 t2,
        trace (snd (processUpdate (E := browser) (on_save [("update", VObj [])])
                      (VStr "hi") (start browser page)))
        = (trace (start browser page) ++ t1
             ++ ECall "doUpdate" [AVal (VObj (indexed (units "hi")))] :: t2)%list)
  /\ resolve_selector (E := browser) (on_save [("update", VObj [])]) "0"
     = Some (Replace, "0")
  /\ (exists t,
        snd (on_response (E := browser) (on_save [("update", VObj [])])
               (VStr "hi") (start browser page))
        = at_trace browser page t
        /\ Forall (fun ev => is_write ev = false) t
        /\ called "processResponse" t = false
        /\ called "processError" t = false).
Proof.
  destruct (text_body_is_split_by_code_unit (E := browser)
              (on_save [("update", VObj [])])
              {| rs_status := 200; rs_content_type := Some "text/html";
                 rs_json := inl "not JSON"; rs_text := inr "hi" |}
              "h" "i" (start browser page)
              (or_introl eq_refl) eq_refl eq_refl)
    as (H1 & H2 & H3 & H4 & H5 & H6).
  split; [exact H1 | split; [exact H2 | split; [exact H3 | split; [ | split]]]].
  - apply H4; [reflexivity | exists (VBool true); reflexivity].
  - apply (H5 VUndefined); reflexivity.
  - apply H6. intros m selector d Hr.
    injection Hr as <- <-. reflexivity.
Defined.

(** C5, the claim refuted: the text [hi] of a 200 without a JSON content
    type comes out of the update phase's extraction as two partials, [0]
    and [1], one per code unit, and not as one partial holding the text. *)
Lemma text_body_is_not_one_partial :
  settle_response (E := browser)
    {| rs_status := 200; rs_content_type := Some "text/html";
       rs_json := inl "not JSON"; rs_text := inr "hi" |}
  = Fulfilled (VStr "hi")
  /\ option_map partials_of (entries (VStr "hi"))
     = Some [("0", VStr "h"); ("1", VStr "i")].
Proof.
  split; reflexivity.
Qed.

(** C2 at the payload [{X_WINTER_REDIRECT: "/done"}]: one navigation. *)
Lemma done_is_visited_once :
  exists t,
    snd (processResponse (E := browser) (on_save [("flash", VBool true)])
           (VObj [ ("X_WINTER_REDIRECT", VStr "/done");
                   ("X_WINTER_FLASH_MESSAGES", VObj [("success", VStr "Saved")]);
                   ("X_WINTER_ASSETS", VObj [("js", VArr [VStr "a.js"])]) ])
           (start browser page))
    = at_trace browser page t
    /\ existsb flash_or_asset t = false
    /\ navigations t = [VStr "/done"].
Proof.
  apply (forced_redirect_is_exclusive (E := browser)
           (on_save [("flash", VBool true)])
           (VObj [ ("X_WINTER_REDIRECT", VStr "/done");
                   ("X_WINTER_FLASH_MESSAGES", VObj [("success", VStr "Saved")]);
                   ("X_WINTER_ASSETS", VObj [("js", VArr [VStr "a.js"])]) ])
           (start browser page));
    [reflexivity | left; reflexivity].
Defined.

(** The same payload when a module cancels [ajaxRedirect]: no navigation. *)
Lemma done_is_not_visited_when_cancelled :
  navigations
    (trace (snd (processResponse (E := env "ajaxRedirect" 1 NoAnswer) (on_save [])
                   (VObj [("X_WINTER_REDIRECT", VStr "/done")]) (start guarded page))))
  = [].
Proof.
  reflexivity.
Qed.


(** There the update phase is fulfilled. *)
Lemma failure_update_is_fulfilled :
  settle_response (E := browser) failure_response = Fulfilled failure_payload
  /\ fst (processUpdate (E := browser) into_result failure_payload (start browser page))
     = Fulfilled tt.
Proof.
  split; reflexivity.
Qed.

(** The whole run of that request: [#result] receives the partial, then
    the validation hook is broadcast with the fields. *)
Lemma failure_run :
  let w := world_of (constructor (E := failing)
                       into_result (start failing page)) in
  dom w = [ (1, ("#result", "<p>hi</p>")); (2, ("foo", "")) ]
  /\ filter update_or_report (trace w)
     = [ ECall "doUpdate" [AVal (VObj [("foo", VStr "<p>hi</p>")])];
         ESetInnerHTML "foo" 1 "<p>hi</p>";
         ECall "processValidationErrors"
           [AVal (VObj [("name", VArr [VStr "required"])])] ].
Proof.
  split; reflexivity.
Qed.

(** The same response to a request made without an [update] map: the
    update phase is rejected inside [doUpdate], nothing is written and
    nothing is dispatched. *)
Lemma failure_run_without_update_map :
  let w := world_of (constructor (E := failing) (on_save []) (start failing page)) in
  dom w = page
  /\ filter update_or_report (trace w)
     = [ ECall "doUpdate" [AVal (VObj [("foo", VStr "<p>hi</p>")])] ].
Proof.
  split; reflexivity.
Qed.


(** C7 at a callback that answers [false]: nothing follows the callback. *)
Lemma refused_request_is_silent :
  let r := on_save [("confirm", VStr "Sure?"); ("handleConfirmMessage", VFunc 0)] in
  let asked :=
    at_trace listened page
      [ECall "doConfirm" []; ECallback "handleConfirmMessage" [VStr "Sure?"]] in
  doConfirm (E := listened) r (start listened page)
  = (Fulfilled false, asked)
  /\ confirm_and_send (E := listened) r (start listened page) = (tt, asked).
Proof.
  split; reflexivity.
Qed.

(** C7 at a callback that answers [true] while [options.data] is [null]:
    the request is approved, [doAjax] runs, and no network call is made. *)
Lemma approved_null_data_is_not_sent :
  let r := on_save [ ("confirm", VStr "Sure?"); ("handleConfirmMessage", VFunc 1);
                     ("data", VNull) ] in
  let asked :=
    at_trace plain_page page
      [ECall "doConfirm" []; ECallback "handleConfirmMessage" [VStr "Sure?"]] in
  doConfirm (E := plain_page) r (start plain_page page) = (Fulfilled true, asked)
  /\ exists t,
       trace (snd (confirm_and_send (E := plain_page) r (start plain_page page)))
       = (trace asked ++ ECall "doAjax" [] :: t)%list
       /\ fetches (ECall "doAjax" [] :: t) = 0
       /\ existsb confirm_machinery (ECall "doAjax" [] :: t) = false.
Proof.
  destruct (confirm_callback_owns_decision (E := plain_page)
              (on_save [ ("confirm", VStr "Sure?"); ("handleConfirmMessage", VFunc 1);
                         ("data", VNull) ])
              (start plain_page page) 1 eq_refl eq_refl)
    as (H1 & _ & t & Ht & Hm & _ & Hsent).
  destruct (Hsent eq_refl) as [[t' ->] Hn].
  split; [exact H1 | ].
  exists t'. split; [exact Ht | split; [exact Hn | exact Hm]].
Defined.

(** The whole run at that input: the [TypeError] of [Object.keys(null)] is
    alerted, and nothing was fetched. *)
Lemma approved_null_data_run :
  let w := world_of (constructor (E := plain_page)
                       (on_save [ ("confirm", VStr "Sure?");
                                  ("handleConfirmMessage", VFunc 1);
                                  ("data", VNull) ])
                       (start plain_page page)) in
  fetches (trace w) = 0
  /\ alerts (trace w) = [VStr "Cannot convert undefined or null to object"].
Proof.
  split; reflexivity.
Qed.

(** The same approval with [options.data] absent and an XSRF cookie that
    cannot be decoded: the [URIError] is alerted, and nothing was fetched. *)
Lemma approved_stale_cookie_run :
  let w := world_of (constructor (E := stale)
                       (on_save [ ("confirm", VStr "Sure?");
                                  ("handleConfirmMessage", VFunc 1) ])
                       (start stale page)) in
  fetches (trace w) = 0
  /\ alerts (trace w) = [VStr "URI malformed"].
Proof.
  split; reflexivity.
Qed.

(** C6, the claim refuted: [options.files] is not enabled, and the body
    built from [options.data] is a [FormData], sent as multipart. *)
Lemma body_without_files_is_multipart :
  let r := on_save [("data", VObj [("name", VStr "Ada")])] in
  fst (files (E := browser) r (start browser page)) = false
  /\ fst (data (E := browser) r (start browser page))
     = Some (FormData [("name", VStr "Ada")])
  /\ is_multipart (FormData [("name", VStr "Ada")]) = true.
Proof.
  repeat split; reflexivity.
Qed.

(** C3 at [oops]: the constructor goes on to the setup hook. *)
Lemma oops_is_sent :
  checkRequest
    {| element := VUndefined; handler := VStr "oops"; opts := no_options |} = None
  /\ fetches
       (trace (world_of (constructor (E := plain_page)
                           {| element := VUndefined; handler := VStr "oops";
                              opts := no_options |} (start plain_page page)))) = 1.
Proof.
  split; reflexivity.
Qed.

End Examples.

(* ===================================================================== *)
(** ** Further properties of the class *)
(* ===================================================================== *)

Module Coverage.
Import Js Request Observe Probe RequestFacts.

(** *** Transport: how a response settles [doAjax] *)

Section Transport.
Context {E : Env}.

Lemma error_branch (rs : response) :
  response_ok rs = false -> rs_status rs <> 406%Z ->
  negb (response_ok rs) && negb (rs_status rs =? 406)%Z = true.
Proof.
  intros Hok Hs. rewrite Hok. apply Z.eqb_neq in Hs. now rewrite Hs.
Qed.

Lemma success_branch (rs : response) :
  response_ok rs = true \/ rs_status rs = 406%Z ->
  negb (response_ok rs) && negb (rs_status rs =? 406)%Z = false.
Proof.
  intros [H | H]; rewrite H; [reflexivity | ].
  rewrite Z.eqb_refl. apply andb_false_r.
Qed.

(** X1: a response whose status is neither 2xx nor 406 never fulfils the
    promise of [doAjax]; it rejects it, except that a JSON body equal to
    [null] (or one the engine reads as [undefined]) leaves the promise
    pending for ever. *)
Theorem error_status_never_fulfils (rs : response) :
  response_ok rs = false ->
  rs_status rs <> 406%Z ->
  (forall payload, settle_response rs <> Fulfilled payload)
  /\ (settle_response rs = Pending
      <-> is_json rs = true
          /\ exists responseData, rs_json rs = inr responseData
                                  /\ nullish responseData = true).
Proof.
  intros Hok Hs. unfold settle_response. rewrite (error_branch rs Hok Hs).
  destruct (is_json rs).
  - destruct (rs_json rs) as [reason | responseData].
    + split; [discriminate | ].
      split; [discriminate | intros (_ & d & [=] & _)].
    + unfold get_prop.
      destruct responseData; (split; [try discriminate | ]);
        (split; [try discriminate; eauto | ]);
        try (intros (_ & d & [= <-] & Hn); discriminate); reflexivity.
  - destruct (rs_text rs); (split; [discriminate | ]);
      (split; [discriminate | intros [[=] _]]).
Qed.

(** X2: a 2xx or 406 response always settles the promise: it fulfils it
    exactly when the body can be read (parsed as JSON under a JSON content
    type, read as text otherwise) and rejects it with an [Error]
    otherwise. *)
Theorem success_status_always_settles (rs : response) :
  response_ok rs = true \/ rs_status rs = 406%Z ->
  settle_response rs <> Pending
  /\ ((exists payload, settle_response rs = Fulfilled payload)
      <-> (if is_json rs
           then exists responseData, rs_json rs = inr responseData
           else exists text, rs_text rs = inr text)).
Proof.
  intros Hs. unfold settle_response. rewrite (success_branch rs Hs).
  destruct (is_json rs).
  - destruct (rs_json rs) as [reason | responseData];
      (split; [discriminate | ]); split.
    + intros [payload [=]].
    + intros [d [=]].
    + eauto.
    + eauto.
  - destruct (rs_text rs) as [reason | text];
      (split; [discriminate | ]); split.
    + intros [payload [=]].
    + intros [d [=]].
    + eauto.
    + eauto.
Qed.

Lemma set_fields_no_proto (src target : list (string * value)) :
  ~ In "__proto__" (map fst target) ->
  ~ In "__proto__" (map fst (set_fields target src)).
Proof.
  unfold set_fields. revert target.
  induction src as [ | [k v] rest IH]; simpl; intros target H; [exact H | ].
  apply IH. now apply JsFacts.set_field_no_proto.
Qed.

(** X3: in the object [doAjax] resolves with for a JSON body, the success
    flag and the response code are those of the HTTP status, whatever the
    body says under these two keys; a key [__proto__] of the body is not
    copied (the assignment goes to the prototype setter); every other key
    of an object body keeps its value. *)
Theorem success_flag_follows_status (rs : response) (responseData : value) :
  response_ok rs = true \/ rs_status rs = 406%Z ->
  is_json rs = true ->
  rs_json rs = inr responseData ->
  exists fields,
    settle_response rs = Fulfilled (VObj fields)
    /\ lookup "X_WINTER_SUCCESS" fields
       = Some (VBool (negb (rs_status rs =? 406)%Z))
    /\ lookup "X_WINTER_RESPONSE_CODE" fields = Some (VNum (rs_status rs))
    /\ lookup "__proto__" fields = None
    /\ (forall body k,
          responseData = VObj body ->
          NoDup (map fst body) ->
          k <> "X_WINTER_SUCCESS" ->
          k <> "X_WINTER_RESPONSE_CODE" ->
          k <> "__proto__" ->
          lookup k fields = lookup k body).
Proof.
  intros Hs Hj Hb. unfold settle_response.
  rewrite (success_branch rs Hs), Hj, Hb.
  exists (set_field "X_WINTER_RESPONSE_CODE" (VNum (rs_status rs))
            (set_field "X_WINTER_SUCCESS" (VBool (negb (rs_status rs =? 406)%Z))
               (set_fields [] match entries responseData with
                              | Some fs => fs
                              | None => []
                              end))).
  split; [reflexivity | split; [ | split; [ | split]]].
  - rewrite !JsFacts.lookup_set_field by reflexivity. reflexivity.
  - rewrite !JsFacts.lookup_set_field by reflexivity. reflexivity.
  - apply JsFacts.lookup_absent.
    do 2 apply JsFacts.set_field_no_proto.
    apply set_fields_no_proto. simpl. tauto.
  - intros body k -> Hnd Hk1 Hk2 Hk3. cbn [entries].
    rewrite (JsFacts.set_fields_distinct body []) by (simpl; auto).
    rewrite !JsFacts.lookup_set_field by reflexivity.
    apply String.eqb_neq in Hk1, Hk2.
    rewrite (String.eqb_sym _ k), Hk2, (String.eqb_sym _ k), Hk1.
    cbn [app]. apply JsFacts.lookup_creatable. now apply JsFacts.creatable_iff.
Qed.

End Transport.

(** *** The update phase *)

Section UpdatePhase.
Context {E : Env}.

Lemma no_plain_entry_no_partial (fields : list (string * value)) :
  Forall (fun kv => substr 0 8 (fst kv) = "X_WINTER") fields ->
  partials_of fields = [].
Proof.
  intros H. unfold partials_of.
  generalize (@nil (string * value)) as acc.
  induction H as [ | [k v] rest Hk _ IH]; simpl; intros acc.
  - reflexivity.
  - simpl in Hk. rewrite Hk, String.eqb_refl. simpl.
    rewrite IH. destruct acc; reflexivity.
Qed.

(** X4: when every key of the payload is a side-channel key (or there is
    none) and [beforeUpdate] does not veto, [processUpdate] is fulfilled at
    once: the [ajaxBeforeUpdate] hook is not broadcast, [doUpdate] is not
    called, no redraw is awaited and the document is untouched. *)
Theorem payload_without_partials_skips_update
    (r : request) (response : value) (fields : list (string * value)) (w : world) :
  entries response = Some fields ->
  Forall (fun kv => substr 0 8 (fst kv) = "X_WINTER") fields ->
  before_vetoes r response = false ->
  processUpdate r response w
  = (Fulfilled tt,
     {| dom := dom w; trace := (trace w ++ before_events r response)%list |}).
Proof.
  intros He Hall Hb. rewrite (processUpdate_unfold r response w Hb), He.
  cbv zeta. rewrite (no_plain_entry_no_partial fields Hall). reflexivity.
Qed.

(** X5: when the [ajaxBeforeUpdate] hook rejects, [processUpdate] is
    rejected without calling [doUpdate]: the document is untouched, and the
    fulfilment handler dispatches nothing, neither [processResponse] nor
    [processError]. *)
Theorem update_hook_rejection_aborts
    (r : request) (response : value) (fields : list (string * value)) (w : world) :
  entries response = Some fields ->
  partials_of fields <> [] ->
  before_vetoes r response = false ->
  globalPromiseEvent "ajaxBeforeUpdate" [AThis r; AVal response] = Rejected tt ->
  let aborted :=
    {| dom := dom w;
       trace := (trace w ++ before_events r response
                   ++ [EGlobalPromiseEvent "ajaxBeforeUpdate"
                         [AThis r; AVal response]])%list |} in
  processUpdate r response w = (Rejected tt, aborted)
  /\ on_response r response w = (tt, aborted).
Proof.
  intros He Hne Hb Hh aborted.
  assert (H : processUpdate r response w = (Rejected tt, aborted)).
  { rewrite (processUpdate_unfold r response w Hb), He. cbv zeta.
    rewrite (partials_present fields Hne).
    unfold bind, emit, ret. rewrite Hh. cbn [fst snd dom trace].
    unfold aborted. now rewrite <- List.app_assoc. }
  split; [exact H | ].
  unfold on_response, bind. rewrite H. reflexivity.
Qed.

(** X6: the value the [ajaxBeforeUpdate] hook resolves with is ignored:
    whatever it is, [false] included, [doUpdate] runs on the partial set
    right after the broadcast, and [processUpdate] settles as [doUpdate]
    does, waiting for a redraw when it is fulfilled. *)
Theorem update_hook_value_is_ignored
    (r : request) (response : value) (fields : list (string * value))
    (w : world) (v : value) :
  entries response = Some fields ->
  partials_of fields <> [] ->
  before_vetoes r response = false ->
  globalPromiseEvent "ajaxBeforeUpdate" [AThis r; AVal response] = Fulfilled v ->
  let run :=
    doUpdate r (partials_of fields)
      {| dom := dom w;
         trace := (trace w ++ before_events r response
                     ++ [EGlobalPromiseEvent "ajaxBeforeUpdate"
                           [AThis r; AVal response]])%list |} in
  fst (processUpdate r response w) = fst run
  /\ dom (snd (processUpdate r response w)) = dom (snd run)
  /\ trace (snd (processUpdate r response w))
     = (trace (snd run)
          ++ match fst run with Fulfilled _ => [EAnimationFrame] | _ => [] end)%list.
Proof.
  intros He Hne Hb Hh run.
  assert (Hp : processUpdate r response w
               = let (updated, w2) := run in
                 match updated with
                 | Fulfilled _ =>
                     (Fulfilled tt,
                      {| dom := dom w2; trace := (trace w2 ++ [EAnimationFrame])%list |})
                 | Rejected _ => (Rejected tt, w2)
                 | Pending => (Pending, w2)
                 end).
  { rewrite (processUpdate_unfold r response w Hb), He. cbv zeta.
    rewrite (partials_present fields Hne).
    unfold bind at 1. unfold emit at 1. rewrite Hh. cbn [fst snd dom trace].
    rewrite <- List.app_assoc. unfold bind. subst run.
    destruct (doUpdate r (partials_of fields) _) as [[[] | [] | ] w2]; reflexivity. }
  rewrite Hp. destruct run as [[[] | [] | ] w2]; cbn [fst snd dom trace];
    rewrite ?List.app_nil_r; auto.
Qed.

(** X7: on an object (distinct keys), the partial set holds exactly the
    entries whose key does not start with [X_WINTER] and is not
    [__proto__] (assigning that key creates no property), each with its
    value: nothing else is dropped and nothing is added. *)
Theorem partials_are_the_plain_entries
    (fields : list (string * value)) (k : string) (v : value) :
  NoDup (map fst fields) ->
  (In (k, v) (partials_of fields)
   <-> In (k, v) fields /\ substr 0 8 k <> "X_WINTER" /\ k <> "__proto__").
Proof.
  intros Hnd. rewrite (partials_of_distinct fields Hnd), filter_In.
  unfold partial_entry, plain. cbn [fst].
  rewrite andb_true_iff, negb_true_iff, String.eqb_neq, JsFacts.creatable_iff.
  tauto.
Qed.

Lemma substring_all (s : string) : substring 0 (String.length s) s = s.
Proof.
  induction s as [ | c s IH]; simpl; [reflexivity | now rewrite IH].
Qed.




End UpdatePhase.

(** *** What an update does to the document *)

Section Merging.
Context {E : Env}.

(** X9: one iteration of [doUpdate] whose selector the document accepts
    does not throw; it assigns [innerHTML] once for each element the
    selector matches, in the order of the match, and to nothing else;
    each assignment gives the element what it holds at that moment merged
    with the sanitized content (replaced, appended to or prepended to, by
    the mode); the document and the trace change by these assignments
    only; and in replace mode every assigned value is the sanitized
    content itself.  Nothing is assumed about what the document reads back
    after an assignment. *)
Theorem matched_elements_receive_the_content
    (r : request) (p : string * value) (w : world)
    (m : mode) (selector : string) (elements : list nat) :
  resolve_selector r (fst p) = Some (m, selector) ->
  querySelectorAll (dom w) selector = Some elements ->
  exists ws,
    update_partial r p w
    = (true, {| dom := replay (dom w) ws;
                trace := (trace w ++ writes (fst p) ws)%list |})
    /\ map fst ws = elements
    /\ merged m (sanitize (snd p)) (dom w) ws
    /\ (m = Replace -> map snd ws = map (fun _ => sanitize (snd p)) elements).
Proof.
  exact (update_partial_writes r p w m selector elements).
Qed.

Lemma writes_of_constant (partial fresh : string) (ws : list (nat * string))
    (elements : list nat) :
  map fst ws = elements ->
  map snd ws = map (fun _ => fresh) elements ->
  writes partial ws = map (fun el => ESetInnerHTML partial el fresh) elements.
Proof.
  revert elements. induction ws as [ | [el html] ws IH]; intros elements H1 H2.
  - simpl in H1. subst elements. reflexivity.
  - simpl in H1. subst elements. simpl in H2. injection H2 as -> H2.
    simpl. f_equal. apply IH; [reflexivity | exact H2].
Qed.

(** X10: in replace mode the assignments of an iteration do not depend on
    the document: from any two worlds in which the selector matches the
    same elements, the iteration records the same assignments, one per
    matched element, each of the sanitized content; so applying a partial
    again while its selector matches the same elements repeats the
    assignments of the first application. *)
Theorem replace_assignments_ignore_the_document
    (r : request) (p : string * value) (w1 w2 : world)
    (selector : string) (elements : list nat) :
  resolve_selector r (fst p) = Some (Replace, selector) ->
  querySelectorAll (dom w1) selector = Some elements ->
  querySelectorAll (dom w2) selector = Some elements ->
  trace (snd (update_partial r p w1))
  = (trace w1
       ++ map (fun el => ESetInnerHTML (fst p) el (sanitize (snd p))) elements)%list
  /\ trace (snd (update_partial r p w2))
     = (trace w2
          ++ map (fun el => ESetInnerHTML (fst p) el (sanitize (snd p))) elements)%list.
Proof.
  intros Hs H1 H2.
  destruct (update_partial_writes r p w1 Replace selector elements Hs H1)
    as (ws1 & -> & Hels1 & _ & Hr1).
  destruct (update_partial_writes r p w2 Replace selector elements Hs H2)
    as (ws2 & -> & Hels2 & _ & Hr2).
  cbn [snd trace].
  rewrite (writes_of_constant _ _ ws1 elements Hels1 (Hr1 eq_refl)).
  rewrite (writes_of_constant _ _ ws2 elements Hels2 (Hr2 eq_refl)).
  split; reflexivity.
Qed.

End Merging.

(** *** Computations that only log *)

Section Logging.
Context {E : Env}.

Lemma logs_ret {A : Type} (P : event -> Prop) (a : A) : logs P (ret a).
Proof.
  intros [d t]. exists []. simpl. rewrite List.app_nil_r. auto.
Qed.

Lemma logs_emit (P : event -> Prop) (ev : event) : P ev -> logs P (emit ev).
Proof.
  intros H w. exists [ev]. simpl. auto.
Qed.

Lemma logs_bind {A B : Type} (P : event -> Prop) (c : M A) (k : A -> M B) :
  logs P c -> (forall a, logs P (k a)) -> logs P (bind c k).
Proof.
  intros Hc Hk w. unfold bind.
  destruct (Hc w) as (t1 & H1 & F1).
  destruct (c w) as [a w1]. simpl in H1. subst w1.
  destruct (Hk a {| dom := dom w; trace := (trace w ++ t1)%list |}) as (t2 & H2 & F2).
  exists (t1 ++ t2)%list. split.
  - rewrite H2. cbn [dom trace]. now rewrite List.app_assoc.
  - apply Forall_app; auto.
Qed.

Lemma logs_weaken {A : Type} (P Q : event -> Prop) (c : M A) :
  (forall ev, P ev -> Q ev) -> logs P c -> logs Q c.
Proof.
  intros HPQ Hc w. destruct (Hc w) as (t & H & F).
  exists t. split; [exact H | ]. eapply Forall_impl; eauto.
Qed.

End Logging.

Ltac logs_step :=
  match goal with
  | |- logs _ (ret _) => apply logs_ret
  | |- logs _ (emit _) => apply logs_emit
  | |- logs _ (bind _ _) => apply logs_bind; [ | intros ? ]
  | |- logs _ (match ?x with _ => _ end) => destruct x
  end.

Ltac logs_auto := repeat logs_step.

(** *** The dispatch routines *)

Section Routines.
Context {E : Env}.

Lemma processErrorMessage_logs (r : request) (message : value) :
  logs error_event (processErrorMessage r message).
Proof.
  unfold processErrorMessage. logs_auto; simpl; auto.
Qed.

Lemma processValidationErrors_logs (r : request) (fields : value) :
  logs error_event (processValidationErrors r fields).
Proof.
  unfold processValidationErrors. logs_auto; simpl; auto.
Qed.

Lemma processError_logs (r : request) (error : error + value) :
  logs error_event (processError r error).
Proof.
  unfold processError.
  apply logs_bind; [apply logs_emit; simpl; auto | intros _].
  destruct error as [e | response]; [apply processErrorMessage_logs | ].
  destruct (nullish response); [apply logs_ret | ].
  apply logs_bind; [ | intros _].
  - destruct (truthy (field response "X_WINTER_ERROR_FIELDS"));
      [apply processValidationErrors_logs | apply logs_ret].
  - destruct (truthy (field response "X_WINTER_ERROR_MESSAGE"));
      [apply processErrorMessage_logs | apply logs_ret].
Qed.

Lemma processResponse_logs (r : request) (response : value) :
  logs success_event (processResponse r response).
Proof.
  unfold processResponse, processRedirect, processFlashMessages, processAssets.
  logs_auto; simpl; auto.
Qed.

(** The outcome of the error-message routine, case by case. *)
Lemma processErrorMessage_outcome (r : request) (message : value) (w : world) :
  exists t,
    snd (processErrorMessage r message w)
    = {| dom := dom w;
         trace := (trace w ++ ECall "processErrorMessage" [AVal message] :: t)%list |}
    /\ alerts t = (if message_vetoed r message then [] else [message])
    /\ (forall f, opt_handleErrorMessage (opts r) = VFunc f ->
                  callback f r [message] = VBool false ->
                  t = [ECallback "handleErrorMessage" [message]]).
Proof.
  unfold processErrorMessage, message_vetoed, bind, emit, ret.
  destruct (opt_handleErrorMessage (opts r)) as [ | | | | | | | f | ];
    cbn [fst snd orb];
    try (destruct (globalEvent "ajaxErrorMessage" [AVal message]); cbn [negb];
         eexists; (split; [f_equal; trace_eq | split; [reflexivity | discriminate]])).
  destruct (callback f r [message]) as [ | | [ | ] | | | | | | ] eqn:Hc;
    cbn [is_false orb];
    try (destruct (globalEvent "ajaxErrorMessage" [AVal message]); cbn [negb];
         eexists;
         (split; [f_equal; trace_eq
                 | split; [reflexivity | intros f' [= <-]; congruence]])).
Qed.

(** X11: the error-message routine alerts the message exactly once, unless
    [handleErrorMessage] answers [false] or the [ajaxErrorMessage] hook
    cancels, in which cases nothing is alerted; it never touches the
    document, and a veto by the callback keeps the hook from being
    broadcast at all. *)
Theorem error_message_is_alerted_unless_vetoed
    (r : request) (message : value) (w : world) :
  exists t,
    snd (processErrorMessage r message w)
    = {| dom := dom w;
         trace := (trace w ++ ECall "processErrorMessage" [AVal message] :: t)%list |}
    /\ alerts t = (if message_vetoed r message then [] else [message])
    /\ (forall f, opt_handleErrorMessage (opts r) = VFunc f ->
                  callback f r [message] = VBool false ->
                  t = [ECallback "handleErrorMessage" [message]]).
Proof.
  exact (processErrorMessage_outcome r message w).
Qed.

Lemma processValidationErrors_outcome (r : request) (fields : value) (w : world) :
  exists t,
    snd (processValidationErrors r fields w)
    = {| dom := dom w;
         trace := (trace w ++ ECall "processValidationErrors" [AVal fields] :: t)%list |}
    /\ alerts t = []
    /\ called "processErrorMessage" t = false.
Proof.
  unfold processValidationErrors, bind, emit, ret.
  destruct (opt_handleValidationErrors (opts r)) as [ | | | | | | | f | ];
    cbn [fst snd];
    try (destruct (globalEvent "ajaxValidationErrors" [AVal (form r); AVal fields]);
         cbn [negb]; eexists; (split; [f_equal; trace_eq | split; reflexivity])).
  destruct (is_false (callback f r [form r; fields]));
    [ | destruct (globalEvent "ajaxValidationErrors" [AVal (form r); AVal fields]);
        cbn [negb] ];
    eexists; (split; [f_equal; trace_eq | split; reflexivity]).
Qed.

Lemma processFlashMessages_outcome (r : request) (messages : value) (w : world) :
  exists t,
    snd (processFlashMessages r messages w)
    = {| dom := dom w;
         trace := (trace w ++ ECall "processFlashMessages" [AVal messages] :: t)%list |}
    /\ navigations t = []
    /\ called "processAssets" t = false.
Proof.
  unfold processFlashMessages, bind, emit, ret.
  destruct (opt_handleFlashMessages (opts r)) as [ | | | | | | | f | ];
    cbn [fst snd];
    try (destruct (globalEvent "ajaxFlashMessages" [AVal messages]);
         cbn [negb]; eexists; (split; [f_equal; trace_eq | split; reflexivity])).
  destruct (is_false (callback f r [messages]));
    [ | destruct (globalEvent "ajaxFlashMessages" [AVal messages]); cbn [negb] ];
    eexists; (split; [f_equal; trace_eq | split; reflexivity]).
Qed.

Lemma alerts_app (t1 t2 : list event) : alerts (t1 ++ t2) = (alerts t1 ++ alerts t2)%list.
Proof.
  unfold alerts. apply flat_map_app.
Qed.

Lemma truthy_field_not_nullish (response : value) (k : string) :
  truthy (field response k) = true -> nullish response = false.
Proof.
  destruct response; auto; discriminate.
Qed.

(** X12: on a response object that carries both validation fields and an
    error message, [processError] runs validation-error handling first and
    error-message handling second; whatever validation handling does, a
    veto included, the message is then alerted or suppressed by its own
    callback and hook alone.  The document is untouched. *)
Theorem validation_errors_then_error_message
    (r : request) (response : value) (w : world) :
  truthy (field response "X_WINTER_ERROR_FIELDS") = true ->
  truthy (field response "X_WINTER_ERROR_MESSAGE") = true ->
  let fields := field response "X_WINTER_ERROR_FIELDS" in
  let message := field response "X_WINTER_ERROR_MESSAGE" in
  exists t1 t2,
    snd (processError r (inr response) w)
    = {| dom := dom w;
         trace := (trace w ++ ECall "processError" [AVal response]
                     :: ECall "processValidationErrors" [AVal fields] :: t1
                     ++ ECall "processErrorMessage" [AVal message] :: t2)%list |}
    /\ alerts t1 = []
    /\ alerts t2 = (if message_vetoed r message then [] else [message]).
Proof.
  intros Hf Hm fields message.
  unfold processError.
  rewrite (truthy_field_not_nullish response _ Hf), Hf, Hm.
  fold fields message.
  unfold bind at 1. unfold emit at 1. unfold bind.
  set (w1 := {| dom := dom w; trace := _ |}).
  destruct (processValidationErrors_outcome r fields w1) as (t1 & H1 & A1 & _).
  destruct (processValidationErrors r fields w1) as [[] w2]. cbn [snd] in H1.
  subst w2.
  destruct (processErrorMessage_outcome r message
              {| dom := dom w1;
                 trace := (trace w1
                             ++ ECall "processValidationErrors" [AVal fields] :: t1)%list |})
    as (t2 & H2 & A2 & _).
  exists t1, t2. split; [ | split; assumption].
  rewrite H2. unfold w1. cbn [dom trace]. f_equal.
  repeat (rewrite <- List.app_assoc; simpl). reflexivity.
Qed.

Lemma called_app (method : string) (t1 t2 : list event) :
  called method (t1 ++ t2) = called method t1 || called method t2.
Proof.
  unfold called. apply existsb_app.
Qed.

Lemma navigations_app (t1 t2 : list event) :
  navigations (t1 ++ t2) = (navigations t1 ++ navigations t2)%list.
Proof.
  unfold navigations. apply flat_map_app.
Qed.

(** X13: when the payload carries no [X_WINTER_REDIRECT] and
    [options.redirect] supplies none, [processResponse] never navigates
    and leaves the document alone; flash-message handling is dispatched
    exactly when [options.flash] and the payload's flash messages are both
    truthy, and asset handling exactly when the payload's asset list is
    truthy, whatever flash handling did. *)
Theorem without_redirect_nothing_navigates
    (r : request) (response : value) (w : world) :
  nullish response = false ->
  truthy (field response "X_WINTER_REDIRECT") = false ->
  truthy (redirect r) = false ->
  exists t,
    snd (processResponse r response w)
    = {| dom := dom w;
         trace := (trace w ++ ECall "processResponse" [AVal response] :: t)%list |}
    /\ navigations t = []
    /\ called "processFlashMessages" t
       = truthy (flash r) && truthy (field response "X_WINTER_FLASH_MESSAGES")
    /\ called "processAssets" t = truthy (field response "X_WINTER_ASSETS").
Proof.
  intros Hn Hr Ho. unfold processResponse. rewrite Hn, Hr, Ho. cbn [orb].
  unfold bind at 1. unfold emit at 1. unfold bind.
  set (w1 := {| dom := dom w; trace := _ |}).
  assert (Hflash : exists t1,
             snd ((if truthy (flash r)
                      && truthy (field response "X_WINTER_FLASH_MESSAGES")
                   then processFlashMessages r (field response "X_WINTER_FLASH_MESSAGES")
                   else ret tt) w1)
             = {| dom := dom w; trace := (trace w1 ++ t1)%list |}
             /\ navigations t1 = []
             /\ called "processAssets" t1 = false
             /\ called "processFlashMessages" t1
                = truthy (flash r) && truthy (field response "X_WINTER_FLASH_MESSAGES")).
  { destruct (truthy (flash r) && truthy (field response "X_WINTER_FLASH_MESSAGES")).
    - destruct (processFlashMessages_outcome r
                  (field response "X_WINTER_FLASH_MESSAGES") w1) as (t & H & N & C).
      eexists. split; [exact H | ]. cbn [navigations flat_map called existsb].
      repeat split; auto.
    - exists []. unfold ret. cbn [snd]. rewrite List.app_nil_r.
      repeat split; auto. }
  destruct Hflash as (t1 & H1 & N1 & A1 & F1).
  destruct ((if truthy (flash r) && truthy (field response "X_WINTER_FLASH_MESSAGES")
             then processFlashMessages r (field response "X_WINTER_FLASH_MESSAGES")
             else ret tt) w1) as [[] w2].
  cbn [snd] in H1. subst w2.
  destruct (truthy (field response "X_WINTER_ASSETS")).
  - exists (t1 ++ [ECall "processAssets" [AVal (field response "X_WINTER_ASSETS")]])%list.
    unfold processAssets, emit. cbn [snd dom trace].
    rewrite navigations_app, !called_app, N1, A1, F1.
    split; [ | repeat split; auto; apply orb_false_r].
    unfold w1. cbn [trace]. f_equal.
    repeat (rewrite <- List.app_assoc; simpl). reflexivity.
  - exists t1. unfold ret. cbn [snd].
    split; [ | repeat split; auto].
    unfold w1. cbn [trace]. f_equal.
    repeat (rewrite <- List.app_assoc; simpl). reflexivity.
Qed.

End Routines.

(** *** From the network to the dispatch *)

Section Sending.
Context {E : Env}.

Lemma called_none (method : string) (P : event -> Prop) (t : list event) :
  (forall args, ~ P (ECall method args)) -> Forall P t -> called method t = false.
Proof.
  intros Hm. unfold called.
  induction 1 as [ | ev t Hev _ IH]; cbn [existsb]; [reflexivity | ].
  rewrite IH. destruct ev; try reflexivity.
  destruct (method0 =? method) eqn:Heq; [ | reflexivity].
  apply String.eqb_eq in Heq. subst. destruct (Hm _ Hev).
Qed.

Lemma fetches_none (P : event -> Prop) (t : list event) :
  (forall req, ~ P (EFetch req)) -> Forall P t -> fetches t = 0.
Proof.
  intros Hm. unfold fetches.
  induction 1 as [ | ev t Hev _ IH]; simpl; [reflexivity | ].
  destruct ev; simpl; try exact IH. destruct (Hm _ Hev).
Qed.

Lemma fulfilled_update_not_nullish (r : request) (response : value) (w : world) :
  fst (processUpdate r response w) = Fulfilled tt -> nullish response = false.
Proof.
  destruct response; try reflexivity; intros H; exfalso; revert H;
    unfold processUpdate, bind, emit, ret; cbn [entries];
    destruct (opt_beforeUpdate (opts r)); cbn [fst snd]; try discriminate;
    destruct (is_false _); cbn [fst snd]; discriminate.
Qed.

Lemma processError_first (r : request) (error : error + value) (w : world) :
  exists t,
    snd (processError r error w)
    = {| dom := dom w;
         trace := (trace w
                     ++ ECall "processError"
                          [match error with inl e => AErr e | inr v => AVal v end]
                     :: t)%list |}
    /\ Forall error_event t.
Proof.
  destruct (processError_logs r error w) as (t & Ht & F).
  assert (Hs : exists t',
             trace (snd (processError r error w))
             = (trace w ++ ECall "processError"
                             [match error with inl e => AErr e | inr v => AVal v end]
                          :: t')%list).
  { unfold processError.
    match goal with
    | |- context [bind (emit ?ev) (fun _ => ?k) w] =>
        apply (emit_first error_event ev k w)
    end.
    destruct error as [e | response]; [apply processErrorMessage_adds | ].
    destruct (nullish response); [apply adds_ret | ].
    apply adds_bind; [ | intros _].
    - destruct (truthy (field response "X_WINTER_ERROR_FIELDS"));
        [apply processValidationErrors_adds | apply adds_ret].
    - destruct (truthy (field response "X_WINTER_ERROR_MESSAGE"));
        [apply processErrorMessage_adds | apply adds_ret]. }
  destruct Hs as (t' & Ht'). rewrite Ht in Ht'. cbn [trace] in Ht'.
  apply app_inv_head in Ht'. subst t. exists t'.
  split; [exact Ht | ]. now inversion F.
Qed.

Lemma processResponse_first (r : request) (response : value) (w : world) :
  exists t,
    snd (processResponse r response w)
    = {| dom := dom w;
         trace := (trace w ++ ECall "processResponse" [AVal response] :: t)%list |}
    /\ Forall success_event t.
Proof.
  destruct (processResponse_logs r response w) as (t & Ht & F).
  assert (Hs : exists t',
             trace (snd (processResponse r response w))
             = (trace w ++ ECall "processResponse" [AVal response] :: t')%list).
  { unfold processResponse.
    match goal with
    | |- context [bind (emit ?ev) (fun _ => ?k) w] =>
        apply (emit_first success_event ev k w)
    end.
    unfold processRedirect, processFlashMessages, processAssets.
    adds_auto; simpl; auto. }
  destruct Hs as (t' & Ht'). rewrite Ht in Ht'. cbn [trace] in Ht'.
  apply app_inv_head in Ht'. subst t. exists t'.
  split; [exact Ht | ]. now inversion F.
Qed.

(** X14: once the update phase is fulfilled, exactly one of the two
    dispatchers runs, chosen by the success flag alone: [processError] when
    [X_WINTER_SUCCESS] is the literal [false], [processResponse] for any
    other value, a missing flag included.  The dispatch leaves the document
    as the update phase left it. *)
Theorem fulfilled_update_dispatches_once
    (r : request) (response : value) (w : world) :
  fst (processUpdate r response w) = Fulfilled tt ->
  exists t,
    snd (on_response r response w)
    = {| dom := dom (snd (processUpdate r response w));
         trace := (trace (snd (processUpdate r response w)) ++ t)%list |}
    /\ called "processError" t = is_false (field response "X_WINTER_SUCCESS")
    /\ called "processResponse" t
       = negb (is_false (field response "X_WINTER_SUCCESS")).
Proof.
  intros H. pose proof (fulfilled_update_not_nullish r response w H) as Hn.
  unfold on_response, bind.
  destruct (processUpdate r response w) as [u w1]. cbn [fst snd] in *. subst u.
  rewrite Hn. destruct (is_false (field response "X_WINTER_SUCCESS")).
  - destruct (processError_first r (inr response) w1) as (t & Ht & F).
    exists (ECall "processError" [AVal response] :: t).
    split; [exact Ht | split; [reflexivity | ]].
    cbn [negb]. change (called "processResponse" t = false).
    apply (called_none _ error_event); [ | exact F].
    intros args [H1 | [H1 | H1]]; discriminate.
  - destruct (processResponse_first r response w1) as (t & Ht & F).
    exists (ECall "processResponse" [AVal response] :: t).
    split; [exact Ht | split; [ | reflexivity]].
    change (called "processError" t = false).
    apply (called_none _ success_event); [ | exact F].
    intros args [H1 | [H1 | [H1 | H1]]]; discriminate.
Qed.

(** The run of [send] up to the outcome of [fetch], when the arguments of
    [fetch] can be evaluated. *)
Lemma send_until_fetch (r : request) (w : world) (token : value) :
  xsrfToken = Some token ->
  opt_data (opts r) <> VNull ->
  exists d req,
    fr_url req = url r /\ fr_method req = "POST"
    /\ headers r = inr (fr_headers req)
    /\ is_multipart (fr_body req) = true
    /\ send r w
       = (match fetch req with
          | NetworkError responseError =>
              processError r (inl (renderError1
                ("Unable to retrieve a response from the server: " ++ responseError)))
          | Responded rs =>
              match settle_response rs with
              | Fulfilled response => on_response r response
              | Rejected error => processError r (inl error)
              | Pending => ret tt
              end
          | NoAnswer => ret tt
          end)
           {| dom := dom w;
              trace := (trace w ++ [ECall "doAjax" []; EConsoleLog d; EFetch req])%list |}.
Proof.
  intros Htoken Hnull.
  assert (Hh : exists hs, headers r = inr hs)
    by (unfold headers; rewrite Htoken; eauto).
  destruct Hh as (hs & Hh).
  unfold send, doAjax. rewrite Hh.
  rewrite !bind_assoc. unfold bind at 1. unfold emit at 1.
  rewrite bind_assoc. unfold bind at 1.
  destruct (data_body r
              {| dom := dom w; trace := (trace w ++ [ECall "doAjax" []])%list |} Hnull)
    as (d & fields & Hd & _).
  rewrite Hd. rewrite !bind_assoc. unfold bind at 1. unfold emit at 1.
  cbn [dom trace].
  exists d.
  exists {| fr_url := url r; fr_method := "POST"; fr_headers := hs;
            fr_body := FormData fields; fr_redirect := "follow";
            fr_mode := "same-origin" |}.
  repeat (split; [reflexivity | ]).
  repeat (rewrite <- List.app_assoc; simpl).
  match goal with
  | |- context [fetch ?q] => destruct (fetch q) as [reason | rs | ]
  end; unfold bind, ret; reflexivity.
Qed.

(** X15: when the arguments of [fetch] can be evaluated (the XSRF cookie
    can be decoded and [options.data] is not [null]) and the network call
    itself fails, nothing is updated and the success dispatch never runs:
    after the one [fetch], [processError] receives an [Error] whose message
    starts with the fixed prefix and ends with the reason, and that
    message is alerted unless the error-message callback or hook
    suppresses it.  The document is untouched. *)
Theorem network_failure_is_reported
    (r : request) (w : world) (reason : string) (token : value) :
  xsrfToken = Some token ->
  opt_data (opts r) <> VNull ->
  (forall req, fetch req = NetworkError reason) ->
  let message :=
    VStr ("Unable to retrieve a response from the server: " ++ reason) in
  exists t,
    snd (send r w) = {| dom := dom w; trace := (trace w ++ t)%list |}
    /\ fetches t = 1
    /\ alerts t = (if message_vetoed r message then [] else [message])
    /\ called "processUpdate" t = false
    /\ called "processResponse" t = false.
Proof.
  intros Htoken Hnull Hnet message.
  destruct (send_until_fetch r w token Htoken Hnull) as (d & req & _ & _ & _ & _ & Hs).
  rewrite Hs, (Hnet req). clear Hs.
  set (w1 := {| dom := dom w; trace := _ |}).
  set (e := renderError1 _).
  destruct (processError_first r (inl e) w1) as (t & Ht & F).
  assert (Hm : exists t',
             snd (processError r (inl e) w1)
             = {| dom := dom w1;
                  trace := ((trace w1 ++ [ECall "processError" [AErr e]])
                              ++ ECall "processErrorMessage" [AVal message] :: t')%list |}
             /\ alerts t' = (if message_vetoed r message then [] else [message])).
  { unfold processError, bind at 1. unfold emit at 1.
    destruct (processErrorMessage_outcome r message
                {| dom := dom w1;
                   trace := (trace w1 ++ [ECall "processError" [AErr e]])%list |})
      as (t' & Ht' & A & _).
    exists t'. split; [exact Ht' | exact A]. }
  destruct Hm as (t' & Ht' & A).
  rewrite Ht in Ht'. injection Ht' as Ht'.
  repeat rewrite <- List.app_assoc in Ht'. apply app_inv_head in Ht'.
  simpl in Ht'. injection Ht' as ->.
  exists ([ECall "doAjax" []; EConsoleLog d; EFetch req;
           ECall "processError" [AErr e];
           ECall "processErrorMessage" [AVal message]] ++ t')%list.
  inversion F as [ | ? ? _ F']; subst.
  split; [ | split; [ | split; [ | split]]].
  - rewrite Ht. unfold w1. cbn [dom trace]. f_equal.
    repeat (rewrite <- List.app_assoc; simpl). reflexivity.
  - unfold fetches. cbn [app filter is_fetch List.length]. f_equal.
    apply (fetches_none error_event); [intros q [] | exact F'].
  - cbn [app alerts flat_map]. exact A.
  - change (called "processUpdate" t' = false).
    apply (called_none _ error_event); [ | exact F'].
    intros args [H1 | [H1 | H1]]; discriminate.
  - change (called "processResponse" t' = false).
    apply (called_none _ error_event); [ | exact F'].
    intros args [H1 | [H1 | H1]]; discriminate.
Qed.

(** X16: when the arguments of [fetch] can be evaluated (the XSRF cookie
    can be decoded and [options.data] is not [null]), a server error (a
    status that is neither 2xx nor 406) with a readable non-JSON body is
    reported with that body as the message: no partial is applied,
    [processUpdate] and [processResponse] never run, and the text is
    alerted unless suppressed. *)
Theorem server_error_text_is_reported
    (r : request) (w : world) (rs : response) (text : string) (token : value) :
  xsrfToken = Some token ->
  opt_data (opts r) <> VNull ->
  (forall req, fetch req = Responded rs) ->
  response_ok rs = false ->
  rs_status rs <> 406%Z ->
  is_json rs = false ->
  rs_text rs = inr text ->
  exists t,
    snd (send r w) = {| dom := dom w; trace := (trace w ++ t)%list |}
    /\ alerts t = (if message_vetoed r (VStr text) then [] else [VStr text])
    /\ called "processUpdate" t = false
    /\ called "processResponse" t = false.
Proof.
  intros Htoken Hnull Hnet Hok Hst Hj Htext.
  destruct (send_until_fetch r w token Htoken Hnull) as (d & req & _ & _ & _ & _ & Hs).
  rewrite Hs, (Hnet req). clear Hs.
  unfold settle_response. rewrite (error_branch rs Hok Hst), Hj, Htext.
  set (w1 := {| dom := dom w; trace := _ |}).
  set (e := renderError1 text).
  destruct (processError_first r (inl e) w1) as (t & Ht & F).
  assert (Hm : exists t',
             snd (processError r (inl e) w1)
             = {| dom := dom w1;
                  trace := ((trace w1 ++ [ECall "processError" [AErr e]])
                              ++ ECall "processErrorMessage" [AVal (VStr text)]
                              :: t')%list |}
             /\ alerts t' = (if message_vetoed r (VStr text) then [] else [VStr text])).
  { unfold processError, bind at 1. unfold emit at 1.
    destruct (processErrorMessage_outcome r (VStr text)
                {| dom := dom w1;
                   trace := (trace w1 ++ [ECall "processError" [AErr e]])%list |})
      as (t' & Ht' & A & _).
    exists t'. split; [exact Ht' | exact A]. }
  destruct Hm as (t' & Ht' & A).
  rewrite Ht in Ht'. injection Ht' as Ht'.
  repeat rewrite <- List.app_assoc in Ht'. apply app_inv_head in Ht'.
  simpl in Ht'. injection Ht' as ->.
  exists ([ECall "doAjax" []; EConsoleLog d; EFetch req;
           ECall "processError" [AErr e];
           ECall "processErrorMessage" [AVal (VStr text)]] ++ t')%list.
  inversion F as [ | ? ? _ F']; subst.
  split; [ | split; [ | split]].
  - rewrite Ht. unfold w1. cbn [dom trace]. f_equal.
    repeat (rewrite <- List.app_assoc; simpl). reflexivity.
  - cbn [app alerts flat_map]. exact A.
  - change (called "processUpdate" t' = false).
    apply (called_none _ error_event); [ | exact F'].
    intros args [H1 | [H1 | H1]]; discriminate.
  - change (called "processResponse" t' = false).
    apply (called_none _ error_event); [ | exact F'].
    intros args [H1 | [H1 | H1]]; discriminate.
Qed.

End Sending.

(** *** Asking for confirmation *)

Section Asking.
Context {E : Env}.

Lemma doConfirm_outcome (r : request) (w : world) :
  exists ev,
    snd (doConfirm r w)
    = {| dom := dom w; trace := (trace w ++ [ECall "doConfirm" []; ev])%list |}
    /\ is_confirmation ev = true
    /\ (forall x, fst (doConfirm r w) <> Rejected x)
    /\ ((forall f, opt_handleConfirmMessage (opts r) <> VFunc f) ->
        fst (doConfirm r w)
        = if (listensToEvent "ajaxConfirmMessage" =? 0)%nat
          then Fulfilled (window_confirm (confirm r))
          else match globalPromiseEvent "ajaxConfirmMessage"
                       [AThis r; AVal (confirm r)] with
               | Fulfilled fulfilled => Fulfilled (truthy fulfilled)
               | Rejected _ => Fulfilled false
               | Pending => Pending
               end).
Proof.
  unfold doConfirm, bind, emit, ret.
  destruct (opt_handleConfirmMessage (opts r)) as [ | | | | | | | f | ];
    try (destruct (listensToEvent "ajaxConfirmMessage" =? 0)%nat;
         [ | destruct (globalPromiseEvent "ajaxConfirmMessage"
                         [AThis r; AVal (confirm r)]) ];
         cbn [fst snd dom trace]; eexists;
         (split; [f_equal; trace_eq
                 | split; [reflexivity | split; [discriminate | reflexivity]]])).
  destruct (is_false (callback f r [confirm r])); cbn [fst snd dom trace];
    eexists;
    (split; [f_equal; trace_eq
            | split; [reflexivity
                     | split; [discriminate | intros H; destruct (H f eq_refl)]]]).
Qed.

(** X17: [doConfirm] never rejects and asks exactly one party: the
    [handleConfirmMessage] callback, the browser's [confirm] or the
    [ajaxConfirmMessage] hook.  Without a callback, the browser's answer is
    the result when no module listens; otherwise a rejection by the hook
    counts as a refusal, and so does a falsy fulfilment value. *)
Theorem doConfirm_asks_one_party (r : request) (w : world) :
  exists ev,
    snd (doConfirm r w)
    = {| dom := dom w; trace := (trace w ++ [ECall "doConfirm" []; ev])%list |}
    /\ is_confirmation ev = true
    /\ (forall x, fst (doConfirm r w) <> Rejected x)
    /\ ((forall f, opt_handleConfirmMessage (opts r) <> VFunc f) ->
        fst (doConfirm r w)
        = if (listensToEvent "ajaxConfirmMessage" =? 0)%nat
          then Fulfilled (window_confirm (confirm r))
          else match globalPromiseEvent "ajaxConfirmMessage"
                       [AThis r; AVal (confirm r)] with
               | Fulfilled fulfilled => Fulfilled (truthy fulfilled)
               | Rejected _ => Fulfilled false
               | Pending => Pending
               end).
Proof.
  exact (doConfirm_outcome r w).
Qed.

(** X18: a request whose confirmation is not granted is never sent: when
    [doConfirm] settles with anything but a fulfilled [true], the
    constructor stops after the one question, without [doAjax], without a
    network call and without touching the document. *)
Theorem ungranted_request_is_not_sent (r : request) (w : world) :
  truthy (confirm r) = true ->
  fst (doConfirm r w) <> Fulfilled true ->
  exists ev,
    confirm_and_send r w
    = (tt, {| dom := dom w;
              trace := (trace w ++ [ECall "doConfirm" []; ev])%list |})
    /\ is_confirmation ev = true.
Proof.
  intros Hc Hno. destruct (doConfirm_outcome r w) as (ev & Hw & Hk & _).
  exists ev. split; [ | exact Hk].
  unfold confirm_and_send. rewrite Hc. unfold bind.
  destruct (doConfirm r w) as [answer w1]. cbn [fst snd] in *. subst w1.
  destruct answer as [[ | ] | [] | ]; try reflexivity. congruence.
Qed.

(** X19: when [options.confirm] is falsy (absent, [null], [false], [0] or
    the empty string) nobody is asked anything: the constructor goes
    straight to [doAjax], and neither the callback, nor the browser's
    [confirm], nor the hook occurs anywhere in what follows. *)
Theorem falsy_confirm_asks_nobody (r : request) (w : world) :
  truthy (opt_confirm (opts r)) = false ->
  exists t,
    trace (snd (confirm_and_send r w)) = (trace w ++ ECall "doAjax" [] :: t)%list
    /\ existsb is_confirmation t = false
    /\ called "doConfirm" t = false.
Proof.
  intros Hc.
  assert (Hf : truthy (confirm r) = false).
  { unfold confirm, or_else. rewrite Hc. reflexivity. }
  unfold confirm_and_send. rewrite Hf.
  destruct (send_outline r w) as (pre & k & Hs & Hk & _ & _ & Hp1 & Hp2).
  destruct (Hk {| dom := dom w; trace := (trace w ++ ECall "doAjax" [] :: pre)%list |})
    as (t & Ht & F).
  apply discreet_trace in F as (_ & F1 & F2).
  exists (pre ++ t)%list. rewrite Hs, Ht. cbn [trace].
  split; [rewrite <- List.app_assoc; reflexivity | ].
  unfold called in *. rewrite !existsb_app, Hp1, Hp2, F1, F2. auto.
Qed.

End Asking.

(** *** The early returns of the constructor *)

Section EarlyReturns.
Context {E : Env}.

(** X20: when the [ajaxSetup] hook cancels, the constructor returns with
    nothing but that broadcast behind it: no validation report, no
    question, no [doAjax]. *)
Theorem cancelled_setup_ends_the_request (r : request) (w : world) :
  checkRequest r = None ->
  globalEvent "ajaxSetup" [AThis r] = false ->
  constructor r w
  = Returned {| dom := dom w;
                trace := (trace w ++ [EGlobalEvent "ajaxSetup" [AThis r]])%list |}.
Proof.
  intros Hc Hs. unfold constructor. rewrite Hc.
  unfold bind, emit, ret. rewrite Hs. reflexivity.
Qed.

(** X21: with [browserValidate] at the literal [true] and a form that fails
    [checkValidity], the constructor reports the validity on that form and
    returns: nothing is asked and nothing is sent.  The form is
    [options.form] when truthy, the closest form of the element
    otherwise. *)
Theorem invalid_form_is_reported_not_sent (r : request) (w : world) :
  checkRequest r = None ->
  globalEvent "ajaxSetup" [AThis r] = true ->
  opt_browserValidate (opts r) = VBool true ->
  truthy (form r) = true ->
  checkValidity (form r) = false ->
  constructor r w
  = Returned {| dom := dom w;
                trace := (trace w ++ [EGlobalEvent "ajaxSetup" [AThis r];
                                      EReportValidity (form r)])%list |}.
Proof.
  intros Hc Hs Hb Hf Hv. unfold constructor. rewrite Hc.
  unfold doClientValidation, bind, emit, ret.
  rewrite Hs, Hb, Hf, Hv. cbn [negb is_true andb fst snd dom trace].
  rewrite <- List.app_assoc. reflexivity.
Qed.

(** X22: client-side validation is skipped, whatever [checkValidity] would
    say, when [browserValidate] is anything but the literal [true] (the
    number [1] and the string [true] included) or when there is no form
    ([options.form] falsy and no element given): the constructor reaches
    the confirmation test right after the [ajaxSetup] broadcast. *)
Theorem validation_needs_flag_and_form (r : request) (w : world) :
  checkRequest r = None ->
  globalEvent "ajaxSetup" [AThis r] = true ->
  opt_browserValidate (opts r) <> VBool true
  \/ (truthy (opt_form (opts r)) = false /\ element r = VUndefined) ->
  constructor r w
  = Returned (snd (confirm_and_send r
                     {| dom := dom w;
                        trace := (trace w
                                    ++ [EGlobalEvent "ajaxSetup" [AThis r]])%list |})).
Proof.
  intros Hc Hs Hskip.
  assert (Hg : is_true (opt_browserValidate (opts r)) && truthy (form r) = false).
  { destruct Hskip as [Hb | [Hf He]].
    - destruct (opt_browserValidate (opts r)) as [ | | [ | ] | | | | | | ];
        try reflexivity. congruence.
    - unfold form. rewrite Hf, He. apply andb_false_r. }
  assert (Hd : forall w0, doClientValidation r w0 = (true, w0)).
  { intros w0. unfold doClientValidation. rewrite Hg. reflexivity. }
  pose proof (constructor_reaches_confirmation r w Hc Hs) as H.
  cbv zeta in H. rewrite Hd in H. apply H. reflexivity.
Qed.

End EarlyReturns.

(** *** Handler names *)

Section Names.

Lemma seq_elim (r1 r2 : Regex.re) (s : string) :
  Regex.matches (Regex.Seq r1 r2) s ->
  exists s1 s2, s = s1 ++ s2 /\ Regex.matches r1 s1 /\ Regex.matches r2 s2.
Proof.
  inversion 1; subst; eauto.
Qed.

Lemma lit_elim (c : ascii) (s : string) :
  Regex.matches (Regex.Lit c) s -> s = String c "".
Proof.
  inversion 1; reflexivity.
Qed.

Lemma star_word_elim (s : string) :
  Regex.matches (Regex.Star Regex.Word) s ->
  Forall (fun c => Regex.is_word c = true) (list_ascii_of_string s).
Proof.
  intros H. remember (Regex.Star Regex.Word) as re eqn:Hre.
  induction H; try discriminate.
  - constructor.
  - injection Hre as ->. inversion H; subst. simpl. constructor; auto.
Qed.

Lemma plus_word_elim (s : string) :
  Regex.matches (Regex.plus Regex.Word) s -> Spec.word s.
Proof.
  intros H. apply seq_elim in H as (s1 & s2 & -> & H1 & H2).
  inversion H1; subst. split; [discriminate | ].
  simpl. constructor; [assumption | now apply star_word_elim].
Qed.

Lemma namespaced_o_matches (namespace : string) :
  Spec.word namespace -> Regex.matches handler_pattern (namespace ++ "::o").
Proof.
  intros Hw. unfold handler_pattern.
  change "::o" with ("::" ++ "o").
  rewrite <- append_assoc.
  constructor.
  - apply Regex.M_alt_l. constructor.
    + apply plus_word_matches; exact Hw.
    + change "::" with (":" ++ ":"). constructor; constructor.
  - change "o" with ("o" ++ ""). constructor; constructor.
Qed.

Lemma pattern_accepts (name : string) :
  Regex.test_prefix handler_pattern name = true <-> accepted_handler name.
Proof.
  split.
  - intros H. apply RegexFacts.test_prefix_elim in H as (p & rest & -> & Hm).
    unfold handler_pattern in Hm.
    apply seq_elim in Hm as (s1 & s2 & -> & H1 & H2).
    apply seq_elim in H2 as (s3 & s4 & -> & H3 & _).
    apply lit_elim in H3. subst s3.
    inversion H1 as [ | | | | | ? ? ? Hl | ? ? ? Hr | | ]; subst.
    + apply seq_elim in Hl as (ns & cc & -> & Hns & Hcc).
      apply seq_elim in Hcc as (c1 & c2 & -> & Hc1 & Hc2).
      apply lit_elim in Hc1, Hc2. subst c1 c2.
      right. exists ns, (s4 ++ rest). split; [now apply plus_word_elim | ].
      rewrite !append_assoc. reflexivity.
    + inversion Hr; subst. left. exists (s4 ++ rest). reflexivity.
  - intros [[rest ->] | (ns & rest & Hw & ->)].
    + apply RegexFacts.test_prefix_intro. exact o_matches.
    + change (ns ++ "::o" ++ rest) with (ns ++ ("::o" ++ rest)).
      rewrite <- append_assoc.
      apply RegexFacts.test_prefix_intro, namespaced_o_matches, Hw.
Qed.

(** X23: for a handler given as a string, [checkRequest] lets the request
    through exactly when the element is [undefined] or an [Element] and
    the name starts with an [o], or with a non-empty run of word
    characters, [::] and an [o]; nothing after that [o] is looked at. *)
Theorem checkRequest_passes_exactly (el : value) (name : string) (o : options) :
  checkRequest {| element := el; handler := VStr name; opts := o |} = None
  <-> (el = VUndefined \/ exists e, el = VElem e) /\ accepted_handler name.
Proof.
  unfold checkRequest. cbn [element handler is_undefined].
  split.
  - intros H.
    destruct el; cbn [is_undefined instanceof_Element negb andb] in H;
      try discriminate;
      (destruct (Regex.test_prefix handler_pattern name) eqn:Ht;
       cbn [negb] in H; try discriminate;
       split; [eauto | apply pattern_accepts; exact Ht]).
  - intros [Hel Ha]. apply pattern_accepts in Ha. rewrite Ha.
    destruct Hel as [-> | [e ->]]; reflexivity.
Qed.

End Names.

(** *** The getters *)

Section Getters.
Context {E : Env}.

(** X24: the [files] getter answers [true] exactly when [options.files] is
    the literal [true], in every browser: its inner test compares the
    string [typeof FormData] with the value [undefined], which never
    holds, so the warning is never printed and nothing is logged. *)
Theorem files_never_warns (r : request) (w : world) :
  files r w = (is_true (opt_files (opts r)), w).
Proof.
  unfold files. destruct (is_true (opt_files (opts r))); reflexivity.
Qed.

(** X25: the error built by [renderError] never carries a falsy detail:
    the exception, the file and the line are the values given when these
    are truthy and [null] otherwise ([0], the empty string and [false]
    included), and the trace is the value given or an empty array. *)
Theorem renderError_normalises_details (message exception file line trace : value) :
  (forall given kept,
     In (given, kept)
        [(exception, err_exception (renderError message exception file line trace));
         (file, err_file (renderError message exception file line trace));
         (line, err_line (renderError message exception file line trace))] ->
     kept = (if truthy given then given else VNull)
     /\ (kept = VNull \/ truthy kept = true))
  /\ err_trace (renderError message exception file line trace)
     = (if truthy trace then trace else VArr [])
  /\ truthy (err_trace (renderError message exception file line trace)) = true.
Proof.
  split; [ | split].
  - intros given kept H. simpl in H. unfold or_else in H.
    destruct H as [[= <- <-] | [[= <- <-] | [[= <- <-] | []]]];
      (split; [reflexivity | ]);
      match goal with
      | |- context [truthy ?v] => destruct (truthy v) eqn:Hv; auto
      end.
  - reflexivity.
  - simpl. unfold or_else. destruct (truthy trace) eqn:Ht; [exact Ht | reflexivity].
Qed.

Lemma headers_base (r : request) (token : value) :
  xsrfToken = Some token ->
  exists extra,
    headers r
    = inr ([ ("X-Requested-With", VStr "XMLHttpRequest");
             ("X-WINTER-REQUEST-HANDLER", handler r);
             ("X-WINTER-REQUEST-PARTIALS",
              VStr (extractPartials (or_else (opt_update (opts r)) (VArr [])))) ]
             ++ extra)%list
    /\ (extra = [] \/ extra = [("X-WINTER-REQUEST-FLASH", VNum 1)]
        \/ extra = [("X-XSRF-TOKEN", token)]
        \/ extra = [("X-WINTER-REQUEST-FLASH", VNum 1); ("X-XSRF-TOKEN", token)])
    /\ lookup "X-WINTER-REQUEST-FLASH" extra
       = (if truthy (opt_flash (opts r)) then Some (VNum 1) else None)
    /\ lookup "X-XSRF-TOKEN" extra
       = (if truthy token then Some token else None).
Proof.
  intros Htoken. unfold headers, flash, or_else. rewrite Htoken.
  destruct (truthy (opt_flash (opts r))) eqn:Hf; [rewrite Hf | ];
    cbn [truthy]; destruct (truthy token);
    eexists; (split; [reflexivity | ]); simpl; auto 10.
Qed.

(** X26: the [headers] getter throws exactly when the [xsrfToken] getter
    does (the cookie cannot be decoded), and then what that getter
    throws; otherwise the object it returns has no key twice; it always
    names the handler as given; the flash marker [1] is present exactly
    when [options.flash] is truthy and the XSRF header exactly when the
    token the getter yields is truthy, with that token; with a falsy
    [options.update] the partials header is empty. *)
Theorem headers_are_keyed_once (r : request) :
  match xsrfToken with
  | None => headers r = inl uri_error
  | Some token =>
      exists hs,
        headers r = inr hs
        /\ NoDup (map fst hs)
        /\ lookup "X-WINTER-REQUEST-HANDLER" hs = Some (handler r)
        /\ lookup "X-WINTER-REQUEST-FLASH" hs
           = (if truthy (opt_flash (opts r)) then Some (VNum 1) else None)
        /\ lookup "X-XSRF-TOKEN" hs
           = (if truthy token then Some token else None)
        /\ (truthy (opt_update (opts r)) = false ->
            lookup "X-WINTER-REQUEST-PARTIALS" hs = Some (VStr ""))
  end.
Proof.
  destruct xsrfToken as [token | ] eqn:Htoken.
  - destruct (headers_base r token Htoken) as (extra & Hh & Hshape & Hflash & Htok).
    eexists. split; [exact Hh | ].
    split; [ | split; [reflexivity | split; [exact Hflash | split; [exact Htok | ]]]].
    + destruct Hshape as [-> | [-> | [-> | ->]]]; simpl;
        repeat (constructor; [simpl; intuition discriminate | ]); constructor.
    + intros Hu. unfold or_else. rewrite Hu. reflexivity.
  - unfold headers. rewrite Htoken. reflexivity.
Qed.

End Getters.

(** *** Splitting and joining *)

Section Pieces.

Lemma free_of_cons (c a : ascii) (s : string) :
  Cookie.free_of c (String a s) -> Ascii.eqb a c = false /\ Cookie.free_of c s.
Proof.
  unfold Cookie.free_of. simpl. intros H. split.
  - apply Ascii.eqb_neq. intros ->. apply H. now left.
  - intros Hin. apply H. now right.
Qed.

Lemma split_free (c : ascii) (s : string) :
  Cookie.free_of c s -> Cookie.split c s = [s].
Proof.
  induction s as [ | a s IH]; intros H; [reflexivity | ].
  apply free_of_cons in H as [Ha Hs]. simpl. rewrite Ha, (IH Hs). reflexivity.
Qed.

Lemma split_app (c : ascii) (a b : string) :
  Cookie.free_of c a ->
  Cookie.split c (a ++ String c b) = a :: Cookie.split c b.
Proof.
  induction a as [ | x a IH]; intros H; simpl.
  - now rewrite Ascii.eqb_refl.
  - apply free_of_cons in H as [Hx Ha]. rewrite Hx, (IH Ha). reflexivity.
Qed.

Lemma split_join (c : ascii) (l : list string) :
  l <> [] -> Forall (Cookie.free_of c) l ->
  Cookie.split c (join (String c "") l) = l.
Proof.
  induction l as [ | x l IH]; intros Hne H; [congruence | ].
  inversion H as [ | ? ? Hx Hl]; subst.
  destruct l as [ | y l'].
  - simpl. now apply split_free.
  - change (join (String c "") (x :: y :: l'))
      with (x ++ String c (join (String c "") (y :: l'))).
    rewrite (split_app c x _ Hx), IH; [reflexivity | discriminate | exact Hl].
Qed.

(** X27: the partials header can be taken apart again: when no key of the
    [update] map contains an ampersand, splitting what [extractPartials]
    builds at the ampersands gives back the keys, in order. *)
Theorem partial_names_survive_the_header (update : value) (names : list string) :
  keys update = Some names ->
  names <> [] ->
  Forall (Cookie.free_of "&") names ->
  Cookie.split "&" (extractPartials update) = names.
Proof.
  intros Hk Hne Hfree. unfold extractPartials. rewrite Hk.
  now apply split_join.
Qed.

Variable decodeURIComponent : string -> option string.

Lemma scan_skips (pre rest : list string) :
  Forall (fun piece => substring 0 11 (Cookie.trim piece) <> "XSRF-TOKEN=") pre ->
  Cookie.scan decodeURIComponent (pre ++ rest)
  = Cookie.scan decodeURIComponent rest.
Proof.
  induction 1 as [ | piece pre Hp _ IH]; [reflexivity | ].
  simpl. apply String.eqb_neq in Hp. simpl in Hp. rewrite Hp. exact IH.
Qed.

Lemma substring_skip (n m : nat) (p s : string) :
  String.length p = n -> substring n m (p ++ s) = substring 0 m s.
Proof.
  revert n. induction p as [ | c p IH]; intros n <-; simpl.
  - reflexivity.
  - destruct m; apply IH; reflexivity.
Qed.

Lemma length_append (a b : string) :
  String.length (a ++ b) = String.length a + String.length b.
Proof.
  induction a as [ | c a IH]; simpl; [reflexivity | now rewrite IH].
Qed.

Lemma scan_hit (piece tok : string) (rest : list string) :
  Cookie.trim piece = "XSRF-TOKEN=" ++ tok ->
  Cookie.scan decodeURIComponent (piece :: rest)
  = option_map VStr (decodeURIComponent tok).
Proof.
  intros Ht. cbn [Cookie.scan]. rewrite Ht.
  assert (Hp : substring 0 11 ("XSRF-TOKEN=" ++ tok) = "XSRF-TOKEN=")
    by (destruct tok; reflexivity).
  rewrite Hp. change ("XSRF-TOKEN" ++ "=") with "XSRF-TOKEN=".
  rewrite String.eqb_refl. unfold substr_from.
  rewrite length_append, (substring_skip 11 _ "XSRF-TOKEN=" tok eq_refl).
  change (String.length "XSRF-TOKEN=") with 11.
  replace (11 + String.length tok - 11) with (String.length tok) by lia.
  now rewrite substring_all.
Qed.

(** X28: in a cookie string made of pieces joined by semicolons, the
    [xsrfToken] getter returns the decoded value of the first piece that,
    trimmed, starts with [XSRF-TOKEN=]; pieces after it are not looked at,
    and a decoding failure is not caught. *)
Theorem first_xsrf_cookie_wins (pre post : list string) (piece tok : string) :
  Forall (Cookie.free_of ";") (pre ++ piece :: post) ->
  Forall (fun p => substring 0 11 (Cookie.trim p) <> "XSRF-TOKEN=") pre ->
  Cookie.trim piece = "XSRF-TOKEN=" ++ tok ->
  Cookie.xsrfToken decodeURIComponent (join ";" (pre ++ piece :: post))
  = option_map VStr (decodeURIComponent tok).
Proof.
  intros Hfree Hpre Ht.
  assert (Hs : Cookie.split ";" (join ";" (pre ++ piece :: post))
               = (pre ++ piece :: post)%list).
  { apply split_join; [ | exact Hfree]. destruct pre; discriminate. }
  unfold Cookie.xsrfToken. cbn [truthy].
  destruct (join ";" (pre ++ piece :: post) =? "") eqn:He.
  - exfalso. apply String.eqb_eq in He. rewrite He in Hs. simpl in Hs.
    destruct pre as [ | p0 pre].
    + injection Hs as <- _. discriminate.
    + injection Hs as _ Hs. destruct pre; discriminate.
  - cbn [negb andb]. rewrite Hs, (scan_skips pre _ Hpre).
    now apply scan_hit.
Qed.

(** X29: when no piece of the cookie string starts, once trimmed, with
    [XSRF-TOKEN=], the getter returns [null] and decodes nothing; so it
    does for the empty cookie string. *)
Theorem missing_xsrf_cookie_gives_null (pieces : list string) :
  Forall (Cookie.free_of ";") pieces ->
  Forall (fun p => substring 0 11 (Cookie.trim p) <> "XSRF-TOKEN=") pieces ->
  Cookie.xsrfToken decodeURIComponent (join ";" pieces) = Some VNull.
Proof.
  intros Hfree Hnone. unfold Cookie.xsrfToken.
  destruct (truthy (VStr (join ";" pieces)) && negb (join ";" pieces =? ""));
    [ | reflexivity].
  destruct pieces as [ | p0 pieces].
  - simpl. reflexivity.
  - rewrite split_join; [ | discriminate | exact Hfree].
    rewrite <- (List.app_nil_r (p0 :: pieces)).
    rewrite (scan_skips _ [] Hnone). reflexivity.
Qed.

End Pieces.

(** *** The promise of doUpdate *)

Section Settling.
Context {E : Env}.

(** X30: the promise of [doUpdate] is settled by the first partial alone:
    it is fulfilled as soon as the first iteration completes, whatever
    happens to the later partials, and rejected when the first iteration
    throws; an iteration that throws ends the loop, so the partials after
    it are not applied. *)
Theorem first_partial_settles_doUpdate
    (r : request) (p : string * value) (rest : list (string * value)) (w : world) :
  fst (doUpdate r (p :: rest) w)
  = (if fst (update_partial r p
               {| dom := dom w;
                  trace := (trace w ++ [ECall "doUpdate" [AVal (VObj (p :: rest))]])%list |})
     then Fulfilled tt else Rejected tt)
  /\ (forall st w0,
        fst (update_partial r p w0) = false ->
        doUpdate_loop r (p :: rest) st w0 = (thrown st, snd (update_partial r p w0))).
Proof.
  split.
  - unfold doUpdate, bind at 1. unfold emit at 1. cbn [doUpdate_loop].
    unfold bind.
    destruct (update_partial r p _) as [[ | ] w1]; cbn [fst].
    + apply doUpdate_loop_settled. discriminate.
    + reflexivity.
  - intros st w0 H. cbn [doUpdate_loop]. unfold bind.
    destruct (update_partial r p w0) as [[ | ] w1]; cbn [fst snd] in *;
      [discriminate | reflexivity].
Qed.

End Settling.

End Coverage.

(* ===================================================================== *)
(** ** The further properties at concrete inputs *)
(* ===================================================================== *)

Module CoverageExamples.
Import Js Request Demo Observe Probe Store Coverage.

(** X1 at a crash whose JSON body is [null]: the promise stays pending. *)
Lemma null_crash_is_never_fulfilled :
  (forall payload, settle_response (E := browser) crash <> Fulfilled payload)
  /\ (settle_response (E := browser) crash = Pending
      <-> is_json crash = true
          /\ exists responseData, rs_json crash = inr responseData
                                  /\ nullish responseData = true).
Proof.
  apply (error_status_never_fulfils (E := browser) crash);
    [reflexivity | discriminate].
Defined.

(** X2 at the validation failure of the specification. *)
Lemma validation_failure_settles :
  settle_response (E := browser) failure_response <> Pending
  /\ ((exists payload, settle_response (E := browser) failure_response
                       = Fulfilled payload)
      <-> (if is_json failure_response
           then exists responseData, rs_json failure_response = inr responseData
           else exists text, rs_text failure_response = inr text)).
Proof.
  apply (success_status_always_settles (E := browser) failure_response).
  right. reflexivity.
Defined.

(** X3 at a body that owns a key [__proto__]: the key is not copied. *)
Lemma polluted_body_loses_its_proto :
  exists fields,
    settle_response (E := browser) polluted = Fulfilled (VObj fields)
    /\ lookup "X_WINTER_SUCCESS" fields = Some (VBool true)
    /\ lookup "X_WINTER_RESPONSE_CODE" fields = Some (VNum 200)
    /\ lookup "__proto__" fields = None
    /\ (forall body k,
          VObj [ ("__proto__", VObj [("X_WINTER_REDIRECT", VStr "/away")]);
                 ("entry", VStr "sold") ]
          = VObj body ->
          NoDup (map fst body) ->
          k <> "X_WINTER_SUCCESS" ->
          k <> "X_WINTER_RESPONSE_CODE" ->
          k <> "__proto__" ->
          lookup k fields = lookup k body).
Proof.
  apply (success_flag_follows_status (E := browser) polluted
           (VObj [ ("__proto__", VObj [("X_WINTER_REDIRECT", VStr "/away")]);
                   ("entry", VStr "sold") ]));
    [left; reflexivity | reflexivity | reflexivity].
Defined.

(** X4 at a payload that only asks for a redirect. *)
Lemma redirect_payload_skips_the_update :
  processUpdate (E := browser) (on_save [])
    (VObj [("X_WINTER_REDIRECT", VStr "/done")]) (start browser page)
  = (Fulfilled tt,
     at_trace browser page
       [ECall "processUpdate" [AVal (VObj [("X_WINTER_REDIRECT", VStr "/done")])]]).
Proof.
  apply (payload_without_partials_skips_update (E := browser) (on_save [])
           (VObj [("X_WINTER_REDIRECT", VStr "/done")])
           [("X_WINTER_REDIRECT", VStr "/done")] (start browser page));
    [reflexivity | repeat constructor | reflexivity].
Defined.

(** X5 where the hook rejects: the log is not written. *)
Lemma rejecting_hook_keeps_the_log :
  processUpdate (E := strict) log_entry entry_payload open_strict
  = (Rejected tt,
     at_trace strict shelf
       [ ECall "processUpdate" [AVal entry_payload];
         EGlobalPromiseEvent "ajaxBeforeUpdate"
           [AThis log_entry; AVal entry_payload] ])
  /\ on_response (E := strict) log_entry entry_payload open_strict
     = (tt,
        at_trace strict shelf
          [ ECall "processUpdate" [AVal entry_payload];
            EGlobalPromiseEvent "ajaxBeforeUpdate"
              [AThis log_entry; AVal entry_payload] ]).
Proof.
  apply (update_hook_rejection_aborts (E := strict) log_entry entry_payload
           [("entry", VStr "sold"); ("X_WINTER_SUCCESS", VBool true)] open_strict);
    [reflexivity | discriminate | reflexivity | reflexivity].
Defined.

(** X6 where the hook resolves with [false]: the update runs all the same. *)
Lemma hook_answering_false_still_updates :
  let run :=
    doUpdate (E := shop) log_entry [("entry", VStr "sold")]
      (at_trace shop shelf
         [ ECall "processUpdate" [AVal entry_payload];
           EGlobalPromiseEvent "ajaxBeforeUpdate"
             [AThis log_entry; AVal entry_payload] ]) in
  fst (processUpdate (E := shop) log_entry entry_payload open_shop) = fst run
  /\ dom (snd (processUpdate (E := shop) log_entry entry_payload open_shop))
     = dom (snd run)
  /\ trace (snd (processUpdate (E := shop) log_entry entry_payload open_shop))
     = (trace (snd run)
          ++ match fst run with Fulfilled _ => [EAnimationFrame] | _ => [] end)%list.
Proof.
  apply (update_hook_value_is_ignored (E := shop) log_entry entry_payload
           [("entry", VStr "sold"); ("X_WINTER_SUCCESS", VBool true)] open_shop
           (VBool false));
    [reflexivity | discriminate | reflexivity | reflexivity].
Defined.

(** X7 at a payload with a partial, a [__proto__] key and a flag. *)
Lemma entry_is_the_only_partial :
  In ("entry", VStr "sold")
     (partials_of [ ("entry", VStr "sold"); ("__proto__", VObj []);
                    ("X_WINTER_SUCCESS", VBool true) ])
  <-> In ("entry", VStr "sold")
         [ ("entry", VStr "sold"); ("__proto__", VObj []);
           ("X_WINTER_SUCCESS", VBool true) ]
      /\ substr 0 8 "entry" <> "X_WINTER" /\ "entry" <> "__proto__".
Proof.
  apply (partials_are_the_plain_entries
           [ ("entry", VStr "sold"); ("__proto__", VObj []);
             ("X_WINTER_SUCCESS", VBool true) ]
           "entry" (VStr "sold")).
  repeat constructor; simpl; intuition discriminate.
Defined.


(** X9 at the log of the shop: one assignment, to the log. *)
Lemma log_receives_the_entry :
  exists ws,
    update_partial (E := shop) log_entry ("entry", VStr "sold") open_shop
    = (true, at_trace shop (replay (E := shop) shelf ws) (writes "entry" ws))
    /\ map fst ws = [3]
    /\ merged (E := shop) Append "sold" shelf ws
    /\ (Append = Replace -> map snd ws = map (fun _ => "sold") [3]).
Proof.
  apply (matched_elements_receive_the_content (E := shop)
           log_entry ("entry", VStr "sold") open_shop Append "#log" [3]);
    reflexivity.
Defined.

(** X10 at the list items of the shop, before and after a first
    application: the same two assignments. *)
Lemma items_are_relabelled_alike :
  trace (snd (update_partial (E := shop) relabel ("entry", VStr "sold") open_shop))
  = [ESetInnerHTML "entry" 1 "sold"; ESetInnerHTML "entry" 2 "sold"]
  /\ trace (snd (update_partial (E := shop) relabel ("entry", VStr "sold")
                   (at_trace shop
                      (dom (snd (update_partial (E := shop) relabel
                                   ("entry", VStr "sold") open_shop)))
                      [])))
     = [ESetInnerHTML "entry" 1 "sold"; ESetInnerHTML "entry" 2 "sold"].
Proof.
  apply (replace_assignments_ignore_the_document (E := shop)
           relabel ("entry", VStr "sold") open_shop
           (at_trace shop
              (dom (snd (update_partial (E := shop) relabel
                           ("entry", VStr "sold") open_shop)))
              [])
           "li" [1; 2]);
    reflexivity.
Defined.

(** X12 at a payload with a field report and a message. *)
Lemma complaint_reports_fields_then_message :
  exists t1 t2,
    snd (processError (E := shop) log_entry (inr complaint) open_shop)
    = at_trace shop shelf
        (ECall "processError" [AVal complaint]
           :: ECall "processValidationErrors"
                [AVal (VObj [("name", VArr [VStr "required"])])]
           :: t1 ++ ECall "processErrorMessage" [AVal (VStr "Check the form")]
           :: t2)%list
    /\ alerts t1 = []
    /\ alerts t2
       = (if message_vetoed (E := shop) log_entry (VStr "Check the form")
          then [] else [VStr "Check the form"]).
Proof.
  apply (validation_errors_then_error_message (E := shop) log_entry complaint
           open_shop);
    reflexivity.
Defined.

(** X13 at a payload with flash messages only, flash enabled. *)
Lemma flash_payload_does_not_navigate :
  exists t,
    snd (processResponse (E := browser) (on_save [("flash", VBool true)])
           (VObj [("X_WINTER_FLASH_MESSAGES", VObj [("success", VStr "Saved")])])
           (start browser page))
    = at_trace browser page
        (ECall "processResponse"
           [AVal (VObj [("X_WINTER_FLASH_MESSAGES",
                         VObj [("success", VStr "Saved")])])] :: t)
    /\ navigations t = []
    /\ called "processFlashMessages" t = true
    /\ called "processAssets" t = false.
Proof.
  apply (without_redirect_nothing_navigates (E := browser)
           (on_save [("flash", VBool true)])
           (VObj [("X_WINTER_FLASH_MESSAGES", VObj [("success", VStr "Saved")])])
           (start browser page));
    reflexivity.
Defined.

(** X14 at a successful payload with one partial. *)
Lemma sold_entry_goes_to_processResponse :
  exists t,
    snd (on_response (E := shop) log_entry entry_payload open_shop)
    = {| dom := dom (snd (processUpdate (E := shop) log_entry entry_payload
                            open_shop));
         trace := (trace (snd (processUpdate (E := shop) log_entry entry_payload
                                 open_shop)) ++ t)%list |}
    /\ called "processError" t = false
    /\ called "processResponse" t = true.
Proof.
  apply (fulfilled_update_dispatches_once (E := shop) log_entry entry_payload
           open_shop).
  reflexivity.
Defined.

(** X15 in the shop, whose network is down. *)
Lemma offline_shop_alerts :
  exists t,
    snd (send (E := shop) log_entry open_shop) = at_trace shop shelf t
    /\ fetches t = 1
    /\ alerts t
       = [VStr "Unable to retrieve a response from the server: TypeError: Failed to fetch"]
    /\ called "processUpdate" t = false
    /\ called "processResponse" t = false.
Proof.
  apply (network_failure_is_reported (E := shop) log_entry open_shop
           "TypeError: Failed to fetch" VNull);
    [reflexivity | discriminate | reflexivity].
Defined.

(** X16 at a 503 with a text body. *)
Lemma outage_text_is_alerted :
  exists t,
    snd (send (E := site outage) (on_save []) (start (site outage) page))
    = at_trace (site outage) page t
    /\ alerts t = [VStr "Service unavailable"]
    /\ called "processUpdate" t = false
    /\ called "processResponse" t = false.
Proof.
  apply (server_error_text_is_reported (E := site outage) (on_save [])
           (start (site outage) page) outage "Service unavailable" VNull);
    [reflexivity | discriminate | reflexivity | reflexivity | discriminate
     | reflexivity | reflexivity].
Defined.

(** X18 where a module listens and rejects the confirmation. *)
Lemma rejected_confirmation_sends_nothing :
  exists ev,
    confirm_and_send (E := strict) (on_save [("confirm", VStr "Sure?")]) open_strict
    = (tt, at_trace strict shelf [ECall "doConfirm" []; ev])
    /\ is_confirmation ev = true.
Proof.
  apply (ungranted_request_is_not_sent (E := strict)
           (on_save [("confirm", VStr "Sure?")]) open_strict);
    [reflexivity | discriminate].
Defined.

(** X19 at an empty prompt. *)
Lemma empty_prompt_asks_nobody :
  exists t,
    trace (snd (confirm_and_send (E := shop) (on_save [("confirm", VStr "")])
                  open_shop))
    = (ECall "doAjax" [] :: t)%list
    /\ existsb is_confirmation t = false
    /\ called "doConfirm" t = false.
Proof.
  apply (falsy_confirm_asks_nobody (E := shop) (on_save [("confirm", VStr "")])
           open_shop).
  reflexivity.
Defined.

(** X20 where a module cancels [ajaxSetup]. *)
Lemma closed_browser_sends_nothing :
  constructor (E := closed) (on_save []) (start closed page)
  = Returned (at_trace closed page [EGlobalEvent "ajaxSetup" [AThis (on_save [])]]).
Proof.
  apply (cancelled_setup_ends_the_request (E := closed) (on_save [])
           (start closed page));
    reflexivity.
Defined.

(** X21 at a form that is not valid. *)
Lemma invalid_order_form_is_reported :
  constructor (E := shop)
    (on_save [("browserValidate", VBool true); ("form", VElem 7)]) open_shop
  = Returned
      (at_trace shop shelf
         [ EGlobalEvent "ajaxSetup"
             [AThis (on_save [("browserValidate", VBool true); ("form", VElem 7)])];
           EReportValidity (VElem 7) ]).
Proof.
  apply (invalid_form_is_reported_not_sent (E := shop)
           (on_save [("browserValidate", VBool true); ("form", VElem 7)]) open_shop);
    reflexivity.
Defined.

(** X22 at [browserValidate: 1]: the invalid form is not looked at. *)
Lemma numeric_flag_skips_validation :
  constructor (E := shop)
    (on_save [("browserValidate", VNum 1); ("form", VElem 7)]) open_shop
  = Returned
      (snd (confirm_and_send (E := shop)
              (on_save [("browserValidate", VNum 1); ("form", VElem 7)])
              (at_trace shop shelf
                 [EGlobalEvent "ajaxSetup"
                    [AThis (on_save [("browserValidate", VNum 1);
                                     ("form", VElem 7)])]]))).
Proof.
  apply (validation_needs_flag_and_form (E := shop)
           (on_save [("browserValidate", VNum 1); ("form", VElem 7)]) open_shop);
    [reflexivity | reflexivity | left; discriminate].
Defined.

(** X27 at an update map with two partials. *)
Lemma two_names_survive_the_header :
  Cookie.split "&"
    (extractPartials (VObj [("entry", VStr "@#log"); ("total", VStr "#total")]))
  = ["entry"; "total"].
Proof.
  apply (partial_names_survive_the_header
           (VObj [("entry", VStr "@#log"); ("total", VStr "#total")])
           ["entry"; "total"]);
    [reflexivity | discriminate
     | repeat constructor; intros H; simpl in H; intuition discriminate].
Defined.

(** X28 at a cookie string with two token cookies: the first one wins. *)
Lemma first_of_two_tokens_is_read :
  Cookie.xsrfToken as_is "theme=dark; XSRF-TOKEN=abc123; XSRF-TOKEN=zzz"
  = Some (VStr "abc123").
Proof.
  apply (first_xsrf_cookie_wins as_is
           ["theme=dark"] [" XSRF-TOKEN=zzz"] " XSRF-TOKEN=abc123" "abc123");
    [repeat constructor; intros H; simpl in H; intuition discriminate
    | repeat constructor; discriminate
    | reflexivity].
Defined.

(** X29 at a cookie string without a token. *)
Lemma cookie_without_token_gives_null :
  Cookie.xsrfToken as_is "theme=dark; lang=en" = Some VNull.
Proof.
  apply (missing_xsrf_cookie_gives_null as_is ["theme=dark"; " lang=en"]);
    [repeat constructor; intros H; simpl in H; intuition discriminate
    | repeat constructor; discriminate].
Defined.

End CoverageExamples.
